(** * Resume / job-description matcher: recovery, normalisation and scoring

    A shallow embedding of the algorithmic core of the repository
    ([json_parser.py], [matching_engine.py], [skills_analogy.py]) together
    with the properties stated about it.

    Conventions of the embedding.
    - A Python [str] is a list of characters ([str := list ascii]); the
      characters are the code points below 256.  [py "..."] turns a literal
      into such a list.
    - Python [int]s are [Z]; [s.find(c)] returns [-1] when [c] is absent, as in
      Python.
    - A Python [float] is the rational its double stands for, an infinity
      or a NaN; [float(...)], [*] and [/] round their exact result to
      binary64, as IEEE 754 does.  The two quotients over small integers
      ([scaled_level] over the ranks 0..4, [scaled_count] over the counts of
      skills) are written with the exact quotient.
    - Code that can raise is written in the monad [res], whose failure carries
      the class of the exception ([exn]). *)

From Stdlib Require Import Ascii String ZArith QArith Qround Lia Bool Arith PeanoNat.
From Stdlib Require Import List.
From Stdlib Require Import Sorting.Sorted Sorting.Permutation.
Import ListNotations.

Close Scope Q_scope.

Set Implicit Arguments.
Set Warnings "-register-all".

(** ** Python strings *)

Module PyStr.

Definition str := list ascii.

Definition py (s : string) : str := list_ascii_of_string s.

(** A literal in which the apostrophe stands for the double quote, as
    [pyq "{'a': 1}"]. *)
Definition pyq (s : string) : str :=
  map (fun c => if Ascii.eqb c "'"%char then ascii_of_N 34 else c)
    (list_ascii_of_string s).

Definition ord (c : ascii) : N := N_of_ascii c.

Definition chr_eqb (a b : ascii) : bool := Ascii.eqb a b.

Fixpoint str_eqb (a b : str) : bool :=
  match a, b with
  | [], [] => true
  | x :: a', y :: b' => chr_eqb x y && str_eqb a' b'
  | _, _ => false
  end.

(** [str.isspace] on the code points below 256: TAB..CR, FS..US, SPACE,
    NEL (133) and NBSP (160). *)
Definition isspace (c : ascii) : bool :=
  let n := ord c in
  (((9 <=? n) && (n <=? 13)) || ((28 <=? n) && (n <=? 32))
   || (n =? 133) || (n =? 160))%N.

Fixpoint lstrip (s : str) : str :=
  match s with
  | [] => []
  | c :: t => if isspace c then lstrip t else s
  end.

Definition rstrip (s : str) : str := rev (lstrip (rev s)).

(** [s.strip()] *)
Definition strip (s : str) : str := rstrip (lstrip s).

(** [s.count(c)] for a one-character needle. *)
Definition count (c : ascii) (s : str) : Z :=
  Z.of_nat (count_occ ascii_dec s c).

Fixpoint find_from (i : Z) (c : ascii) (s : str) : Z :=
  match s with
  | [] => (-1)%Z
  | x :: t => if chr_eqb x c then i else find_from (i + 1)%Z c t
  end.

(** [s.find(c)]: index of the first occurrence, or [-1]. *)
Definition find (c : ascii) (s : str) : Z := find_from 0%Z c s.

Fixpoint rfind_from (i : Z) (last : Z) (c : ascii) (s : str) : Z :=
  match s with
  | [] => last
  | x :: t => rfind_from (i + 1)%Z (if chr_eqb x c then i else last) c t
  end.

(** [s.rfind(c)]: index of the last occurrence, or [-1]. *)
Definition rfind (c : ascii) (s : str) : Z := rfind_from 0%Z (-1)%Z c s.

(** Slices [s[i:]] and [s[:j]] for indices that are not negative. *)
Definition slice_from (i : Z) (s : str) : str := skipn (Z.to_nat i) s.
Definition slice_to (j : Z) (s : str) : str := firstn (Z.to_nat j) s.

(** [c * n]: the empty string when [n <= 0]. *)
Definition times (c : ascii) (n : Z) : str := repeat c (Z.to_nat n).

Fixpoint prefixb (p s : str) : bool :=
  match p, s with
  | [], _ => true
  | x :: p', y :: s' => chr_eqb x y && prefixb p' s'
  | _ :: _, [] => false
  end.

(** [needle in s] for strings. *)
Fixpoint contains (needle s : str) : bool :=
  prefixb needle s ||
  match s with
  | [] => false
  | _ :: t => contains needle t
  end.

(** [str.lower] on the code points below 256: [A-Z], and the Latin-1 capitals
    192..222 except the multiplication sign 215, move up by 32. *)
Definition lower_chr (c : ascii) : ascii :=
  let n := ord c in
  if (((65 <=? n) && (n <=? 90))
      || ((192 <=? n) && (n <=? 222) && negb (n =? 215)))%N
  then ascii_of_N (n + 32) else c.

Definition lower (s : str) : str := map lower_chr s.

(** [s.split()]: the maximal runs of characters that are not white space. *)
Fixpoint split_ws (cur : str) (s : str) : list str :=
  match s with
  | [] => match cur with [] => [] | _ => [rev cur] end
  | c :: t =>
      if isspace c
      then match cur with [] => split_ws [] t | _ => rev cur :: split_ws [] t end
      else split_ws (c :: cur) t
  end.

Definition split (s : str) : list str := split_ws [] s.

(** [sep.join(parts)] *)
Fixpoint join (sep : str) (parts : list str) : str :=
  match parts with
  | [] => []
  | [p] => p
  | p :: rest => p ++ sep ++ join sep rest
  end.

End PyStr.

Export PyStr.

(** ** json_parser.py: text-to-object recovery *)

Module JsonParser.

Definition backtick : ascii := "`"%char.
Definition newline : ascii := ascii_of_N 10.
Definition quote : ascii := ascii_of_N 34.
Definition backslash : ascii := ascii_of_N 92.
Definition comma : ascii := ","%char.
Definition lbrace : ascii := "{"%char.
Definition rbrace : ascii := "}"%char.
Definition lbracket : ascii := "["%char.
Definition rbracket : ascii := "]"%char.

(** [re.sub(pat + r'\n?', '', s)] for a literal, non-empty [pat]: scanning
    from the left, every occurrence of [pat], with the newline that may
    follow it, is dropped.  [skip] counts the characters of the current
    occurrence that are still to be dropped. *)
Fixpoint sub_fence (pat : str) (skip : nat) (s : str) : str :=
  match s with
  | [] => []
  | c :: t =>
      match skip with
      | S k => sub_fence pat k t
      | O =>
          if prefixb pat s
          then
            let extra :=
              match skipn (length pat) s with
              | nl :: _ => if chr_eqb nl newline then 1 else 0
              | [] => 0
              end in
            sub_fence pat (length pat - 1 + extra) t
          else c :: sub_fence pat 0 t
      end
  end.

(** [re.sub(r'`+', '', s)] *)
Definition sub_backticks (s : str) : str :=
  filter (fun c => negb (chr_eqb c backtick)) s.

(** The first lines of [extract_json_string]: strip, then remove the markdown
    fences and the stray back-ticks. *)
Definition remove_fences (response_text : str) : str :=
  let t := strip response_text in
  let t := sub_fence (py "```json") 0 t in
  let t := sub_fence (py "```") 0 t in
  sub_backticks t.

Definition auto_complete_json (partial_json : str) : str :=
  let last_comma := rfind comma partial_json in
  let partial_json :=
    if (last_comma =? -1)%Z then partial_json
    else
      let after_comma := strip (slice_from last_comma partial_json) in
      if (Z.of_nat (length after_comma) <? 100)%Z
         && (contains [quote] after_comma
             && negb ((count quote after_comma mod 2) =? 0)%Z)
      then slice_to last_comma partial_json
      else partial_json in
  let open_braces := (count lbrace partial_json - count rbrace partial_json)%Z in
  let open_brackets :=
    (count lbracket partial_json - count rbracket partial_json)%Z in
  let partial_json :=
    if (0 <? open_brackets)%Z
    then partial_json ++ times rbracket open_brackets else partial_json in
  let partial_json :=
    if (0 <? open_braces)%Z
    then partial_json ++ times rbrace open_braces else partial_json in
  partial_json.

(** The test of [auto_complete_json] for an incomplete last field: there is
    a comma, and what follows the last one is, once stripped, shorter than
    100 characters and holds an odd number of quotes. *)
Definition incomplete_last_field (partial_json : str) : bool :=
  let last_comma := rfind comma partial_json in
  negb (last_comma =? -1)%Z
  && ((Z.of_nat (length (strip (slice_from last_comma partial_json))) <? 100)%Z
      && negb ((count quote (strip (slice_from last_comma partial_json)) mod 2)
               =? 0)%Z).

(** The text [auto_complete_json] closes: its argument, cut at the last comma
    when the last field is incomplete. *)
Definition kept_text (partial_json : str) : str :=
  if incomplete_last_field partial_json
  then slice_to (rfind comma partial_json) partial_json
  else partial_json.

(** [None] is Python's [None]. *)
Definition extract_json_string (response_text : str) : option str :=
  match response_text with
  | [] => None
  | _ =>
      let response_text := remove_fences response_text in
      let start_idx := find lbrace response_text in
      let end_idx := rfind rbrace response_text in
      if (start_idx =? -1)%Z then None
      else if (end_idx =? -1)%Z then
        let json_str := slice_from start_idx response_text in
        let json_str := auto_complete_json json_str in
        match json_str with [] => None | _ => Some json_str end
      else if (end_idx <=? start_idx)%Z then None
      else
        Some (slice_to (end_idx + 1 - start_idx)
                (slice_from start_idx response_text))
  end.

(** The scanning loop of [aggressive_json_recovery]: the state is
    [(depth_braces, depth_brackets, last_balanced_pos)]. *)
Fixpoint balance_scan (i : Z) (st : Z * Z * Z) (s : str) : Z * Z * Z :=
  match s with
  | [] => st
  | c :: t =>
      let '(depth_braces, depth_brackets, last_balanced_pos) := st in
      let '(depth_braces, depth_brackets) :=
        if chr_eqb c lbrace then (depth_braces + 1, depth_brackets)%Z
        else if chr_eqb c rbrace then (depth_braces - 1, depth_brackets)%Z
        else if chr_eqb c lbracket then (depth_braces, depth_brackets + 1)%Z
        else if chr_eqb c rbracket then (depth_braces, depth_brackets - 1)%Z
        else (depth_braces, depth_brackets) in
      let last_balanced_pos :=
        if (0 <=? depth_braces)%Z && (0 <=? depth_brackets)%Z
        then i else last_balanced_pos in
      balance_scan (i + 1)%Z (depth_braces, depth_brackets, last_balanced_pos) t
  end.

Definition aggressive_json_recovery (json_str : str) : str :=
  let start := find lbrace json_str in
  let json_str := if (0 <? start)%Z then slice_from start json_str else json_str in
  let '(_, _, last_balanced_pos) := balance_scan 0%Z (0, 0, 0)%Z json_str in
  let json_str := slice_to (last_balanced_pos + 1) json_str in
  let open_braces := (count lbrace json_str - count rbrace json_str)%Z in
  let open_brackets := (count lbracket json_str - count rbracket json_str)%Z in
  if (0 <? open_braces)%Z || (0 <? open_brackets)%Z
  then json_str ++ (times rbrace open_braces ++ times rbracket open_brackets)
  else json_str.

(** *** Strict JSON, as [json.loads] accepts it

    [json.loads] belongs to Python's library.  What the properties need of it is
    whether it accepts a text; the recogniser below follows the decoder of
    CPython: an object, an array, a string without raw control characters, a
    number, [true], [false], [null], [NaN], [Infinity], [-Infinity], with
    blanks (space, tab, newline, carriage return) between the tokens and
    around the document.  Every function returns the text that is left, or
    [None] where the decoder raises [JSONDecodeError]. *)

Definition json_ws (c : ascii) : bool :=
  let n := ord c in ((n =? 32) || (n =? 9) || (n =? 10) || (n =? 13))%N.

Fixpoint skip_ws (s : str) : str :=
  match s with
  | c :: t => if json_ws c then skip_ws t else s
  | [] => []
  end.

Definition is_digit (c : ascii) : bool :=
  let n := ord c in ((48 <=? n) && (n <=? 57))%N.

Definition is_hex (c : ascii) : bool :=
  let n := ord c in
  (((48 <=? n) && (n <=? 57)) || ((65 <=? n) && (n <=? 70))
   || ((97 <=? n) && (n <=? 102)))%N.

Fixpoint skip_digits (s : str) : str :=
  match s with
  | c :: t => if is_digit c then skip_digits t else s
  | [] => []
  end.

(** The body of a string literal, after its opening quote. *)
Fixpoint scan_string (s : str) : option str :=
  match s with
  | [] => None
  | c :: t =>
      if chr_eqb c quote then Some t
      else if chr_eqb c backslash then
        match t with
        | e :: t' =>
            if chr_eqb e "u"%char then
              match t' with
              | h1 :: h2 :: h3 :: h4 :: t'' =>
                  if is_hex h1 && is_hex h2 && is_hex h3 && is_hex h4
                  then scan_string t'' else None
              | _ => None
              end
            else if existsb (chr_eqb e)
                      [quote; backslash; "/"; "b"; "f"; "n"; "r"; "t"]%char
            then scan_string t' else None
        | [] => None
        end
      else if (ord c <? 32)%N then None
      else scan_string t
  end.

(** A number, from its first digit or its minus sign. *)
Definition scan_number (s : str) : option str :=
  let body := match s with
              | c :: t => if chr_eqb c "-"%char then t else s
              | [] => s
              end in
  let after_int :=
    match body with
    | c :: t =>
        if chr_eqb c "0"%char then Some t
        else if is_digit c then Some (skip_digits t)
        else None
    | [] => None
    end in
  match after_int with
  | None => None
  | Some r =>
      let r :=
        match r with
        | p :: d :: t =>
            if chr_eqb p "."%char && is_digit d then skip_digits t else r
        | _ => r
        end in
      let r :=
        match r with
        | e :: t =>
            if chr_eqb e "e"%char || chr_eqb e "E"%char then
              let t' := match t with
                        | sg :: u =>
                            if chr_eqb sg "+"%char || chr_eqb sg "-"%char
                            then u else t
                        | [] => t
                        end in
              match t' with
              | d :: u => if is_digit d then skip_digits u else r
              | [] => r
              end
            else r
        | [] => r
        end in
      Some r
  end.

Definition scan_literal (lit : str) (s : str) : option str :=
  if prefixb lit s then Some (skipn (length lit) s) else None.

Fixpoint scan_value (fuel : nat) (s : str) : option str :=
  match fuel with
  | O => None
  | S fuel =>
      match s with
      | [] => None
      | c :: t =>
          if chr_eqb c quote then scan_string t
          else if chr_eqb c lbrace then
            match skip_ws t with
            | c' :: t' =>
                if chr_eqb c' rbrace then Some t' else scan_members fuel (c' :: t')
            | [] => None
            end
          else if chr_eqb c lbracket then
            match skip_ws t with
            | c' :: t' =>
                if chr_eqb c' rbracket then Some t'
                else scan_elements fuel (c' :: t')
            | [] => None
            end
          else if chr_eqb c "n"%char then scan_literal (py "null") s
          else if chr_eqb c "t"%char then scan_literal (py "true") s
          else if chr_eqb c "f"%char then scan_literal (py "false") s
          else if chr_eqb c "N"%char then scan_literal (py "NaN") s
          else if chr_eqb c "I"%char then scan_literal (py "Infinity") s
          else if chr_eqb c "-"%char then
            if prefixb (py "-Infinity") s
            then Some (skipn 9 s) else scan_number s
          else if is_digit c then scan_number s
          else None
      end
  end

(** The pairs of an object, from the quote of a key to the closing brace. *)
with scan_members (fuel : nat) (s : str) : option str :=
  match fuel with
  | O => None
  | S fuel =>
      match s with
      | c :: t =>
          if chr_eqb c quote then
            match scan_string t with
            | Some r =>
                match skip_ws r with
                | colon :: r' =>
                    if chr_eqb colon ":"%char then
                      match scan_value fuel (skip_ws r') with
                      | Some r'' =>
                          match skip_ws r'' with
                          | d :: u =>
                              if chr_eqb d rbrace then Some u
                              else if chr_eqb d comma
                              then scan_members fuel (skip_ws u)
                              else None
                          | [] => None
                          end
                      | None => None
                      end
                    else None
                | [] => None
                end
            | None => None
            end
          else None
      | [] => None
      end
  end

(** The elements of an array, from the first one to the closing bracket. *)
with scan_elements (fuel : nat) (s : str) : option str :=
  match fuel with
  | O => None
  | S fuel =>
      match scan_value fuel s with
      | Some r =>
          match skip_ws r with
          | d :: u =>
              if chr_eqb d rbracket then Some u
              else if chr_eqb d comma then scan_elements fuel (skip_ws u)
              else None
          | [] => None
          end
      | None => None
      end
  end.

(** A whole document: blanks, one value, blanks, end of text. *)
Definition scan_document (fuel : nat) (s : str) : bool :=
  match scan_value fuel (skip_ws s) with
  | Some r => match skip_ws r with [] => true | _ => false end
  | None => false
  end.

(** [json.loads(s)] returns: some amount of recursion accepts [s]. *)
Definition json_loads_ok (s : str) : Prop :=
  exists fuel, scan_document fuel s = true.

(** The in-string flag at the end of a text, toggled on the quotes that no
    backslash precedes (the flag [fix_json_string] keeps). *)
Fixpoint in_string_at_end (in_string : bool) (prev : option ascii) (s : str)
  : bool :=
  match s with
  | [] => in_string
  | c :: t =>
      let escaped := match prev with
                     | Some p => chr_eqb p backslash
                     | None => false
                     end in
      in_string_at_end
        (if chr_eqb c quote && negb escaped then negb in_string else in_string)
        (Some c) t
  end.

Definition dangling_string (s : str) : bool := in_string_at_end false None s.

(** The inputs of the recovery property: a text cut before the end of a JSON
    document, with an opening brace, no closing brace, and no string literal
    left open. *)
Definition truncated_input (s : str) : Prop :=
  (exists rest, rest <> [] /\ json_loads_ok (s ++ rest))
  /\ In lbrace s /\ ~ In rbrace s /\ dangling_string s = false.

(** [r] is what is left of [s] after some of its characters. *)
Definition suffix (r s : str) : Prop := exists pre, s = pre ++ r.

(** In [s], the character [c] stands just before the rest [r]. *)
Definition closed_by (c : ascii) (r s : str) : Prop :=
  exists pre, s = pre ++ c :: r.

(** The openers of a text that no closer of the text answers, by count. *)
Definition unmatched_openers (s : str) : Z :=
  (Z.max 0 (count lbrace s - count rbrace s)
   + Z.max 0 (count lbracket s - count rbracket s))%Z.

End JsonParser.

(** ** Exceptions *)

Module PyExn.

(** The classes of the exceptions the modelled code can meet. *)
Inductive exn : Type :=
| NameError (name : string)
| TypeError
| ValueError
| AttributeError
| OverflowError
| ZeroDivisionError
| PlainException (msg : string).

Inductive res (A : Type) : Type :=
| Ok (a : A)
| Raise (e : exn).

Arguments Ok {A} a.
Arguments Raise {A} e.

Definition bind {A B : Type} (c : res A) (k : A -> res B) : res B :=
  match c with
  | Ok a => k a
  | Raise e => Raise e
  end.

Fixpoint mapM {A B : Type} (f : A -> res B) (l : list A) : res (list B) :=
  match l with
  | [] => Ok []
  | x :: t =>
      bind (f x) (fun y => bind (mapM f t) (fun ys => Ok (y :: ys)))
  end.

Definition raises {A : Type} (c : res A) : bool :=
  match c with Ok _ => false | Raise _ => true end.

End PyExn.

Export PyExn.

Notation "x <- c ;; k" := (bind c (fun x => k))
  (at level 61, c at next level, right associativity).

(** ** skills_analogy.py: the alias tables and the group of a skill *)

Module SkillsAnalogy.

(** A category maps a primary skill to its aliases; the order of the entries
    is the order of the dict literal. *)
Definition category := list (string * list string).

Section Tables.
Local Open Scope string_scope.

Definition PROGRAMMING : category :=
  [ ("python", ["py"; "python3"; "python 3"]);
    ("javascript", ["js"; "nodejs"; "node.js"; "typescript"; "ts"]);
    ("typescript", ["ts"; "javascript"; "js"]);
    ("java", ["springboot"; "spring"; "j2ee"]);
    ("c++", ["cpp"; "c plus plus"]);
    ("c#", ["csharp"; "c sharp"; ".net"]);
    ("php", ["laravel"; "symfony"]);
    ("golang", ["go"]);
    ("rust", ["rustlang"]);
    ("kotlin", ["android"]);
    ("swift", ["ios"; "objective-c"; "objc"]);
    ("ruby", ["ruby on rails"; "ror"]);
    ("scala", ["spark"; "big data"]);
    ("r", ["rstudio"]) ].

Definition WEB_FRONTEND : category :=
  [ ("react", ["reactjs"; "react.js"; "jsx"; "react native"]);
    ("angular", ["angularjs"; "angular.js"; "ng"]);
    ("vue", ["vuejs"; "vue.js"]);
    ("next.js", ["nextjs"; "next"]);
    ("nuxt", ["nuxtjs"]);
    ("svelte", ["sveltekit"]);
    ("html", ["html5"; "markup"]);
    ("css", ["styling"; "sass"; "scss"; "less"; "postcss"]);
    ("sass", ["scss"; "css"]);
    ("bootstrap", ["css framework"; "frontend framework"]);
    ("tailwind", ["tailwind css"; "utility css"]) ].

Definition BACKEND : category :=
  [ ("nodejs", ["node.js"; "node"; "javascript"; "js"]);
    ("express", ["express.js"; "nodejs"]);
    ("django", ["python"; "drf"]);
    ("flask", ["python"; "microframework"]);
    ("spring", ["springboot"; "java"; "spring boot"]);
    ("fastapi", ["python"; "async api"]);
    ("rest", ["restful"; "rest api"; "api"]);
    ("graphql", ["api"; "query language"]);
    ("soap", ["web service"]) ].

Definition DATABASES : category :=
  [ ("sql", ["mysql"; "postgresql"; "postgres"; "t-sql"; "tsql";
       "sql server"; "oracle"; "mariadb"]);
    ("mysql", ["sql"; "mariadb"; "percona"]);
    ("postgresql", ["postgres"; "sql"; "pg"]);
    ("mongodb", ["nosql"; "document database"; "mongo"]);
    ("redis", ["cache"; "in-memory"; "nosql"; "key-value"]);
    ("cassandra", ["nosql"; "distributed database"]);
    ("elasticsearch", ["search"; "elk"; "opensearch"]);
    ("firebase", ["realtime database"; "backend as service"]);
    ("dynamodb", ["nosql"; "aws"]);
    ("oracle", ["sql"; "database"; "relational"]);
    ("sqlite", ["sql"; "lightweight database"]) ].

Definition CLOUD_DEVOPS : category :=
  [ ("aws", ["amazon"; "amazon web services"; "ec2"; "s3"; "lambda"; "rds";
       "ecs"; "cloudformation"]);
    ("azure", ["microsoft"; "microsoft azure"; "cosmos db"; "app service"]);
    ("gcp", ["google cloud"; "google"; "bigquery"; "cloud functions";
       "cloud storage"]);
    ("kubernetes", ["k8s"; "container orchestration"; "docker"]);
    ("docker", ["containers"; "containerization"; "docker compose"]);
    ("jenkins", ["ci/cd"; "continuous integration"; "automation"; "devops"]);
    ("gitlab", ["ci/cd"; "git"; "github"; "version control"; "devops"]);
    ("github", ["git"; "gitlab"; "version control"; "scm"]);
    ("github actions", ["ci/cd"; "automation"]);
    ("terraform", ["infrastructure as code"; "iac"; "aws"; "infrastructure"]);
    ("ansible", ["infrastructure"; "automation"; "devops";
       "configuration management"]);
    ("argocd", ["gitops"; "continuous delivery"]);
    ("helm", ["kubernetes"; "package manager"]);
    ("git", ["github"; "gitlab"; "bitbucket"; "version control"; "scm"]) ].

Definition DATA_ML : category :=
  [ ("tensorflow", ["machine learning"; "ml"; "deep learning"; "keras"]);
    ("pytorch", ["machine learning"; "ml"; "deep learning"; "torch"]);
    ("scikit-learn", ["machine learning"; "ml"; "sklearn"]);
    ("pandas", ["data analysis"; "python"; "data science"]);
    ("numpy", ["data analysis"; "python"; "data science"]);
    ("spark", ["big data"; "apache spark"; "scala"; "pyspark"]);
    ("hadoop", ["big data"; "mapreduce"; "hdfs"]);
    ("airflow", ["data pipeline"; "workflow orchestration"]);
    ("dbt", ["data transformation"; "analytics engineering"]);
    ("tableau", ["data visualization"; "business intelligence"; "bi"]);
    ("powerbi", ["data visualization"; "business intelligence"; "bi";
       "microsoft"]);
    ("looker", ["data visualization"; "business intelligence"]);
    ("analytics", ["data analytics"; "business analytics"]) ].

Definition BUSINESS_SKILLS : category :=
  [ ("communication", ["interpersonal"; "presentation"; "writing";
       "public speaking"]);
    ("leadership", ["management"; "team leadership"; "people management";
       "executive"]);
    ("management", ["leadership"; "team management"; "people management"]);
    ("team management", ["leadership"; "management"; "team leadership"]);
    ("people management", ["leadership"; "management"; "hr"]);
    ("problem solving", ["analytical"; "troubleshooting"; "critical thinking"]);
    ("analytical", ["problem solving"; "data analysis"; "research"]);
    ("critical thinking", ["problem solving"; "analysis"]);
    ("stakeholder management", ["communication"; "relationship management"]);
    ("relationship management", ["stakeholder management"; "communication"]);
    ("time management", ["organization"; "planning"; "productivity"]);
    ("organization", ["time management"; "planning"; "process improvement"]);
    ("planning", ["strategy"; "organization"; "project planning"]);
    ("strategy", ["strategic planning"; "business strategy"; "planning"]);
    ("strategic planning", ["strategy"; "business planning"]);
    ("business acumen", ["business knowledge"; "understanding"]);
    ("decision making", ["analysis"; "judgment"; "leadership"]);
    ("documentation", ["writing"; "technical writing"; "reporting"]);
    ("reporting", ["documentation"; "analytics"; "communication"]);
    ("research", ["analysis"; "investigation"; "data"]);
    ("presentation skills", ["communication"; "public speaking"]);
    ("public speaking", ["presentation"; "communication"]);
    ("writing", ["documentation"; "communication"; "content"]);
    ("listening", ["communication"; "interpersonal"]);
    ("teamwork", ["collaboration"; "team work"]);
    ("collaboration", ["teamwork"; "communication"]);
    ("adaptability", ["flexibility"; "learning"]);
    ("flexibility", ["adaptability"; "change management"]);
    ("attention to detail", ["quality"; "accuracy"]);
    ("multitasking", ["time management"; "productivity"]);
    ("reliability", ["dependability"; "accountability"]);
    ("accountability", ["responsibility"; "reliability"]);
    ("creativity", ["innovation"; "design thinking"]);
    ("innovation", ["creativity"; "new ideas"]);
    ("customer focus", ["customer service"; "customer satisfaction"]);
    ("result oriented", ["performance"; "achievement"]);
    ("performance", ["achievement"; "result oriented"]) ].

(** The global names of the module that [get_skill_group] can reach.  The
    module binds other names too (QA_TESTING, HR, SALES, MARKETING, FINANCE,
    PROJECT_MANAGEMENT, SUPPLY_CHAIN, MANUFACTURING, HEALTHCARE, EDUCATION,
    CUSTOMER_SERVICE, LEGAL, NETWORKING, MECHANICAL, CONSTRUCTION,
    HOSPITALITY, MISCELLANEOUS, SKILL_ANALOGY, EDUCATION_HIERARCHY,
    ASSESSMENT_THRESHOLDS, ROLE_ANALOGY and its three functions);
    [get_skill_group] names none of them.  The module imports nothing, and
    no assignment, in it or elsewhere, binds TESTING, AI_ML_ADVANCED or
    SOFT_SKILLS. *)
Definition module_globals : list (string * category) :=
  [ ("PROGRAMMING", PROGRAMMING); ("WEB_FRONTEND", WEB_FRONTEND);
    ("BACKEND", BACKEND); ("DATABASES", DATABASES);
    ("CLOUD_DEVOPS", CLOUD_DEVOPS); ("DATA_ML", DATA_ML);
    ("BUSINESS_SKILLS", BUSINESS_SKILLS) ].

(** The names in the list literal [all_categories], in its order. *)
Definition all_categories_names : list string :=
  [ "PROGRAMMING"; "WEB_FRONTEND"; "BACKEND"; "DATABASES"; "CLOUD_DEVOPS";
    "DATA_ML"; "TESTING"; "AI_ML_ADVANCED"; "SOFT_SKILLS"; "BUSINESS_SKILLS" ].

(** The names of that list literal that the module binds. *)
Definition bound_names : list string :=
  [ "PROGRAMMING"; "WEB_FRONTEND"; "BACKEND"; "DATABASES"; "CLOUD_DEVOPS";
    "DATA_ML"; "BUSINESS_SKILLS" ].

End Tables.

(** Reading a global name: [NameError] when nothing binds it. *)
Fixpoint lookup_global (env : list (string * category)) (name : string)
  : res category :=
  match env with
  | [] => Raise (NameError name)
  | (n, c) :: env' =>
      if String.eqb n name then Ok c else lookup_global env' name
  end.

(** [s.replace(a, b)] for a one-character [a]. *)
Definition replace_chr (a : ascii) (b : str) (s : str) : str :=
  flat_map (fun c => if chr_eqb c a then b else [c]) s.

(** The search loops of [get_skill_group]. *)
Fixpoint search_category (skill_lower : str) (cat : category) : option str :=
  match cat with
  | [] => None
  | (primary, aliases) :: rest =>
      if str_eqb skill_lower (lower (py primary)) then Some (lower (py primary))
      else if existsb (fun alias => str_eqb skill_lower (lower (py alias))) aliases
      then Some (lower (py primary))
      else search_category skill_lower rest
  end.

Fixpoint search_categories (skill_lower : str) (cats : list category)
  : option str :=
  match cats with
  | [] => None
  | cat :: rest =>
      match search_category skill_lower cat with
      | Some g => Some g
      | None => search_categories skill_lower rest
      end
  end.

(** [get_skill_group], with the environment in which the names of its list
    literal are read. *)
Definition get_skill_group_in (env : list (string * category))
    (names : list string) (skill_name : str) : res (option str) :=
  match skill_name with
  | [] => Ok None
  | _ =>
      let skill_lower := strip (lower skill_name) in
      let skill_lower :=
        replace_chr "-"%char (py " ") (replace_chr "."%char [] skill_lower) in
      all_categories <- mapM (lookup_global env) names ;;
      Ok (search_categories skill_lower all_categories)
  end.

Definition get_skill_group (skill_name : str) : res (option str) :=
  get_skill_group_in module_globals all_categories_names skill_name.

End SkillsAnalogy.

(** ** difflib.SequenceMatcher

    [SequenceMatcher(None, a, b).ratio()] belongs to Python's library.  The
    model follows CPython's [find_longest_match] and [get_matching_blocks]:
    no junk predicate, and the automatic junk heuristic, which removes from
    the index of [b] the characters that fill more than 1% of it (plus one
    occurrence) when [b] has 200 characters or more. *)

Module Difflib.

Definition popular (b : str) (c : ascii) : bool :=
  (200 <=? length b) && (length b / 100 + 1 <? count_occ ascii_dec b c).

Definition same_at (a b : str) (i j : nat) : bool :=
  match nth_error a i, nth_error b j with
  | Some x, Some y => chr_eqb x y
  | _, _ => false
  end.

(** One row of the table [j2len]: [diag] is the entry of the previous row at
    [j - 1], [prev] the previous row from [j] on; [best] is
    [(besti, bestj, bestsize)]. *)
Fixpoint scan_row (b_all : str) (ai : ascii) (i blo bhi j : nat) (bs : str)
    (diag : nat) (prev : list nat) (best : nat * nat * nat)
  : list nat * (nat * nat * nat) :=
  match bs with
  | [] => ([], best)
  | bj :: bs' =>
      let here := hd 0 prev in
      let k :=
        if (blo <=? j) && (j <? bhi) && chr_eqb ai bj && negb (popular b_all bj)
        then S diag else 0 in
      let best' :=
        let '(_, _, bestsize) := best in
        if bestsize <? k then (i + 1 - k, j + 1 - k, k) else best in
      let '(row, best'') :=
        scan_row b_all ai i blo bhi (S j) bs' here (tl prev) best' in
      (k :: row, best'')
  end.

Fixpoint scan_rows (b : str) (i : nat) (a_part : str) (blo bhi : nat)
    (prev : list nat) (best : nat * nat * nat) : nat * nat * nat :=
  match a_part with
  | [] => best
  | ai :: t =>
      let '(row, best') := scan_row b ai i blo bhi 0 b 0 prev best in
      scan_rows b (S i) t blo bhi row best'
  end.

Fixpoint extend_back (a b : str) (alo blo : nat) (fuel : nat)
    (best : nat * nat * nat) : nat * nat * nat :=
  match fuel with
  | O => best
  | S fuel =>
      let '(besti, bestj, bestsize) := best in
      if (alo <? besti) && (blo <? bestj) && same_at a b (besti - 1) (bestj - 1)
      then extend_back a b alo blo fuel (besti - 1, bestj - 1, S bestsize)
      else best
  end.

Fixpoint extend_forth (a b : str) (ahi bhi : nat) (fuel : nat)
    (best : nat * nat * nat) : nat * nat * nat :=
  match fuel with
  | O => best
  | S fuel =>
      let '(besti, bestj, bestsize) := best in
      if (besti + bestsize <? ahi) && (bestj + bestsize <? bhi)
         && same_at a b (besti + bestsize) (bestj + bestsize)
      then extend_forth a b ahi bhi fuel (besti, bestj, S bestsize)
      else best
  end.

Definition find_longest_match (a b : str) (alo ahi blo bhi : nat)
  : nat * nat * nat :=
  let best :=
    scan_rows b alo (firstn (ahi - alo) (skipn alo a)) blo bhi [] (alo, blo, 0) in
  let best := extend_back a b alo blo (length a) best in
  extend_forth a b ahi bhi (length a) best.

(** The sum of the sizes of the blocks [get_matching_blocks] collects. *)
Fixpoint matching_total (a b : str) (fuel : nat) (alo ahi blo bhi : nat) : nat :=
  match fuel with
  | O => 0
  | S fuel =>
      let '(i, j, k) := find_longest_match a b alo ahi blo bhi in
      match k with
      | O => 0
      | S _ =>
          k
          + (if (alo <? i) && (blo <? j)
             then matching_total a b fuel alo i blo j else 0)
          + (if (i + k <? ahi) && (j + k <? bhi)
             then matching_total a b fuel (i + k) ahi (j + k) bhi else 0)
      end
  end.

Definition matches (a b : str) : nat :=
  matching_total a b (S (length a)) 0 (length a) 0 (length b).

(** [ratio()]: [2.0 * matches / (len(a) + len(b))], and [1.0] for two empty
    strings. *)
Definition ratio (a b : str) : Q :=
  match (length a + length b)%nat with
  | O => 1%Q
  | S n => Qmake (2 * Z.of_nat (matches a b)) (Pos.of_succ_nat n)
  end.

End Difflib.

(** ** matching_engine.py: the skill resolver *)

Module SkillMatch.
Import SkillsAnalogy.

Definition is_lower_alnum (c : ascii) : bool :=
  let n := ord c in (((97 <=? n) && (n <=? 122)) || ((48 <=? n) && (n <=? 57)))%N.

(** A letter or a digit of ASCII, once lowered. *)
Definition alnum_after_lower (c : ascii) : bool := is_lower_alnum (lower_chr c).

(** [normalize_skill] for a string: lower, strip, keep [[a-z0-9\s]], collapse
    the white space. *)
Definition normalize_skill (skill : str) : str :=
  match skill with
  | [] => []
  | _ =>
      let skill := strip (lower skill) in
      let skill := filter (fun c => is_lower_alnum c || isspace c) skill in
      join (py " ") (split skill)
  end.

Inductive match_kind : Type :=
| invalid | exact | analogy | fuzzy | substring | no_match.

Definition find_skill_match_with (similarity_threshold : Q)
    (candidate_skill required_skill : str) : bool * match_kind * Q :=
  let cand_norm := normalize_skill candidate_skill in
  let req_norm := normalize_skill required_skill in
  match cand_norm, req_norm with
  | [], _ | _, [] => (false, invalid, 0%Q)
  | _, _ =>
      if str_eqb cand_norm req_norm then (true, exact, 1%Q)
      else
        (* try: ... except: pass *)
        let by_group :=
          match (cand_group <- get_skill_group candidate_skill ;;
                 req_group <- get_skill_group required_skill ;;
                 Ok (cand_group, req_group)) with
          | Ok (Some cg, Some rg) => str_eqb cg rg && negb (str_eqb cg [])
          | Ok _ => false
          | Raise _ => false
          end in
        if by_group then (true, analogy, (95 # 100)%Q)
        else
          let similarity := Difflib.ratio cand_norm req_norm in
          if Qle_bool similarity_threshold similarity
          then (true, fuzzy, similarity)
          else if (3 <? length req_norm) && (3 <? length cand_norm)
                  && (contains cand_norm req_norm || contains req_norm cand_norm)
          then (true, substring, (88 # 100)%Q)
          else (false, no_match, 0%Q)
  end.

(** The default threshold is [0.70]. *)
Definition find_skill_match : str -> str -> bool * match_kind * Q :=
  find_skill_match_with (7 # 10)%Q.

End SkillMatch.

(** ** Python values

    The records the engine receives are the dicts [json.loads] builds, so a
    field can hold a value of any JSON type. *)

Module PyVal.

(** A float is the rational a finite double stands for, an infinity or a
    NaN. *)
Inductive pyfloat : Type :=
| Finite (q : Q)
| Inf (negative : bool)
| NaN.

Inductive pyval : Type :=
| PNone
| PBool (b : bool)
| PInt (z : Z)
| PFloat (f : pyfloat)
| PStr (s : str)
| PList (l : list pyval)
| PDict (d : list (str * pyval)).

(** A dict keeps its keys in insertion order; a key occurs once. *)
Definition dict := list (str * pyval).

Fixpoint dict_find (d : dict) (k : str) : option pyval :=
  match d with
  | [] => None
  | (k', v) :: d' => if str_eqb k' k then Some v else dict_find d' k
  end.

(** [k in d] *)
Definition dict_has (d : dict) (k : str) : bool :=
  match dict_find d k with Some _ => true | None => false end.

(** [d.get(k, default)] *)
Definition dict_get (d : dict) (k : str) (default : pyval) : pyval :=
  match dict_find d k with Some v => v | None => default end.

(** [d[k] = v]: in place when the key is there, at the end otherwise. *)
Fixpoint dict_set (d : dict) (k : str) (v : pyval) : dict :=
  match d with
  | [] => [(k, v)]
  | (k', v') :: d' =>
      if str_eqb k' k then (k', v) :: d' else (k', v') :: dict_set d' k v
  end.

(** [d.update(other)] *)
Definition dict_update (d other : dict) : dict :=
  fold_left (fun acc kv => dict_set acc (fst kv) (snd kv)) other d.

Definition is_zero (q : Q) : bool := Qeq_bool q 0.

(** Truth value of an object. *)
Definition truthy (v : pyval) : bool :=
  match v with
  | PNone => false
  | PBool b => b
  | PInt z => negb (z =? 0)%Z
  | PFloat (Finite q) => negb (is_zero q)
  | PFloat _ => true
  | PStr s => match s with [] => false | _ => true end
  | PList l => match l with [] => false | _ => true end
  | PDict d => match d with [] => false | _ => true end
  end.

(** [a or b] *)
Definition py_or (a b : pyval) : pyval := if truthy a then a else b.

Definition is_none (v : pyval) : bool :=
  match v with PNone => true | _ => false end.
Definition is_list (v : pyval) : bool :=
  match v with PList _ => true | _ => false end.
Definition is_dict (v : pyval) : bool :=
  match v with PDict _ => true | _ => false end.

(** [v.get(k, default)]: only a dict has the method. *)
Definition py_get (v : pyval) (k : str) (default : pyval) : res pyval :=
  match v with
  | PDict d => Ok (dict_get d k default)
  | _ => Raise AttributeError
  end.

(** [for x in v]: the items of a list, the characters of a string, the keys of
    a dict. *)
Definition py_iter (v : pyval) : res (list pyval) :=
  match v with
  | PList l => Ok l
  | PStr s => Ok (map (fun c => PStr [c]) s)
  | PDict d => Ok (map (fun kv => PStr (fst kv)) d)
  | _ => Raise TypeError
  end.

(** [v == "literal"] *)
Definition eq_str (v : pyval) (s : str) : bool :=
  match v with PStr s' => str_eqb s' s | _ => false end.

(** The conversions of Python that the repository does not define: [float]
    of a string ([None] where it raises [ValueError]) and [str] of a value
    that is not a string. *)
Record builtins : Type := {
  float_of_str : str -> option pyfloat;
  str_of : pyval -> str
}.

(** [str(v)] *)
Definition py_str (B : builtins) (v : pyval) : str :=
  match v with PStr s => s | _ => str_of B v end.

(** *** Rounding to binary64

    Python's floats are the doubles of IEEE 754.  [float(z)], [a * b] and
    [a / b] return the double nearest to the exact result, the even one of
    two that are as near, and an infinity from [2^1024 - 2^970] on
    ([float(z)] raises [OverflowError] there).  A double is modelled by the
    rational it stands for; the two zeros are one. *)

(** [2^e] *)
Definition pow2 (e : Z) : Q :=
  if (0 <=? e)%Z then inject_Z (2 ^ e) else (/ inject_Z (2 ^ (- e)))%Q.

(** [floor(log2 q)] for a positive [q]. *)
Definition binade (q : Q) : Z :=
  if Qle_bool 1 q then Z.log2 (Qfloor q)
  else (- Z.log2_up (Qceiling (/ q)))%Z.

(** The integer nearest to a rational that is not negative, the even one of
    two. *)
Definition round_half_even (q : Q) : Z :=
  let f := Qfloor q in
  match (q - inject_Z f ?= 1 # 2)%Q with
  | Lt => f
  | Gt => (f + 1)%Z
  | Eq => if Z.even f then f else (f + 1)%Z
  end.

(** The double nearest to a positive rational, [None] on overflow: doubles
    have 53 significant bits, and the spacing [2^-1074] below [2^-1022]. *)
Definition round64_pos (q : Q) : option Q :=
  let u := (Z.max (binade q) (-1022) - 52)%Z in
  let v := (inject_Z (round_half_even (q / pow2 u)) * pow2 u)%Q in
  if Qle_bool (pow2 1024) v then None else Some (Qred v).

Definition round64 (q : Q) : pyfloat :=
  match (q ?= 0)%Q with
  | Eq => Finite 0%Q
  | Gt => match round64_pos q with
          | Some v => Finite v
          | None => Inf false
          end
  | Lt => match round64_pos (- q) with
          | Some v => Finite (- v)
          | None => Inf true
          end
  end.

(** [float(z)] *)
Definition float_of_int (z : Z) : res pyfloat :=
  match round64 (inject_Z z) with
  | Finite q => Ok (Finite q)
  | _ => Raise OverflowError
  end.

(** [float(v)] *)
Definition py_float (B : builtins) (v : pyval) : res pyfloat :=
  match v with
  | PBool b => Ok (Finite (if b then 1 else 0)%Q)
  | PInt z => float_of_int z
  | PFloat f => Ok f
  | PStr s =>
      match float_of_str B s with
      | Some f => Ok f
      | None => Raise ValueError
      end
  | PNone | PList _ | PDict _ => Raise TypeError
  end.

(** Truncation towards zero. *)
Definition Qtrunc (q : Q) : Z := Z.quot (Qnum q) (Z.pos (Qden q)).

(** [int(f)] *)
Definition int_of_float (f : pyfloat) : res Z :=
  match f with
  | Finite q => Ok (Qtrunc q)
  | Inf _ => Raise OverflowError
  | NaN => Raise ValueError
  end.

Definition fcmp (a b : pyfloat) : option comparison :=
  match a, b with
  | NaN, _ | _, NaN => None
  | Finite p, Finite q => Some (p ?= q)%Q
  | Inf n1, Inf n2 =>
      Some (if n1 then (if n2 then Eq else Lt) else (if n2 then Gt else Eq))
  | Inf n, Finite _ => Some (if n then Lt else Gt)
  | Finite _, Inf n => Some (if n then Gt else Lt)
  end.

(** [a >= b], [a > b], [a == b] *)
Definition fge (a b : pyfloat) : bool :=
  match fcmp a b with Some Gt | Some Eq => true | _ => false end.
Definition fgt (a b : pyfloat) : bool :=
  match fcmp a b with Some Gt => true | _ => false end.
Definition feq (a b : pyfloat) : bool :=
  match fcmp a b with Some Eq => true | _ => false end.

Definition Qneg (q : Q) : bool := (Qnum q <? 0)%Z.

(** [a / b] *)
Definition fdiv (a b : pyfloat) : res pyfloat :=
  match b with
  | Finite q =>
      if is_zero q then Raise ZeroDivisionError
      else
        match a with
        | Finite p => Ok (round64 (p / q))
        | Inf n => Ok (Inf (xorb n (Qneg q)))
        | NaN => Ok NaN
        end
  | Inf _ =>
      match a with
      | Finite _ => Ok (Finite 0%Q)
      | _ => Ok NaN
      end
  | NaN => Ok NaN
  end.

(** [a * b] *)
Definition fmul (a b : pyfloat) : pyfloat :=
  match a, b with
  | NaN, _ | _, NaN => NaN
  | Finite p, Finite q => round64 (p * q)
  | Inf n, Finite q | Finite q, Inf n =>
      if is_zero q then NaN else Inf (xorb n (Qneg q))
  | Inf n1, Inf n2 => Inf (xorb n1 n2)
  end.

(** *** An instance of the conversions

    [float_of_literal] is [float] of a string: blanks around, a sign, then
    [inf], [infinity], [nan] in any case, or a decimal number (digits that
    single underscores may separate, a point, an exponent), rounded to
    binary64.  [str_of_scalar] is [str] of [None], of a boolean and of an
    integer; it is not to be relied on for the other values. *)

Definition digit_value (c : ascii) : Z := Z.of_N (ord c - 48).

Definition is_decimal (c : ascii) : bool :=
  let n := ord c in ((48 <=? n) && (n <=? 57))%N.

(** The digits after the first one of a run: [(value, number of digits,
    rest)]. *)
Fixpoint more_digits (acc : Z) (n : nat) (s : str) : Z * nat * str :=
  match s with
  | c :: t =>
      if is_decimal c then more_digits (10 * acc + digit_value c)%Z (S n) t
      else if chr_eqb c "_"%char then
        match t with
        | d :: t' =>
            if is_decimal d
            then more_digits (10 * acc + digit_value d)%Z (S n) t'
            else (acc, n, s)
        | [] => (acc, n, s)
        end
      else (acc, n, s)
  | [] => (acc, n, s)
  end.

(** A run of digits, if the text starts with a digit. *)
Definition digit_run (s : str) : option (Z * nat * str) :=
  match s with
  | c :: t => if is_decimal c then Some (more_digits (digit_value c) 1 t) else None
  | [] => None
  end.

Definition sign_of (s : str) : bool * str :=
  match s with
  | c :: t =>
      if chr_eqb c "-"%char then (true, t)
      else if chr_eqb c "+"%char then (false, t)
      else (false, s)
  | [] => (false, s)
  end.

(** The exponent part, and the end of the text. *)
Definition exponent_of (s : str) : option Z :=
  match s with
  | [] => Some 0%Z
  | c :: t =>
      if chr_eqb c "e"%char || chr_eqb c "E"%char then
        let '(negative, t') := sign_of t in
        match digit_run t' with
        | Some (e, _, []) => Some (if negative then - e else e)%Z
        | _ => None
        end
      else None
  end.

(** The value of an unsigned decimal number. *)
Definition decimal_of (s : str) : option Q :=
  let '(int_part, has_int, s) :=
    match digit_run s with
    | Some (v, _, rest) => (v, true, rest)
    | None => (0%Z, false, s)
    end in
  let '(frac_part, frac_digits, has_frac, s) :=
    match s with
    | c :: t =>
        if chr_eqb c "."%char then
          match digit_run t with
          | Some (v, n, rest) => (v, n, true, rest)
          | None => (0%Z, O, false, t)
          end
        else (0%Z, O, false, s)
    | [] => (0%Z, O, false, s)
    end in
  if has_int || has_frac then
    match exponent_of s with
    | Some e =>
        let mantissa :=
          (inject_Z (int_part * 10 ^ Z.of_nat frac_digits + frac_part)
           / inject_Z (10 ^ Z.of_nat frac_digits))%Q in
        Some (if (0 <=? e)%Z then mantissa * inject_Z (10 ^ e)
              else mantissa / inject_Z (10 ^ (- e)))%Q
    | None => None
    end
  else None.

Definition float_of_literal (s : str) : option pyfloat :=
  let '(negative, body) := sign_of (strip s) in
  let word := lower body in
  if str_eqb word (py "inf") || str_eqb word (py "infinity")
  then Some (Inf negative)
  else if str_eqb word (py "nan") then Some NaN
  else
    match decimal_of body with
    | Some q => Some (round64 (if negative then - q else q)%Q)
    | None => None
    end.

Fixpoint digits_of (fuel : nat) (n : N) (acc : str) : str :=
  match fuel with
  | O => acc
  | S fuel =>
      let acc := ascii_of_N (48 + n mod 10) :: acc in
      if (n <? 10)%N then acc else digits_of fuel (n / 10)%N acc
  end.

Definition str_of_scalar (v : pyval) : str :=
  match v with
  | PNone => py "None"
  | PBool true => py "True"
  | PBool false => py "False"
  | PInt z =>
      (if (z <? 0)%Z then py "-" else [])
      ++ digits_of (S (N.to_nat (N.log2 (Z.to_N (Z.abs z)))))
           (Z.to_N (Z.abs z)) []
  | _ => []
  end.

Definition example_builtins : builtins :=
  {| float_of_str := float_of_literal; str_of := str_of_scalar |}.

End PyVal.

Export PyVal.

(** ** matching_engine.py: the scoring engine

    The f-strings of the source become constructors that carry the values
    the sentence is formatted from. *)

Module MatchingEngine.
Import SkillMatch.

Section Engine.
Variable B : builtins.

(** *** Experience *)

Inductive experience_details : Type :=
| NoExperienceRequired (candidate : Z)
| ExperienceMatches (candidate required : Z)
| ExperiencePartial (candidate required percentage : Z).

Record experience_result : Type := {
  exp_met : bool;
  candidateExperience : Z;
  requiredExperience : Z;
  exp_details : experience_details;
  exp_score : Z;
  exp_percentage : Z
}.

(** The [try] block: any exception sets both numbers to 0. *)
Definition experience_years (resume_data jd_data : pyval) : pyfloat * pyfloat :=
  match (cv <- py_get resume_data (py "totalYearsExperience") (PInt 0) ;;
         c <- py_float B (py_or cv (PInt 0)) ;;
         rv <- py_get jd_data (py "minExperienceYears") (PInt 0) ;;
         r <- py_float B (py_or rv (PInt 0)) ;;
         Ok (c, r)) with
  | Ok p => p
  | Raise _ => (Finite 0%Q, Finite 0%Q)
  end.

(** [int((c / r) * k) if r > 0 else 0] *)
Definition scaled (c r : pyfloat) (k : Z) : res Z :=
  if fgt r (Finite 0%Q)
  then q <- fdiv c r ;; int_of_float (fmul q (Finite (inject_Z k)))
  else Ok 0%Z.

Definition check_experience_match (resume_data jd_data : pyval)
  : res experience_result :=
  let '(candidate_years, required_years) :=
    experience_years resume_data jd_data in
  let met := fge candidate_years required_years in
  branch <-
    (if feq required_years (Finite 0%Q) then
       ci <- int_of_float candidate_years ;;
       Ok (35, 100, NoExperienceRequired ci)%Z
     else if fge candidate_years required_years then
       ci <- int_of_float candidate_years ;;
       ri <- int_of_float required_years ;;
       Ok (35, 100, ExperienceMatches ci ri)%Z
     else
       percentage <- scaled candidate_years required_years 100 ;;
       score <- scaled candidate_years required_years 35 ;;
       let score := Z.max 1 score in
       ci <- int_of_float candidate_years ;;
       ri <- int_of_float required_years ;;
       Ok (score, percentage, ExperiencePartial ci ri percentage)) ;;
  let '(score, percentage, details) := branch in
  ci <- int_of_float candidate_years ;;
  ri <- int_of_float required_years ;;
  Ok {| exp_met := met;
        candidateExperience := ci;
        requiredExperience := ri;
        exp_details := details;
        exp_score := score;
        exp_percentage := Z.min 100 percentage |}.

(** *** Education *)

(** [EDUCATION_HIERARCHY] of matching_engine.py, in the order of the dict
    literal. *)
Definition EDUCATION_HIERARCHY : list (string * Z) :=
  [ ("phd", 4); ("doctorate", 4); ("master", 3); ("m.tech", 3); ("mba", 3);
    ("bachelor", 2); ("b.tech", 2); ("b.s", 2); ("b.a", 2); ("diploma", 1);
    ("high school", 0) ]%Z%string.

Fixpoint first_key (table : list (string * Z)) (degree_lower : str)
  : option (str * Z) :=
  match table with
  | [] => None
  | (key, value) :: rest =>
      if contains (py key) degree_lower then Some (py key, value)
      else first_key rest degree_lower
  end.

Definition normalize_education (degree : pyval) : str * Z :=
  if negb (truthy degree) then (py "not specified", 0%Z)
  else
    let degree_lower := strip (lower (py_str B degree)) in
    match first_key EDUCATION_HIERARCHY degree_lower with
    | Some kv => kv
    | None => (degree_lower, 0%Z)
    end.

Inductive education_details : Type :=
| NoEducationRequired
| Overqualified (candidate_degree required_degree : pyval)
| EducationMatches (candidate_degree required_degree : pyval)
| EducationPartial (candidate_degree required_degree : pyval) (percentage : Z).

Record education_result : Type := {
  edu_met : bool;
  candidateDegree : pyval;
  requiredDegree : pyval;
  edu_details : education_details;
  edu_score : Z;
  edu_percentage : Z;
  isOverqualified : bool
}.

(** The degree an education entry is read as. *)
Definition degree_of (edu_item : pyval) : pyval :=
  match edu_item with
  | PDict d => dict_get d (py "degree") (PStr (py "not specified"))
  | _ =>
      if truthy edu_item then PStr (py_str B edu_item)
      else PStr (py "not specified")
  end.

(** The loop over the education entries: the state is
    [(highest_level, highest_degree)]. *)
Definition highest_step (st : Z * pyval) (edu_item : pyval) : Z * pyval :=
  let '(highest_level, highest_degree) := st in
  let degree_str := degree_of edu_item in
  let '(_, level) := normalize_education degree_str in
  if (highest_level <? level)%Z then (level, degree_str)
  else (highest_level, highest_degree).

Definition highest_education (education_list : list pyval) : Z * pyval :=
  fold_left highest_step education_list (0%Z, PStr (py "not specified")).

(** The rank of one education entry, and the ranks the engine compares: the
    candidate's is the one its loop ends with, the required one that of
    [requiredEducation]. *)
Definition entry_level (edu_item : pyval) : Z :=
  snd (normalize_education (degree_of edu_item)).

Definition candidate_level (resume_data : dict) : Z :=
  match dict_get resume_data (py "education") (PList []) with
  | PList l => fst (highest_education l)
  | _ => 0%Z
  end.

Definition required_level (jd_data : dict) : Z :=
  snd (normalize_education
         (dict_get jd_data (py "requiredEducation") (PStr (py "not specified")))).

(** [int((c / r) * k) if r > 0 else 0] for two levels. *)
Definition scaled_level (c r k : Z) : Z :=
  if (0 <? r)%Z then Qtrunc ((inject_Z c / inject_Z r) * inject_Z k)%Q else 0%Z.

Definition check_education_match (resume_data jd_data : pyval)
  : res education_result :=
  education_list <- py_get resume_data (py "education") (PList []) ;;
  let '(candidate_level, candidate_degree) :=
    match education_list with
    | PList (e :: l) => highest_education (e :: l)
    | _ => (0%Z, PStr (py "not specified"))
    end in
  required_degree <-
    py_get jd_data (py "requiredEducation") (PStr (py "not specified")) ;;
  let '(_, required_level) := normalize_education required_degree in
  let met := (required_level <=? candidate_level)%Z in
  let '(score, percentage, details) :=
    if (required_level =? 0)%Z || eq_str required_degree (py "not specified")
    then (25, 100, NoEducationRequired)%Z
    else if (required_level <=? candidate_level)%Z then
      (25, 100,
       if (required_level <? candidate_level)%Z
       then Overqualified candidate_degree required_degree
       else EducationMatches candidate_degree required_degree)%Z
    else
      let percentage := scaled_level candidate_level required_level 100 in
      let score := scaled_level candidate_level required_level 25 in
      let score := Z.max 1 score in
      (score, percentage,
       EducationPartial candidate_degree required_degree percentage) in
  Ok {| edu_met := met;
        candidateDegree := candidate_degree;
        requiredDegree := required_degree;
        edu_details := details;
        edu_score := score;
        edu_percentage := Z.min 100 percentage;
        isOverqualified :=
          (required_level <? candidate_level)%Z && (0 <? required_level)%Z |}.

(** *** Skills *)

Inductive skills_details : Type :=
| NoSkillsRequired (candidate_count : nat)
| NoMatchingSkills (candidate_count required_count : nat)
| LimitedMatch (matched required : nat) (percentage : Z)
| PartialMatch (matched required : nat) (percentage : Z)
| GoodMatch (matched required : nat) (percentage : Z)
| ExcellentMatch (matched required : nat) (percentage : Z).

(** One entry of [skillMatchDetails]; [confidence] is the value that the
    source then rounds to two decimals. *)
Record skill_match_detail : Type := {
  required : str;
  matched : option str;
  type : option match_kind;
  confidence : Q
}.

Record skills_result : Type := {
  skl_met : bool;
  candidateSkillsCount : nat;
  requiredSkillsCount : nat;
  skl_percentage : Z;
  matchedSkills : list str;
  missingSkills : list str;
  skillMatchDetails : list skill_match_detail;
  skl_details : skills_details;
  skl_score : Z;
  allCandidateSkills : list str
}.

Definition nonempty (s : str) : bool :=
  match s with [] => false | _ => true end.

(** The name one entry of the candidate's skills contributes. *)
Definition candidate_skill_name (skill : pyval) : res str :=
  match skill with
  | PDict d =>
      match dict_get d (py "name") (PStr []) with
      | PStr s => Ok (strip s)
      | _ => Raise AttributeError
      end
  | _ => Ok (if truthy skill then strip (py_str B skill) else [])
  end.

Definition extract_candidate_skills (resume_data : pyval) : res (list str) :=
  candidate_skills_list <- py_get resume_data (py "skills") (PList []) ;;
  items <- py_iter candidate_skills_list ;;
  names <- mapM candidate_skill_name items ;;
  Ok (filter nonempty names).

Definition extract_required_skills (jd_data : pyval) : res (list str) :=
  required_skills_list <- py_get jd_data (py "requiredSkills") (PList []) ;;
  items <- py_iter required_skills_list ;;
  Ok (map (fun s => strip (py_str B s))
        (filter (fun s => truthy s && nonempty (strip (py_str B s))) items)).

(** The inner loop: the state is
    [(skill_found, best_match, best_match_type, best_confidence)]. *)
Definition best_step (req_skill : str)
    (st : bool * option str * option match_kind * Q) (cand_skill : str)
  : bool * option str * option match_kind * Q :=
  let '(skill_found, best_match, best_match_type, best_confidence) := st in
  let '(is_match, match_type, confidence) :=
    find_skill_match cand_skill req_skill in
  if is_match then
    if negb (Qle_bool confidence best_confidence)
    then (true, Some cand_skill, Some match_type, confidence)
    else (true, best_match, best_match_type, best_confidence)
  else st.

Definition best_match_for (candidate_skills : list str) (req_skill : str)
  : bool * option str * option match_kind * Q :=
  fold_left (best_step req_skill) candidate_skills (false, None, None, 0%Q).

(** The outer loop: the state is
    [(matched_skills, missing_skills, skill_match_details)]. *)
Definition required_step (candidate_skills : list str)
    (st : list str * list str * list skill_match_detail) (req_skill : str)
  : list str * list str * list skill_match_detail :=
  let '(matched_skills, missing_skills, skill_match_details) := st in
  let '(skill_found, best_match, best_match_type, best_confidence) :=
    best_match_for candidate_skills req_skill in
  if skill_found then
    (matched_skills ++ [req_skill], missing_skills,
     skill_match_details ++
       [{| required := req_skill; matched := best_match;
           type := best_match_type; confidence := best_confidence |}])
  else (matched_skills, missing_skills ++ [req_skill], skill_match_details).

(** The flag [skill_found] of a state of the inner loop. *)
Definition found_flag (st : bool * option str * option match_kind * Q) : bool :=
  fst (fst (fst st)).

(** A required skill is matched when the resolver matches it with one of the
    candidate's skills; [matched_count] counts the required skills that are. *)
Definition skill_matched (candidate_skills : list str) (req_skill : str) : bool :=
  existsb (fun cand_skill => fst (fst (find_skill_match cand_skill req_skill)))
    candidate_skills.

Definition matched_count (candidate_skills required_skills : list str) : nat :=
  length (filter (skill_matched candidate_skills) required_skills).

(** [int((m / n) * k)] for two lengths, [n] not 0. *)
Definition scaled_count (m n : nat) (k : Z) : Z :=
  Qtrunc ((inject_Z (Z.of_nat m) / inject_Z (Z.of_nat n)) * inject_Z k)%Q.

Definition check_skills_match (resume_data jd_data : pyval)
  : res skills_result :=
  candidate_skills <- extract_candidate_skills resume_data ;;
  required_skills <- extract_required_skills jd_data ;;
  match required_skills with
  | [] =>
      Ok {| skl_met := true;
            candidateSkillsCount := length candidate_skills;
            requiredSkillsCount := 0;
            skl_percentage := 100;
            matchedSkills := candidate_skills;
            missingSkills := [];
            skillMatchDetails := [];
            skl_details := NoSkillsRequired (length candidate_skills);
            skl_score := 40;
            allCandidateSkills := candidate_skills |}
  | _ =>
      let '(matched_skills, missing_skills, skill_match_details) :=
        fold_left (required_step candidate_skills) required_skills ([], [], []) in
      let m := length matched_skills in
      let n := length required_skills in
      let percentage := scaled_count m n 100 in
      let score := scaled_count m n 40 in
      let score := match matched_skills with
                   | [] => 0%Z
                   | _ => Z.max 1 score
                   end in
      let met := (50 <=? percentage)%Z in
      let details :=
        if (percentage =? 0)%Z
        then NoMatchingSkills (length candidate_skills) n
        else if (percentage <? 25)%Z then LimitedMatch m n percentage
        else if (percentage <? 50)%Z then PartialMatch m n percentage
        else if (percentage <? 75)%Z then GoodMatch m n percentage
        else ExcellentMatch m n percentage in
      Ok {| skl_met := met;
            candidateSkillsCount := m;
            requiredSkillsCount := n;
            skl_percentage := percentage;
            matchedSkills := matched_skills;
            missingSkills := missing_skills;
            skillMatchDetails := skill_match_details;
            skl_details := details;
            skl_score := score;
            allCandidateSkills := candidate_skills |}
  end.

(** *** The report *)

Inductive assessment : Type :=
| ExcellentMatchLabel | GreatMatchLabel | GoodMatchLabel | ModerateMatchLabel
| PoorMatchLabel.

(** [ASSESSMENT_MAP], its keys sorted in decreasing order. *)
Definition ASSESSMENT_MAP : list (Z * assessment) :=
  [ (90, ExcellentMatchLabel); (75, GreatMatchLabel); (60, GoodMatchLabel);
    (40, ModerateMatchLabel); (0, PoorMatchLabel) ]%Z.

Fixpoint first_threshold (table : list (Z * assessment)) (score : Z)
  : assessment :=
  match table with
  | [] => PoorMatchLabel
  | (threshold, a) :: rest =>
      if (threshold <=? score)%Z then a else first_threshold rest score
  end.

Definition get_assessment (score : Z) : assessment :=
  first_threshold ASSESSMENT_MAP score.

Inductive summary_kind : Type :=
| StrongCandidate | GoodCandidate | ModerateCandidate | ImprovementNeeded.

Inductive gap : Type :=
| ExperienceGap (percentage : Z)
| EducationGap (percentage : Z)
| SkillsGap (percentage : Z).

Record match_report : Type := {
  experienceMatch : experience_result;
  educationMatch : education_result;
  skillsMatch : skills_result;
  sectionScores : Z * Z * Z;
  overallScore : Z;
  report_assessment : assessment;
  gaps : list gap;
  recommendations : experience_details * education_details * skills_details;
  summary : nat * summary_kind
}.

Definition calculate_match (resume_data jd_data : pyval) : res match_report :=
  if negb (truthy resume_data) || negb (truthy jd_data)
  then Raise (PlainException "Missing resume or JD data")
  else
    experience_result <- check_experience_match resume_data jd_data ;;
    education_result <- check_education_match resume_data jd_data ;;
    skills_result <- check_skills_match resume_data jd_data ;;
    let overall_score :=
      (exp_score experience_result + edu_score education_result
       + skl_score skills_result)%Z in
    let overall_score := Z.min 100 (Z.max 0 overall_score) in
    let matched_count :=
      (if exp_met experience_result then 1 else 0)
      + (if edu_met education_result then 1 else 0)
      + (if skl_met skills_result then 1 else 0) in
    let kind :=
      if (75 <=? overall_score)%Z then StrongCandidate
      else if (60 <=? overall_score)%Z then GoodCandidate
      else if (40 <=? overall_score)%Z then ModerateCandidate
      else ImprovementNeeded in
    Ok {| experienceMatch := experience_result;
          educationMatch := education_result;
          skillsMatch := skills_result;
          sectionScores :=
            (exp_score experience_result, edu_score education_result,
             skl_score skills_result);
          overallScore := overall_score;
          report_assessment := get_assessment overall_score;
          gaps :=
            (if exp_met experience_result then []
             else [ExperienceGap (exp_percentage experience_result)])
            ++ (if edu_met education_result then []
                else [EducationGap (edu_percentage education_result)])
            ++ (if skl_met skills_result then []
                else [SkillsGap (skl_percentage skills_result)]);
          recommendations :=
            (exp_details experience_result, edu_details education_result,
             skl_details skills_result);
          summary := (matched_count, kind) |}.

(** *** Records the engine can score

    A skill entry is readable when it is not a dict, or is a dict whose
    [name], if it has one, is a string; a skills field is readable when it
    can be iterated and its entries are readable.  An input is scorable when
    it is [None] or a dict with such fields; the years are usable when both
    numbers of the [try] block are finite and the candidate's is not
    negative. *)
Definition readable_skill (skill : pyval) : bool :=
  match skill with
  | PDict d =>
      match dict_get d (py "name") (PStr []) with
      | PStr _ => true
      | _ => false
      end
  | _ => true
  end.

Definition readable_skills (v : pyval) : bool :=
  match v with
  | PList l => forallb readable_skill l
  | PStr _ | PDict _ => true
  | _ => false
  end.

Definition iterable (v : pyval) : bool :=
  match v with
  | PList _ | PStr _ | PDict _ => true
  | _ => false
  end.

Definition scorable_resume (v : pyval) : Prop :=
  v = PNone
  \/ exists d, v = PDict d
               /\ readable_skills (dict_get d (py "skills") (PList [])) = true.

Definition scorable_jd (v : pyval) : Prop :=
  v = PNone
  \/ exists d, v = PDict d
               /\ iterable (dict_get d (py "requiredSkills") (PList [])) = true.

Definition usable_years (resume_data jd_data : pyval) : Prop :=
  exists c r,
    experience_years resume_data jd_data = (Finite c, Finite r)
    /\ (0 <= c)%Q.

End Engine.

End MatchingEngine.

(** ** json_parser.py: the schema normaliser *)

Module Normalizer.

Section Normalize.
Variable B : builtins.

Definition job_description : str := py "Job Description".
Definition resume : str := py "Resume".

Definition get_default_structure (doc_type : str) : dict :=
  if str_eqb doc_type job_description then
    [ (py "jobTitle", PStr (py "Not extracted"));
      (py "requiredSkills", PList []);
      (py "minExperienceYears", PInt 0);
      (py "requiredEducation", PStr (py "Not specified"));
      (py "preferredSkills", PList []);
      (py "description", PNone);
      (py "responsibilities", PList []);
      (py "benefits", PList []) ]
  else
    [ (py "role", PStr (py "Not extracted"));
      (py "totalYearsExperience", PInt 0);
      (py "experienceDetails", PList []);
      (py "skills", PList []);
      (py "education", PList []);
      (py "certifications", PList []);
      (py "summary", PStr (py "Error parsing this document")) ].

(** [int(float(str(val).replace(',', '')))] *)
Definition int_of_text (val : pyval) : res Z :=
  match float_of_str B (filter (fun c => negb (chr_eqb c ","%char)) (py_str B val))
  with
  | Some f => int_of_float f
  | None => Raise ValueError
  end.

(** [try: ... except (ValueError, TypeError, AttributeError): 0]; another
    exception goes on to the handler of [validate_data_types]. *)
Definition int_or_zero (val : pyval) : res Z :=
  match int_of_text val with
  | Ok z => Ok z
  | Raise ValueError | Raise TypeError | Raise AttributeError => Ok 0%Z
  | Raise e => Raise e
  end.

(** The loop over [data['skills']]. *)
Definition keep_skill (skill : pyval) : list pyval :=
  match skill with
  | PDict d =>
      match dict_find d (py "name") with
      | Some name => if truthy name then [skill] else []
      | None => []
      end
  | PStr s =>
      match strip s with
      | [] => []
      | name => [PDict [(py "name", PStr name)]]
      end
  | _ => []
  end.

(** [[str(s).strip() for s in l if s and str(s).strip()]] *)
Definition stripped_strings (l : list pyval) : list pyval :=
  map (fun s => PStr (strip (py_str B s)))
    (filter (fun s => truthy s
                      && match strip (py_str B s) with [] => false | _ => true end)
       l).

(** [if k not in data or not isinstance(data[k], list): data[k] = []] *)
Definition ensure_list (data : dict) (k : str) : dict :=
  match dict_find data k with
  | Some (PList _) => data
  | _ => dict_set data k (PList [])
  end.

Definition string_list_field (data : dict) (k : str) : dict :=
  match dict_find data k with
  | Some (PList l) => dict_set data k (PList (stripped_strings l))
  | _ => dict_set data k (PList [])
  end.

(** The body of the [try] of [validate_data_types]; it raises what the
    handler [except Exception] then catches. *)
Definition validate_body (data : dict) (doc_type : str) : res dict :=
  if str_eqb doc_type resume then
    data <-
      match dict_find data (py "totalYearsExperience") with
      | Some PNone => Ok (dict_set data (py "totalYearsExperience") (PInt 0))
      | Some val =>
          z <- int_or_zero val ;;
          Ok (dict_set data (py "totalYearsExperience") (PInt z))
      | None => Ok (dict_set data (py "totalYearsExperience") (PInt 0))
      end ;;
    let data :=
      match dict_find data (py "skills") with
      | Some (PList l) =>
          dict_set data (py "skills") (PList (flat_map keep_skill l))
      | _ => dict_set data (py "skills") (PList [])
      end in
    let data := ensure_list data (py "education") in
    let data := ensure_list data (py "experienceDetails") in
    Ok data
  else
    data <-
      match dict_find data (py "minExperienceYears") with
      | None | Some PNone =>
          Ok (dict_set data (py "minExperienceYears") (PInt 0))
      | Some val =>
          z <- int_or_zero val ;;
          Ok (dict_set data (py "minExperienceYears") (PInt z))
      end ;;
    let data := string_list_field data (py "requiredSkills") in
    let data := string_list_field data (py "preferredSkills") in
    Ok data.

(** The number is the first field the body writes, and nothing else in the
    body raises: when the handler runs, [data] is still the object the
    function received. *)
Definition validate_data_types (data : dict) (doc_type : str) : dict :=
  match validate_body data doc_type with
  | Ok data' => data'
  | Raise _ => data
  end.

Definition required_fields (doc_type : str) : list str :=
  if str_eqb doc_type job_description
  then [py "jobTitle"; py "requiredSkills"; py "minExperienceYears"]
  else [py "role"; py "totalYearsExperience"; py "skills"; py "education"].

Definition field_missing (data : dict) (f : str) : bool :=
  match dict_find data f with
  | None | Some PNone => true
  | Some _ => false
  end.

(** [parse_with_validation], from the object that
    [clean_json_response(response_text)] returned ([None] when it found
    nothing to parse). *)
(** The lines between the parse and the validation: when a required field
    is missing, the defaults, updated with the fields of the object that are
    not null. *)
Definition with_defaults (data : dict) (doc_type : str) : dict :=
  let missing_fields := filter (field_missing data) (required_fields doc_type) in
  match missing_fields with
  | [] => data
  | _ =>
      dict_update (get_default_structure doc_type)
        (filter (fun kv => negb (is_none (snd kv))) data)
  end.

Definition parse_with_validation (data : option dict) (doc_type : str) : dict :=
  match data with
  | None | Some [] => get_default_structure doc_type
  | Some data => validate_data_types (with_defaults data doc_type) doc_type
  end.

(** *** What a normalised record is to hold *)

(** The number field of a schema. *)
Definition number_field (doc_type : str) : str :=
  if str_eqb doc_type resume then py "totalYearsExperience"
  else py "minExperienceYears".

(** The number that reaches the conversion converts: the conversion returns
    an integer or raises one of the three classes that are caught. *)
Definition number_converts (data : option dict) (doc_type : str) : Prop :=
  match data with
  | None | Some [] => True
  | Some data =>
      forall val,
        dict_find (with_defaults data doc_type) (number_field doc_type)
        = Some val ->
        is_none val = false -> exists z, int_or_zero val = Ok z
  end.

Definition is_int (v : pyval) : bool :=
  match v with PInt _ => true | _ => false end.

(** A skill of a resume: a dict whose [name] is there and true. *)
Definition named_skill (v : pyval) : bool :=
  match v with
  | PDict d =>
      match dict_find d (py "name") with
      | Some name => truthy name
      | None => false
      end
  | _ => false
  end.

Definition list_of (P : pyval -> bool) (v : pyval) : bool :=
  match v with PList l => forallb P l | _ => false end.

Definition nonblank_string (v : pyval) : bool :=
  match v with
  | PStr s => match s with [] => false | _ => true end
  | _ => false
  end.

(** The field [k] of [d] is there and satisfies [P]. *)
Definition field_is (d : dict) (k : str) (P : pyval -> bool) : Prop :=
  exists v, dict_find d k = Some v /\ P v = true.

(** The fields that [validate_data_types] types. *)
Definition validated (d : dict) (doc_type : str) : Prop :=
  if str_eqb doc_type resume then
    field_is d (py "totalYearsExperience") is_int
    /\ field_is d (py "skills") (list_of named_skill)
    /\ field_is d (py "education") is_list
    /\ field_is d (py "experienceDetails") is_list
  else
    field_is d (py "minExperienceYears") is_int
    /\ field_is d (py "requiredSkills") (list_of nonblank_string)
    /\ field_is d (py "preferredSkills") (list_of nonblank_string).

(** The fields a schema declares: those of its default record. *)
Definition schema_fields (doc_type : str) : list str :=
  map fst (get_default_structure doc_type).

(** *** The normalised record, field by field

    What the normalisation is to return, read off its steps for one field at
    a time, to be compared with [parse_with_validation]. *)

(** All the required fields are there, none null. *)
Definition complete (data : dict) (doc_type : str) : bool :=
  forallb (fun f => negb (field_missing data f)) (required_fields doc_type).

(** The field [k] after the merge: of a complete object, the field as it
    came; otherwise the field when it is there and not null, and else the
    default. *)
Definition merged_field (data : dict) (doc_type : str) (k : str)
  : option pyval :=
  if complete data doc_type then dict_find data k
  else
    match dict_find data k with
    | Some v =>
        if is_none v then dict_find (get_default_structure doc_type) k
        else Some v
    | None => dict_find (get_default_structure doc_type) k
    end.

(** The number that the validation writes for the value [v] of the number
    field, when the conversion does not raise past its handler. *)
Definition number_of (v : option pyval) : Z :=
  match v with
  | None | Some PNone => 0%Z
  | Some val => match int_or_zero val with Ok z => z | Raise _ => 0%Z end
  end.

(** The field [k] after the validation, from its value [v] before. *)
Definition typed_field (doc_type : str) (k : str) (v : option pyval)
  : option pyval :=
  if str_eqb doc_type resume then
    if str_eqb k (py "totalYearsExperience") then Some (PInt (number_of v))
    else if str_eqb k (py "skills") then
      Some (PList (match v with
                   | Some (PList l) => flat_map keep_skill l
                   | _ => []
                   end))
    else if str_eqb k (py "education") || str_eqb k (py "experienceDetails")
    then Some (match v with Some (PList l) => PList l | _ => PList [] end)
    else v
  else
    if str_eqb k (py "minExperienceYears") then Some (PInt (number_of v))
    else if str_eqb k (py "requiredSkills") || str_eqb k (py "preferredSkills")
    then
      Some (PList (match v with
                   | Some (PList l) => stripped_strings l
                   | _ => []
                   end))
    else v.

Definition normalized_field (data : dict) (doc_type : str) (k : str)
  : option pyval :=
  typed_field doc_type k (merged_field data doc_type k).

End Normalize.

End Normalizer.

(** ** json_parser.py: the experience aggregator *)

Module Aggregator.
Local Open Scope Z_scope.

(** A [datetime] is a number of microseconds; [datetime.now()] is the
    argument [today]. *)
Definition datetime := Z.

Definition microseconds_per_day : Z := 86400000000.

(** [(b - a).days] *)
Definition days_between (a b : datetime) : Z := (b - a) / microseconds_per_day.

(** Days before the first of a month, in a year that is leap or not. *)
Definition days_before_month (leap : bool) (m : Z) : Z :=
  let base := nth (Z.to_nat (m - 1))
                [0; 31; 59; 90; 120; 151; 181; 212; 243; 273; 304; 334] 0 in
  if leap && (2 <? m) then base + 1 else base.

Definition is_leap (y : Z) : bool :=
  ((y mod 4 =? 0) && negb (y mod 100 =? 0)) || (y mod 400 =? 0).

(** [date(y, m, d).toordinal()] *)
Definition ordinal (y m d : Z) : Z :=
  let y' := y - 1 in
  365 * y' + y' / 4 - y' / 100 + y' / 400 + days_before_month (is_leap y) m + d.

(** [datetime(y, m, d)], midnight. *)
Definition datetime_of (y m d : Z) : datetime :=
  ordinal y m d * microseconds_per_day.

Record period : Type := { p_start : datetime; p_end : datetime }.

Section Aggregate.
(** [strptime date_str fmt] is [datetime.strptime(date_str, fmt)], [None]
    where it raises [ValueError]. *)
Variable strptime : str -> string -> option datetime.
Variable B : builtins.

Definition present_keywords : list string :=
  [ "present"; "current"; "ongoing"; "till now"; "today"; "till present";
    "till date"; "current role" ]%string.

Definition no_date_keywords : list string :=
  [ "no date"; "n/a"; "not available"; "unknown"; "--"; "none" ]%string.

Definition formats : list string :=
  [ "%Y"; "%Y-%m"; "%Y-%m-%d"; "%m/%Y"; "%m-%Y"; "%m/%d/%Y"; "%d-%m-%Y";
    "%B %Y"; "%b %Y"; "%B %d, %Y"; "%b %d, %Y"; "%d %B %Y"; "%d %b %Y";
    "%b'%y"; "%B'%y"; "%m.%Y"; "%Y.%m" ]%string.

Fixpoint first_format (date_str : str) (fmts : list string) : option datetime :=
  match fmts with
  | [] => None
  | fmt :: rest =>
      match strptime date_str fmt with
      | Some d => Some d
      | None => first_format date_str rest
      end
  end.

Definition parse_date_safely (date_str : pyval) : option datetime :=
  if negb (truthy date_str) then None
  else
    let date_str_lower := strip (lower (py_str B date_str)) in
    if existsb (fun kw => contains (py kw) date_str_lower) present_keywords
    then None
    else if existsb (fun kw => contains (py kw) date_str_lower) no_date_keywords
    then None
    else
      let date_str := strip (py_str B date_str) in
      match first_format date_str formats with
      | Some d => Some d
      | None =>
          if contains (py "'") date_str
          then strptime (filter (fun c => negb (chr_eqb c "'"%char)) date_str)
                 "%b%y"
          else None
      end.

(** The body of the first loop: the period an entry contributes, if any. *)
Definition entry_period (today : datetime) (exp : pyval) : option period :=
  match exp with
  | PDict d =>
      let start_date := parse_date_safely (dict_get d (py "startDate") PNone) in
      let end_date := parse_date_safely (dict_get d (py "endDate") PNone) in
      match start_date with
      | None => None
      | Some start_date =>
          if today <? start_date then None
          else
            let end_date := match end_date with
                            | Some e => e
                            | None => today
                            end in
            if end_date <? start_date then None
            else
              let duration_days := days_between start_date end_date in
              if (duration_days <? 30) || (60 * 365 <? duration_days) then None
              else Some {| p_start := start_date; p_end := end_date |}
      end
  | _ => None
  end.

Fixpoint collect_periods (today : datetime) (l : list pyval) : list period :=
  match l with
  | [] => []
  | exp :: rest =>
      match entry_period today exp with
      | Some p => p :: collect_periods today rest
      | None => collect_periods today rest
      end
  end.

(** [periods.sort(key=lambda x: x['start'])]: a stable sort. *)
Fixpoint insert_by_start (p : period) (l : list period) : list period :=
  match l with
  | [] => [p]
  | q :: rest =>
      if p_start p <? p_start q then p :: q :: rest
      else q :: insert_by_start p rest
  end.

Definition sort_by_start (l : list period) : list period :=
  fold_left (fun acc p => insert_by_start p acc) l [].

(** One turn of the merging loop on [merged], whose last element is
    [merged[-1]].  In the source the dict [merged[-1]] is also an element of
    [periods], and the assignment to its ['end'] is seen there too; the loop
    only reads the elements of [periods] that come later, so a list of
    values gives the same result. *)
Definition merge_step (merged : list period) (current : period) : list period :=
  match rev merged with
  | [] => [current]
  | last :: before =>
      if p_start current <=? p_end last
      then rev before ++
           [{| p_start := p_start last;
               p_end := Z.max (p_end last) (p_end current) |}]
      else merged ++ [current]
  end.

Definition merge_periods (periods : list period) : list period :=
  match periods with
  | [] => []
  | first :: rest => fold_left merge_step rest [first]
  end.

Definition total_days (merged : list period) : Z :=
  fold_right (fun p acc => days_between (p_start p) (p_end p) + acc) 0 merged.

Definition calculate_experience_from_details (today : datetime)
    (experience_details : pyval) : Z * Z :=
  match experience_details with
  | PList (e :: l) =>
      let periods := collect_periods today (e :: l) in
      match periods with
      | [] => (0, 0)
      | _ =>
          let periods := sort_by_start periods in
          let merged := merge_periods periods in
          let total := total_days merged in
          let total_years := total / 365 in
          let remaining_days := total mod 365 in
          let total_months := remaining_days / 30 in
          (total_years, total_months)
      end
  | _ => (0, 0)
  end.

End Aggregate.

(** *** What the merging is to achieve *)

Definition valid (p : period) : Prop := p_start p <= p_end p.

(** The instant [t] lies in the period [p], in one of the periods of [l]. *)
Definition covers (p : period) (t : datetime) : Prop :=
  p_start p <= t <= p_end p.

Definition covered (l : list period) (t : datetime) : Prop :=
  exists p, In p l /\ covers p t.

(** Each period ends before the next one starts. *)
Fixpoint separated (l : list period) : Prop :=
  match l with
  | [] => True
  | a :: rest =>
      match rest with
      | b :: _ => p_end a < p_start b
      | [] => True
      end /\ separated rest
  end.

(** The order of the sort. *)
Definition by_start (a b : period) : Prop := p_start a <= p_start b.

(** The state of the merging loop after the periods [seen]: the merged
    periods are valid, separated, start no later than what is still to come,
    and cover what the periods seen cover. *)
Record merge_inv (seen merged : list period) (rest : list period) : Prop := {
  inv_shape : exists before last, merged = before ++ [last]
                /\ Forall (fun p => p_start last <= p_start p) rest;
  inv_valid : Forall valid merged;
  inv_separated : separated merged;
  inv_covered : forall t, covered seen t <-> covered merged t
}.

(** *** An instance of [strptime] for the worked example

    It reads the format [%Y-%m] only: four digits, a dash, and a month
    written [01]..[12] or [1]..[9]; on any other format it answers [None]. *)
Definition digit_of (c : ascii) : option Z :=
  let n := ord c in
  if ((48 <=? n) && (n <=? 57))%N then Some (Z.of_N (n - 48)) else None.

Definition year_month_strptime (date_str : str) (fmt : string)
  : option datetime :=
  if String.eqb fmt "%Y-%m" then
    match date_str with
    | y1 :: y2 :: y3 :: y4 :: dash :: rest =>
        match digit_of y1, digit_of y2, digit_of y3, digit_of y4 with
        | Some a, Some b, Some c, Some d =>
            let y := 1000 * a + 100 * b + 10 * c + d in
            let m :=
              match rest with
              | [m1] => match digit_of m1 with
                        | Some u => if 1 <=? u then Some u else None
                        | None => None
                        end
              | [m1; m2] =>
                  match digit_of m1, digit_of m2 with
                  | Some t, Some u =>
                      let v := 10 * t + u in
                      if (1 <=? v) && (v <=? 12) then Some v else None
                  | _, _ => None
                  end
              | _ => None
              end in
            match m with
            | Some m =>
                if chr_eqb dash "-"%char && (1 <=? y)
                then Some (datetime_of y m 1) else None
            | None => None
            end
        | _, _, _, _ => None
        end
    | _ => None
    end
  else None.

(** An entry of [experienceDetails] with its two dates. *)
Definition experience_entry (start_date end_date : string) : pyval :=
  PDict [(py "startDate", PStr (py start_date));
         (py "endDate", PStr (py end_date))].

End Aggregator.

(** ** json_parser.py: post-processing of an extracted record *)

Module PostProcess.
Import Aggregator.

Section Post.
Variable strptime : str -> string -> option datetime.
Variable B : builtins.

(** The name a skill of a resume is known by: [skill.get('name', '')], or
    [str(skill)], lowered and stripped.  Only a string has [lower]. *)
Definition skill_key (skill : pyval) : res str :=
  match skill with
  | PDict d =>
      match dict_get d (py "name") (PStr []) with
      | PStr s => Ok (strip (lower s))
      | _ => Raise AttributeError
      end
  | _ => Ok (strip (lower (py_str B skill)))
  end.

(** [name and 1 < len(name) < 50] *)
Definition acceptable_name (name : str) : bool :=
  match name with
  | [] => false
  | _ => (1 <? length name) && (length name <? 50)
  end.

(** The loop that fills [unique_skills], a dict keyed by name: the names,
    in the order of their first insertion. *)
Definition add_unique (names : list str) (name : str) : list str :=
  if acceptable_name name && negb (existsb (str_eqb name) names)
  then names ++ [name] else names.

Definition unique_names (keys : list str) : list str :=
  fold_left add_unique keys [].

Definition named (name : str) : pyval := PDict [(py "name", PStr name)].

(** The loop over the required skills of a job description: the state is
    [(unique_skills, seen)]. *)
Definition add_required (st : list pyval * list str) (skill : pyval)
  : list pyval * list str :=
  let '(unique_skills, seen) := st in
  let skill_lower := strip (lower (py_str B skill)) in
  match skill_lower with
  | [] => st
  | _ =>
      if existsb (str_eqb skill_lower) seen then st
      else (unique_skills ++ [skill], seen ++ [skill_lower])
  end.

Definition unique_required (skills : list pyval) : list pyval :=
  fst (fold_left add_required skills ([], [])).

(** [f"{years} years {months} months"] *)
Definition experience_formatted (years months : Z) : str :=
  py_str B (PInt years) ++ py " years " ++ py_str B (PInt months) ++ py " months".

Definition post_process_extraction (today : datetime) (data : dict)
    (doc_type : str) : res dict :=
  match data with
  | [] => Ok data
  | _ =>
      if str_eqb doc_type Normalizer.resume then
        let exp_details := dict_get data (py "experienceDetails") (PList []) in
        let data :=
          if truthy exp_details then
            let '(years, months) :=
              calculate_experience_from_details strptime B today exp_details in
            let data := dict_set data (py "totalYearsExperience") (PInt years) in
            if (0 <? months)%Z
            then dict_set data (py "totalExperienceFormatted")
                   (PStr (experience_formatted years months))
            else data
          else data in
        skills <- py_iter (dict_get data (py "skills") (PList [])) ;;
        keys <- mapM skill_key skills ;;
        Ok (dict_set data (py "skills")
              (PList (map named (firstn 20 (unique_names keys)))))
      else if str_eqb doc_type Normalizer.job_description then
        skills <- py_iter (dict_get data (py "requiredSkills") (PList [])) ;;
        Ok (dict_set data (py "requiredSkills")
              (PList (firstn 25 (unique_required skills))))
      else Ok data
  end.

End Post.

End PostProcess.

(** ** skills_analogy.py: the other two helpers *)

Module SkillsHelpers.
Import SkillsAnalogy.

Fixpoint category_find (cat : category) (key : str) : option (list string) :=
  match cat with
  | [] => None
  | (primary, aliases) :: rest =>
      if str_eqb (py primary) key then Some aliases else category_find rest key
  end.

(** The loop [for category in all_categories: if group in category: ...]. *)
Fixpoint first_with_group (group : str) (cats : list category)
  : option (list str) :=
  match cats with
  | [] => None
  | cat :: rest =>
      match category_find cat group with
      | Some aliases => Some (group :: map py aliases)
      | None => first_with_group group rest
      end
  end.

Definition find_equivalent_skills (skill_name : str) : res (list str) :=
  match skill_name with
  | [] => Ok []
  | _ =>
      group <- get_skill_group skill_name ;;
      match group with
      | None | Some [] => Ok [skill_name]
      | Some group =>
          all_categories <- mapM (lookup_global module_globals)
                              all_categories_names ;;
          match first_with_group group all_categories with
          | Some l => Ok l
          | None => Ok [skill_name]
          end
      end
  end.

(** The names of the list literal [technical_categories], in its order. *)
Definition technical_categories_names : list string :=
  [ "PROGRAMMING"; "WEB_FRONTEND"; "BACKEND"; "DATABASES"; "CLOUD_DEVOPS";
    "DATA_ML"; "TESTING"; "AI_ML_ADVANCED" ]%string.

(** The last loop of [is_technical_skill]: [get_skill_group] is called anew
    for every category; [None in category] is false. *)
Fixpoint group_in_some (skill_name : str) (cats : list category) : res bool :=
  match cats with
  | [] => Ok false
  | cat :: rest =>
      group <- get_skill_group skill_name ;;
      match group with
      | Some g =>
          match category_find cat g with
          | Some _ => Ok true
          | None => group_in_some skill_name rest
          end
      | None => group_in_some skill_name rest
      end
  end.

(** [is_technical_skill].  In its first loop the test
    [soft_skill in [SOFT_SKILLS, BUSINESS_SKILLS]] compares a string with two
    dicts and is false, so the body under it does not run; the loop returns
    [False] at the first key that equals the skill. *)
Definition is_technical_skill (skill_name : str) : res bool :=
  match skill_name with
  | [] => Ok false
  | _ =>
      let skill_lower := strip (lower skill_name) in
      soft <- lookup_global module_globals "SOFT_SKILLS" ;;
      business <- lookup_global module_globals "BUSINESS_SKILLS" ;;
      let non_technical := map fst soft ++ map fst business in
      if existsb (fun k => str_eqb skill_lower (lower (py k))) non_technical
      then Ok false
      else
        technical_categories <- mapM (lookup_global module_globals)
                                  technical_categories_names ;;
        group_in_some skill_name technical_categories
  end.

End SkillsHelpers.

(** ** llm_extraction.py: the check of a response, and what follows it *)

Module LlmExtraction.
Import JsonParser Aggregator.

(** [json.loads(s)] returns, as a boolean: the recogniser with as much
    recursion as [s] has characters, and one more. *)
Definition json_loads_accepts (s : str) : bool :=
  scan_document (S (length s)) s.

(** The boolean of the pair [validate_json_response] returns. *)
Definition validate_json_response (response_text : str) : bool :=
  match response_text with
  | [] => false
  | _ =>
      if negb (contains [lbrace] response_text) then false
      else
        let start := find lbrace response_text in
        let end_ := rfind rbrace response_text in
        if (start =? -1)%Z || (end_ =? -1)%Z || (end_ <=? start)%Z then false
        else
          json_loads_accepts
            (slice_to (end_ + 1 - start) (slice_from start response_text))
  end.

Section Pass.
Variable strptime : str -> string -> option datetime.
Variable B : builtins.

(** One pass of [extract_structured_data_stable], from the object that
    [clean_json_response] returned for the response: parse and validate,
    validate again, post-process.  ([parse_with_validation] never returns an
    empty record, but the test [if data:] is kept.) *)
Definition extraction_pass (today : datetime) (parsed : option dict)
    (doc_type : str) : res (option dict) :=
  let data := Normalizer.parse_with_validation B parsed doc_type in
  match data with
  | [] => Ok None
  | _ =>
      let data := Normalizer.validate_data_types B data doc_type in
      data <- PostProcess.post_process_extraction strptime B today data doc_type ;;
      Ok (Some data)
  end.

End Pass.

End LlmExtraction.

(** ** Notions used to state the properties of the loops *)

Module Invariants.
Import SkillMatch MatchingEngine.

(** The entry of [skillMatchDetails] that the inner loop produces for a
    required skill. *)
Definition detail_of (candidate_skills : list str) (req_skill : str)
  : skill_match_detail :=
  let '(_, best_match, best_match_type, best_confidence) :=
    best_match_for candidate_skills req_skill in
  {| required := req_skill; matched := best_match;
     type := best_match_type; confidence := best_confidence |}.

(** What the state of the inner loop says about the candidate's skills
    [seen] so far: nothing matched and the state is the initial one, or the
    state names one of them, with the answer the resolver gave for it, and no
    other of them has a higher confidence. *)
Definition best_so_far (req_skill : str) (seen : list str)
    (st : bool * option str * option match_kind * Q) : Prop :=
  let '(skill_found, best_match, best_match_type, best_confidence) := st in
  (skill_found = false /\ best_match = None /\ best_match_type = None
   /\ best_confidence = 0%Q
   /\ forall c, In c seen -> fst (fst (find_skill_match c req_skill)) = false)
  \/ (skill_found = true
      /\ exists c k,
           In c seen /\ best_match = Some c /\ best_match_type = Some k
           /\ find_skill_match c req_skill = (true, k, best_confidence)
           /\ forall c', In c' seen ->
                fst (fst (find_skill_match c' req_skill)) = true ->
                (snd (find_skill_match c' req_skill) <= best_confidence)%Q).

End Invariants.
(** * Properties *)

Unset Implicit Arguments.

Import JsonParser SkillsAnalogy SkillMatch MatchingEngine Normalizer Aggregator.

(** ** Strings *)

Section StringFacts.

Lemma chr_eqb_eq (a b : ascii) : chr_eqb a b = true <-> a = b.
Proof. apply Ascii.eqb_eq. Qed.

Lemma chr_eqb_neq (a b : ascii) : chr_eqb a b = false <-> a <> b.
Proof. apply Ascii.eqb_neq. Qed.

Lemma str_eqb_eq (a b : str) : str_eqb a b = true <-> a = b.
Proof.
  revert b; induction a as [|x a IH]; intros [|y b]; simpl;
    try (split; [discriminate | discriminate]); try tauto.
  rewrite andb_true_iff, chr_eqb_eq, IH.
  split; [intros [-> ->]; reflexivity | intros E; inversion E; auto].
Qed.

Lemma str_eqb_refl (a : str) : str_eqb a a = true.
Proof. apply str_eqb_eq; reflexivity. Qed.

Lemma count_app (c : ascii) (a b : str) :
  count c (a ++ b) = (count c a + count c b)%Z.
Proof. unfold count. rewrite count_occ_app. lia. Qed.

Lemma count_nonneg (c : ascii) (s : str) : (0 <= count c s)%Z.
Proof. unfold count. lia. Qed.

Lemma count_times_same (c : ascii) (n : Z) : count c (times c n) = Z.max 0 n.
Proof.
  unfold count, times. rewrite count_occ_repeat_eq by reflexivity. lia.
Qed.

Lemma count_times_other (c d : ascii) (n : Z) :
  c <> d -> count c (times d n) = 0%Z.
Proof.
  intros H. unfold count, times. rewrite count_occ_repeat_neq by exact H.
  reflexivity.
Qed.

Lemma times_nonpos (c : ascii) (n : Z) : (n <= 0)%Z -> times c n = [].
Proof.
  intros H. unfold times. replace (Z.to_nat n) with 0 by lia. reflexivity.
Qed.

Lemma count_zero_not_in (c : ascii) (s : str) : count c s = 0%Z <-> ~ In c s.
Proof.
  unfold count. rewrite (count_occ_not_In ascii_dec). lia.
Qed.

Lemma not_in_firstn (c : ascii) (n : nat) (s : str) :
  ~ In c s -> ~ In c (firstn n s).
Proof.
  intros H I. apply H. rewrite <- (firstn_skipn n s).
  apply in_or_app; left; exact I.
Qed.

Lemma not_in_skipn (c : ascii) (n : nat) (s : str) :
  ~ In c s -> ~ In c (skipn n s).
Proof.
  intros H I. apply H. rewrite <- (firstn_skipn n s).
  apply in_or_app; right; exact I.
Qed.

(** [find] returns [-1] exactly when the character is absent, and otherwise
    the index at which the rest of the string starts with it. *)
Lemma find_from_spec (c : ascii) (s : str) (i : Z) :
  (find_from i c s = -1 /\ ~ In c s /\ (0 <= i -> True))%Z \/
  (exists k t, find_from i c s = (i + Z.of_nat k)%Z /\ skipn k s = c :: t)
  \/ (i < 0)%Z.
Proof.
  destruct (Z_lt_ge_dec i 0) as [Hneg|Hpos]; [right; right; exact Hneg|].
  revert i Hpos; induction s as [|x s IH]; intros i Hpos; simpl.
  - left; repeat split; auto.
  - destruct (chr_eqb x c) eqn:E.
    + apply chr_eqb_eq in E; subst x.
      right; left; exists 0, s; split; [f_equal; lia | reflexivity].
    + apply chr_eqb_neq in E.
      destruct (IH (i + 1)%Z ltac:(lia)) as [[H1 [H2 _]]|[[k [t [H1 H2]]]|H]];
        [| |lia].
      * left; repeat split; auto. intros [H|H]; [congruence|auto].
      * right; left; exists (S k), t; split; [lia | exact H2].
Qed.

Lemma find_absent (c : ascii) (s : str) : find c s = (-1)%Z -> ~ In c s.
Proof.
  unfold find; intros H.
  destruct (find_from_spec c s 0) as [[_ [H2 _]]|[[k [t [H1 _]]]|H1]];
    [exact H2 | lia | lia].
Qed.

Lemma find_present (c : ascii) (s : str) :
  find c s <> (-1)%Z ->
  exists k t, find c s = Z.of_nat k /\ skipn k s = c :: t.
Proof.
  unfold find; intros H.
  destruct (find_from_spec c s 0) as [[H1 _]|[[k [t [H1 H2]]]|H1]];
    [congruence | | lia].
  exists k, t; split; [lia | exact H2].
Qed.

Lemma rfind_from_spec (c : ascii) (s : str) :
  forall i last : Z,
    (0 <= i)%Z -> (last < i)%Z ->
    (rfind_from i last c s = last /\ ~ In c s) \/
    (exists k, rfind_from i last c s = (i + Z.of_nat k)%Z
               /\ nth_error s k = Some c).
Proof.
  induction s as [|x s IH]; intros i last Hi Hl; simpl.
  - left; split; auto.
  - destruct (chr_eqb x c) eqn:E.
    + apply chr_eqb_eq in E; subst x.
      destruct (IH (i + 1)%Z i ltac:(lia) ltac:(lia)) as [[H1 H2]|[k [H1 H2]]].
      * right; exists 0; split; [lia | reflexivity].
      * right; exists (S k); split; [lia | exact H2].
    + apply chr_eqb_neq in E.
      destruct (IH (i + 1)%Z last ltac:(lia) ltac:(lia)) as [[H1 H2]|[k [H1 H2]]].
      * left; split; [exact H1 | intros [H|H]; [congruence | auto]].
      * right; exists (S k); split; [lia | exact H2].
Qed.

Lemma rfind_absent (c : ascii) (s : str) : rfind c s = (-1)%Z -> ~ In c s.
Proof.
  unfold rfind; intros H.
  destruct (rfind_from_spec c s 0%Z (-1)%Z ltac:(lia) ltac:(lia)) as [[_ H2]|[k [H1 _]]]; try lia.
  exact H2.
Qed.

Lemma rfind_present (c : ascii) (s : str) :
  rfind c s <> (-1)%Z ->
  exists k, rfind c s = Z.of_nat k /\ nth_error s k = Some c.
Proof.
  unfold rfind; intros H.
  destruct (rfind_from_spec c s 0%Z (-1)%Z ltac:(lia) ltac:(lia)) as [[H1 _]|[k [H1 H2]]]; try lia.
  exists k; split; [lia | exact H2].
Qed.

End StringFacts.

(** ** Recovery of a truncated text *)

Section Recovery.
Import JsonParser.

Lemma count_occ_lstrip (c : ascii) (s : str) :
  isspace c = false ->
  count_occ ascii_dec (lstrip s) c = count_occ ascii_dec s c.
Proof.
  intros Hc. induction s as [|x s IH]; simpl; [reflexivity|].
  destruct (isspace x) eqn:E; [|reflexivity].
  rewrite IH. destruct (ascii_dec x c) as [->|]; [congruence | reflexivity].
Qed.

Lemma count_occ_strip (c : ascii) (s : str) :
  isspace c = false ->
  count_occ ascii_dec (strip s) c = count_occ ascii_dec s c.
Proof.
  intros Hc. unfold strip, rstrip.
  rewrite count_occ_rev, count_occ_lstrip, count_occ_rev, count_occ_lstrip;
    auto.
Qed.

Lemma prefixb_firstn (p s : str) :
  prefixb p s = true -> firstn (length p) s = p.
Proof.
  revert s; induction p as [|x p IH]; intros s H; simpl; [reflexivity|].
  destruct s as [|y s]; simpl in H; [discriminate|].
  apply andb_true_iff in H as [H1 H2]. apply chr_eqb_eq in H1; subst y.
  simpl. f_equal. apply IH, H2.
Qed.

Lemma firstn_succ_skipn (n : nat) (l : str) (y : ascii) (r : str) :
  skipn n l = y :: r -> firstn (S n) l = firstn n l ++ [y].
Proof.
  revert l; induction n as [|n IH]; intros l H.
  - simpl in H; subst l; reflexivity.
  - destruct l as [|x l]; [discriminate|].
    simpl in H. simpl firstn at 2. rewrite <- app_comm_cons.
    rewrite <- (IH l H). reflexivity.
Qed.

(** Removing a fence removes characters of the fence and newlines only. *)
Lemma count_occ_sub_fence (pat : str) (c : ascii) :
  pat <> [] -> ~ In c pat -> c <> newline ->
  forall (s : str) (k : nat),
    Forall (fun x => x <> c) (firstn k s) ->
    count_occ ascii_dec (sub_fence pat k s) c = count_occ ascii_dec s c.
Proof.
  intros Hne Hpat Hnl. induction s as [|x s IH]; intros k Hk; [reflexivity|].
  destruct k as [|k].
  - cbn [sub_fence]. destruct (prefixb pat (x :: s)) eqn:Hp.
    + pose proof (prefixb_firstn _ _ Hp) as Hf.
      destruct pat as [|p0 pat']; [congruence|].
      simpl in Hf. injection Hf as Hx Hf'. subst x.
      assert (Hp0 : p0 <> c) by (intros ->; apply Hpat; left; reflexivity).
      rewrite IH.
      * simpl. destruct (ascii_dec p0 c); [congruence | reflexivity].
      * simpl length. replace (S (length pat') - 1) with (length pat') by lia.
        assert (Hbase : Forall (fun x => x <> c) (firstn (length pat') s)).
        { rewrite Hf'. apply Forall_forall. intros y Hy ->.
          apply Hpat; right; exact Hy. }
        simpl skipn. destruct (skipn (length pat') s) as [|nl r] eqn:Hs.
        -- rewrite Nat.add_0_r. exact Hbase.
        -- destruct (chr_eqb nl newline) eqn:En.
           ++ apply chr_eqb_eq in En; subst nl.
              rewrite Nat.add_1_r, (firstn_succ_skipn _ _ _ _ Hs).
              apply Forall_app; split; [exact Hbase|].
              constructor; [congruence | constructor].
           ++ rewrite Nat.add_0_r. exact Hbase.
    + simpl. rewrite (IH 0) by constructor. reflexivity.
  - cbn [sub_fence]. simpl in Hk. inversion Hk as [|? ? Hx Hrest]; subst.
    rewrite (IH k Hrest). simpl.
    destruct (ascii_dec x c); [congruence | reflexivity].
Qed.

Lemma count_occ_sub_backticks (c : ascii) (s : str) :
  c <> backtick ->
  count_occ ascii_dec (sub_backticks s) c = count_occ ascii_dec s c.
Proof.
  intros Hc. unfold sub_backticks. induction s as [|x s IH]; [reflexivity|].
  simpl. destruct (chr_eqb x backtick) eqn:E; simpl.
  - apply chr_eqb_eq in E; subst x.
    destruct (ascii_dec backtick c); [congruence | exact IH].
  - rewrite IH. reflexivity.
Qed.

(** The braces and brackets of a response survive [remove_fences]. *)
Lemma count_remove_fences (c : ascii) (s : str) :
  In c [lbrace; rbrace; lbracket; rbracket] ->
  count c (remove_fences s) = count c s.
Proof.
  intros Hc. unfold count, remove_fences. f_equal.
  assert (Hsp : isspace c = false)
    by (simpl in Hc; decompose [or] Hc; subst; try reflexivity; contradiction).
  assert (Hbt : c <> backtick)
    by (simpl in Hc; decompose [or] Hc; subst; try discriminate; contradiction).
  assert (Hnl : c <> newline)
    by (simpl in Hc; decompose [or] Hc; subst; try discriminate; contradiction).
  rewrite count_occ_sub_backticks by exact Hbt.
  rewrite (count_occ_sub_fence (py "```") c); try assumption;
    [| discriminate
     | simpl in Hc |- *; decompose [or] Hc; subst;
       try contradiction; intuition discriminate
     | constructor ].
  rewrite (count_occ_sub_fence (py "```json") c); try assumption;
    [| discriminate
     | simpl in Hc |- *; decompose [or] Hc; subst;
       try contradiction; intuition discriminate
     | constructor ].
  apply count_occ_strip, Hsp.
Qed.

Lemma contains_single (c : ascii) (s : str) :
  contains [c] s = true <-> In c s.
Proof.
  induction s as [|x s IH]; cbn [contains prefixb In].
  - split; [discriminate | intros []].
  - rewrite orb_true_iff, andb_true_r, IH, chr_eqb_eq.
    split; intros [H|H]; auto.
Qed.

(** What [auto_complete_json] returns: the text it kept, then the closing
    brackets, then the closing braces. *)
Lemma auto_complete_json_shape (p : str) :
  auto_complete_json p =
  kept_text p
  ++ times rbracket (count lbracket (kept_text p) - count rbracket (kept_text p))
  ++ times rbrace (count lbrace (kept_text p) - count rbrace (kept_text p)).
Proof.
  unfold auto_complete_json.
  match goal with
  | |- context [if (rfind comma p =? -1)%Z then p else ?e] =>
      replace (if (rfind comma p =? -1)%Z then p else e) with (kept_text p)
  end.
  - cbv zeta. set (kept := kept_text p).
    destruct (0 <? count lbracket kept - count rbracket kept)%Z eqn:E1;
      destruct (0 <? count lbrace kept - count rbrace kept)%Z eqn:E2;
      try apply Z.ltb_ge in E1; try apply Z.ltb_ge in E2;
      rewrite ?(times_nonpos rbracket _ E1), ?(times_nonpos rbrace _ E2);
      simpl; rewrite ?app_nil_r, <- ?app_assoc; reflexivity.
  - unfold kept_text, incomplete_last_field. cbv zeta.
    destruct (rfind comma p =? -1)%Z; [reflexivity|]. cbn [negb andb].
    set (after := strip (slice_from (rfind comma p) p)).
    destruct (Z.of_nat (length after) <? 100)%Z; [|reflexivity]. cbn [andb].
    destruct (negb (count quote after mod 2 =? 0)%Z) eqn:E;
      [|rewrite andb_false_r; reflexivity].
    rewrite andb_true_r.
    assert (Hc : contains [quote] after = true).
    { apply contains_single, (count_occ_In ascii_dec).
      apply negb_true_iff, Z.eqb_neq in E. unfold count in E.
      destruct (count_occ ascii_dec after quote); [|lia].
      exfalso. apply E. reflexivity. }
    rewrite Hc. reflexivity.
Qed.

(** The kept text is a prefix of the text, and not empty when the text
    starts with a brace. *)
Lemma kept_text_prefix (p : str) : exists dropped, kept_text p ++ dropped = p.
Proof.
  unfold kept_text. destruct (incomplete_last_field p).
  - exists (skipn (Z.to_nat (rfind comma p)) p). apply firstn_skipn.
  - exists []. apply app_nil_r.
Qed.

Lemma kept_text_brace (t : str) : exists k, kept_text (lbrace :: t) = lbrace :: k.
Proof.
  unfold kept_text.
  destruct (incomplete_last_field (lbrace :: t)) eqn:E;
    [|exists t; reflexivity].
  unfold incomplete_last_field in E. cbv zeta in E.
  apply andb_true_iff in E as [E _]. apply negb_true_iff, Z.eqb_neq in E.
  destruct (rfind_present _ _ E) as [j [Hj Hnth]].
  unfold slice_to. rewrite Hj, Nat2Z.id.
  destruct j as [|j].
  - simpl in Hnth. injection Hnth as E'. vm_compute in E'. discriminate E'.
  - eexists. reflexivity.
Qed.

Lemma find_of_in (c : ascii) (s : str) : In c s -> find c s <> (-1)%Z.
Proof. intros H E. exact (find_absent c s E H). Qed.

Lemma rfind_of_not_in (c : ascii) (s : str) : ~ In c s -> rfind c s = (-1)%Z.
Proof.
  intros H. destruct (Z.eq_dec (rfind c s) (-1)) as [E|E]; [exact E|].
  destruct (rfind_present c s E) as [k [_ Hk]].
  exfalso; apply H. eapply nth_error_In; exact Hk.
Qed.

Lemma in_remove_fences (c : ascii) (s : str) :
  In c [lbrace; rbrace; lbracket; rbracket] ->
  (In c (remove_fences s) <-> In c s).
Proof.
  intros Hc. pose proof (count_remove_fences c s Hc) as E.
  unfold count in E. apply Nat2Z.inj in E.
  rewrite !(count_occ_In ascii_dec), E. reflexivity.
Qed.

(** C1, counterexample: the text [{"a": [{"b": 1] is a JSON document cut
    short, with no closing brace and no open string; the recovery returns
    [{"a": [{"b": 1]}}], which has no unmatched opener by count and which
    [json.loads] rejects. *)
Lemma C1_counterexample :
  truncated_input (pyq "{'a': [{'b': 1")
  /\ extract_json_string (pyq "{'a': [{'b': 1") = Some (pyq "{'a': [{'b': 1]}}")
  /\ unmatched_openers (pyq "{'a': [{'b': 1]}}") = 0%Z
  /\ ~ json_loads_ok (pyq "{'a': [{'b': 1]}}").
Proof.
  split; [|split; [|split]].
  - split; [|split; [|split]].
    + exists (py "}]}"). split; [discriminate|]. exists 10. reflexivity.
    + vm_compute. tauto.
    + vm_compute. intuition discriminate.
    + reflexivity.
  - reflexivity.
  - reflexivity.
  - intros [fuel H].
    do 7 (destruct fuel as [|fuel]; [discriminate H|]).
    vm_compute in H. discriminate H.
Qed.

(** C1, amended: a response with an opening brace and no closing brace is
    completed, never rejected.  The result is the text kept, then one closing
    bracket for every unmatched opening bracket of the text kept, then one
    closing brace for every opening brace of it.  The text kept is the
    response, stripped and cleared of its markdown fences and back-ticks
    ([remove_fences]), from its first opening brace on, cut before its last
    comma when the part from that comma to the end, the comma included, is
    once stripped shorter than 100 characters and holds an odd number of
    quotes ([kept_text]).  The result holds as many closing as opening
    braces, no more opening than closing brackets, and so no unmatched
    opener by count. *)
Theorem C1_truncated_completion (s : str) :
  In lbrace s -> ~ In rbrace s ->
  let tail := slice_from (find lbrace (remove_fences s)) (remove_fences s) in
  let kept := kept_text tail in
  let out :=
    kept ++ times rbracket (count lbracket kept - count rbracket kept)
         ++ times rbrace (count lbrace kept) in
  extract_json_string s = Some out
  /\ count lbrace out = count rbrace out
  /\ (count lbracket out <= count rbracket out)%Z
  /\ unmatched_openers out = 0%Z.
Proof.
  intros Hin Hout.
  assert (Hin' : In lbrace (remove_fences s))
    by (apply in_remove_fences; [simpl; tauto | exact Hin]).
  assert (Hout' : ~ In rbrace (remove_fences s))
    by (rewrite in_remove_fences; [exact Hout | simpl; tauto]).
  set (t := remove_fences s) in *.
  pose proof (find_of_in _ _ Hin') as Hf.
  pose proof (rfind_of_not_in _ _ Hout') as Hr.
  destruct (find_present _ _ Hf) as [k [t' [Hk Hskip]]].
  intros tail.
  assert (Htail : tail = lbrace :: t').
  { unfold tail, slice_from. rewrite Hk, Nat2Z.id. exact Hskip. }
  intros kept.
  destruct (kept_text_prefix tail) as [dropped Hpre]. fold kept in Hpre.
  assert (Hne : exists k0, kept = lbrace :: k0)
    by (unfold kept; rewrite Htail; apply kept_text_brace).
  assert (Hnob : count rbrace kept = 0%Z).
  { apply count_zero_not_in. intros I. apply Hout'.
    assert (It : In rbrace tail)
      by (rewrite <- Hpre; apply in_or_app; left; exact I).
    unfold tail, slice_from in It.
    rewrite <- (firstn_skipn (Z.to_nat (find lbrace t)) t).
    apply in_or_app; right; exact It. }
  pose proof (auto_complete_json_shape tail) as Hshape.
  fold kept in Hshape. rewrite Hnob, Z.sub_0_r in Hshape.
  intros out. fold out in Hshape.
  assert (Hex : extract_json_string s = Some out).
  { unfold extract_json_string. destruct s as [|c s']; [contradiction|].
    fold t. cbv zeta.
    destruct (find lbrace t =? -1)%Z eqn:E1; [apply Z.eqb_eq in E1; congruence|].
    rewrite Hr. simpl Z.eqb. cbv iota. fold tail. rewrite Hshape.
    destruct Hne as [k0 Hk0]. unfold out. rewrite Hk0. reflexivity. }
  pose proof (count_nonneg lbrace kept) as Hb.
  pose proof (count_nonneg lbracket kept) as Hk1.
  pose proof (count_nonneg rbracket kept) as Hk2.
  assert (C1 : count lbrace out = count lbrace kept).
  { unfold out. rewrite !count_app,
      (count_times_other lbrace rbracket), (count_times_other lbrace rbrace)
      by discriminate. lia. }
  assert (C2 : count rbrace out = count lbrace kept).
  { unfold out. rewrite !count_app, Hnob,
      (count_times_other rbrace rbracket), count_times_same by discriminate.
    lia. }
  assert (C3 : count lbracket out = count lbracket kept).
  { unfold out. rewrite !count_app,
      (count_times_other lbracket rbracket),
      (count_times_other lbracket rbrace) by discriminate. lia. }
  assert (C4 : count rbracket out
               = (count rbracket kept
                  + Z.max 0 (count lbracket kept - count rbracket kept))%Z).
  { unfold out. rewrite !count_app, count_times_same,
      (count_times_other rbracket rbrace) by discriminate. lia. }
  split; [exact Hex|]. split; [congruence|]. split; [lia|].
  unfold unmatched_openers. lia.
Qed.

Lemma C1_truncated_completion_witness :
  extract_json_string (pyq "{'a': [1, 2, 'b") = Some (pyq "{'a': [1, 2]}")
  /\ count lbrace (pyq "{'a': [1, 2]}") = count rbrace (pyq "{'a': [1, 2]}")
  /\ (count lbracket (pyq "{'a': [1, 2]}")
      <= count rbracket (pyq "{'a': [1, 2]}"))%Z
  /\ unmatched_openers (pyq "{'a': [1, 2]}") = 0%Z.
Proof.
  apply (C1_truncated_completion (pyq "{'a': [1, 2, 'b")).
  - vm_compute. tauto.
  - vm_compute. intuition discriminate.
Defined.

(** The tail completion writes the brackets before the braces. *)
Lemma auto_complete_json_brackets_first (p : str) :
  exists kept nbrackets nbraces,
    auto_complete_json p =
    kept ++ repeat rbracket nbrackets ++ repeat rbrace nbraces.
Proof.
  exists (kept_text p). eexists. eexists.
  exact (auto_complete_json_shape p).
Qed.

(** The aggressive recovery writes the braces before the brackets. *)
Lemma aggressive_json_recovery_shape (s : str) :
  exists kept,
    aggressive_json_recovery s =
    kept ++ times rbrace (count lbrace kept - count rbrace kept)
         ++ times rbracket (count lbracket kept - count rbracket kept).
Proof.
  unfold aggressive_json_recovery. cbv zeta.
  destruct (balance_scan _ _ _) as [[db dk] pos].
  match goal with
  | |- context [slice_to ?n ?x] => set (kept := slice_to n x)
  end.
  exists kept.
  destruct (0 <? count lbrace kept - count rbrace kept)%Z eqn:E1;
    destruct (0 <? count lbracket kept - count rbracket kept)%Z eqn:E2;
    simpl orb; cbv iota; try reflexivity.
  apply Z.ltb_ge in E1, E2.
  rewrite (times_nonpos rbrace _ E1), (times_nonpos rbracket _ E2).
  simpl. rewrite app_nil_r. reflexivity.
Qed.

(** *** What the scanners leave is a suffix of what they read *)

Lemma suffix_refl (s : str) : suffix s s.
Proof. exists []. reflexivity. Qed.

Lemma suffix_cons (c : ascii) (r s : str) : suffix r s -> suffix r (c :: s).
Proof. intros [pre ->]. exists (c :: pre). reflexivity. Qed.

Lemma suffix_trans (a b c : str) : suffix a b -> suffix b c -> suffix a c.
Proof.
  intros [p ->] [q ->]. exists (q ++ p). rewrite app_assoc. reflexivity.
Qed.

Lemma suffix_skipn (n : nat) (s : str) : suffix (skipn n s) s.
Proof. exists (firstn n s). symmetry. apply firstn_skipn. Qed.

Lemma skip_ws_suffix (s : str) : suffix (skip_ws s) s.
Proof.
  induction s as [|c s IH]; cbn [skip_ws]; [apply suffix_refl|].
  destruct (json_ws c); [apply suffix_cons, IH | apply suffix_refl].
Qed.

Lemma skip_digits_suffix (s : str) : suffix (skip_digits s) s.
Proof.
  induction s as [|c s IH]; cbn [skip_digits]; [apply suffix_refl|].
  destruct (is_digit c); [apply suffix_cons, IH | apply suffix_refl].
Qed.

Lemma scan_string_suffix (n : nat) :
  forall s r : str, length s <= n -> scan_string s = Some r -> suffix r s.
Proof.
  induction n as [|n IH]; intros s r Hn H.
  - destruct s; [discriminate H | cbn [length] in Hn; lia].
  - destruct s as [|c t]; [discriminate H|]. cbn [scan_string] in H.
    cbn [length] in Hn.
    destruct (chr_eqb c quote).
    { injection H as <-. apply suffix_cons, suffix_refl. }
    destruct (chr_eqb c backslash).
    { destruct t as [|e t']; [discriminate H|]. cbn [length] in Hn.
      destruct (chr_eqb e "u"%char).
      - destruct t' as [|h1 [|h2 [|h3 [|h4 t'']]]]; try discriminate H.
        destruct (is_hex h1 && is_hex h2 && is_hex h3 && is_hex h4);
          [|discriminate H].
        cbn [length] in Hn.
        do 6 apply suffix_cons. apply (IH t'' r); [lia | exact H].
      - destruct (existsb _ _); [|discriminate H].
        do 2 apply suffix_cons. apply (IH t' r); [lia | exact H]. }
    destruct (ord c <? 32)%N; [discriminate H|].
    apply suffix_cons, (IH t r); [lia | exact H].
Qed.

Lemma scan_number_suffix (s r : str) : scan_number s = Some r -> suffix r s.
Proof.
  unfold scan_number.
  set (body := match s with
               | c :: t => if chr_eqb c "-"%char then t else s
               | [] => s
               end).
  assert (Hb : suffix body s).
  { unfold body. destruct s as [|c t]; [apply suffix_refl|].
    destruct (chr_eqb c "-"%char);
      [apply suffix_cons, suffix_refl | apply suffix_refl]. }
  destruct body as [|c t]; [discriminate|].
  assert (Hint : forall r0,
             (if chr_eqb c "0"%char then Some t
              else if is_digit c then Some (skip_digits t) else None) = Some r0 ->
             suffix r0 s).
  { intros r0 H0. apply suffix_trans with (c :: t); [|exact Hb].
    apply suffix_cons.
    destruct (chr_eqb c "0"%char);
      [injection H0 as <-; apply suffix_refl|].
    destruct (is_digit c); [|discriminate H0].
    injection H0 as <-. apply skip_digits_suffix. }
  destruct (if chr_eqb c "0"%char then Some t
            else if is_digit c then Some (skip_digits t) else None)
    as [r0|]; [|discriminate].
  specialize (Hint r0 eq_refl).
  set (r1 := match r0 with
             | p :: d :: t0 =>
                 if chr_eqb p "."%char && is_digit d then skip_digits t0 else r0
             | _ => r0
             end).
  assert (H1 : suffix r1 s).
  { apply suffix_trans with r0; [|exact Hint]. unfold r1.
    destruct r0 as [|p [|d t0]]; try apply suffix_refl.
    destruct (chr_eqb p "."%char && is_digit d); [|apply suffix_refl].
    do 2 apply suffix_cons. apply skip_digits_suffix. }
  intros E; injection E as <-.
  apply suffix_trans with r1; [|exact H1].
  destruct r1 as [|e t1]; [apply suffix_refl|].
  destruct (chr_eqb e "e"%char || chr_eqb e "E"%char); [|apply suffix_refl].
  set (t' := match t1 with
             | sg :: u =>
                 if chr_eqb sg "+"%char || chr_eqb sg "-"%char then u else t1
             | [] => t1
             end).
  assert (Ht : suffix t' t1).
  { unfold t'. destruct t1 as [|sg u]; [apply suffix_refl|].
    destruct (chr_eqb sg "+"%char || chr_eqb sg "-"%char);
      [apply suffix_cons, suffix_refl | apply suffix_refl]. }
  destruct t' as [|d u]; [apply suffix_refl|].
  destruct (is_digit d); [|apply suffix_refl].
  apply suffix_cons. apply suffix_trans with (d :: u); [|exact Ht].
  apply suffix_cons, skip_digits_suffix.
Qed.

Lemma scan_literal_suffix (lit s r : str) :
  scan_literal lit s = Some r -> suffix r s.
Proof.
  unfold scan_literal. destruct (prefixb lit s); [|discriminate].
  intros E; injection E as <-. apply suffix_skipn.
Qed.

Lemma skip_ws_cons_suffix (s : str) (c : ascii) (t : str) :
  skip_ws s = c :: t -> suffix t s.
Proof.
  intros E. apply suffix_trans with (c :: t);
    [apply suffix_cons, suffix_refl | rewrite <- E; apply skip_ws_suffix].
Qed.

Lemma scan_suffix (fuel : nat) :
  (forall s r, scan_value fuel s = Some r -> suffix r s)
  /\ (forall s r, scan_members fuel s = Some r -> suffix r s)
  /\ (forall s r, scan_elements fuel s = Some r -> suffix r s).
Proof.
  induction fuel as [|fuel [IHv [IHm IHe]]];
    [repeat split; intros s r H; discriminate H|].
  split; [|split]; intros s r H.
  - cbn [scan_value] in H. destruct s as [|c t]; [discriminate H|].
    destruct (chr_eqb c quote).
    { apply suffix_cons, (scan_string_suffix (length t)); [lia | exact H]. }
    destruct (chr_eqb c lbrace).
    { destruct (skip_ws t) as [|c' t'] eqn:E; [discriminate H|].
      destruct (chr_eqb c' rbrace).
      - injection H as <-. apply suffix_cons, (skip_ws_cons_suffix _ _ _ E).
      - apply suffix_cons. apply suffix_trans with (c' :: t');
          [apply IHm, H | rewrite <- E; apply skip_ws_suffix]. }
    destruct (chr_eqb c lbracket).
    { destruct (skip_ws t) as [|c' t'] eqn:E; [discriminate H|].
      destruct (chr_eqb c' rbracket).
      - injection H as <-. apply suffix_cons, (skip_ws_cons_suffix _ _ _ E).
      - apply suffix_cons. apply suffix_trans with (c' :: t');
          [apply IHe, H | rewrite <- E; apply skip_ws_suffix]. }
    repeat match type of H with
           | (if ?b then _ else _) = Some _ => destruct b
           end;
      try discriminate H;
      try (eapply scan_literal_suffix; exact H);
      try (apply scan_number_suffix; exact H).
    injection H as <-. exact (suffix_skipn 9 (c :: t)).
  - cbn [scan_members] in H. destruct s as [|c t]; [discriminate H|].
    destruct (chr_eqb c quote); [|discriminate H].
    destruct (scan_string t) as [r1|] eqn:E1; [|discriminate H].
    destruct (skip_ws r1) as [|colon r'] eqn:E2; [discriminate H|].
    destruct (chr_eqb colon ":"%char); [|discriminate H].
    destruct (scan_value fuel (skip_ws r')) as [r''|] eqn:E3; [|discriminate H].
    destruct (skip_ws r'') as [|d u] eqn:E4; [discriminate H|].
    assert (Hu : suffix u (c :: t)).
    { apply suffix_cons.
      apply suffix_trans with r1;
        [|apply (scan_string_suffix (length t)); [lia | exact E1]].
      apply suffix_trans with r'; [|exact (skip_ws_cons_suffix _ _ _ E2)].
      apply suffix_trans with (skip_ws r'); [|apply skip_ws_suffix].
      apply suffix_trans with r''; [|exact (IHv _ _ E3)].
      exact (skip_ws_cons_suffix _ _ _ E4). }
    destruct (chr_eqb d rbrace); [injection H as <-; exact Hu|].
    destruct (chr_eqb d comma); [|discriminate H].
    apply suffix_trans with u; [|exact Hu].
    apply suffix_trans with (skip_ws u); [exact (IHm _ _ H) | apply skip_ws_suffix].
  - cbn [scan_elements] in H.
    destruct (scan_value fuel s) as [r1|] eqn:E1; [|discriminate H].
    destruct (skip_ws r1) as [|d u] eqn:E2; [discriminate H|].
    assert (Hu : suffix u s).
    { apply suffix_trans with r1; [|exact (IHv _ _ E1)].
      exact (skip_ws_cons_suffix _ _ _ E2). }
    destruct (chr_eqb d rbracket); [injection H as <-; exact Hu|].
    destruct (chr_eqb d comma); [|discriminate H].
    apply suffix_trans with u; [|exact Hu].
    apply suffix_trans with (skip_ws u); [exact (IHe _ _ H) | apply skip_ws_suffix].
Qed.

(** *** A document that starts with a brace ends with a brace *)

Lemma closed_by_suffix (c : ascii) (r x s : str) :
  closed_by c r x -> suffix x s -> closed_by c r s.
Proof.
  intros [p ->] [q ->]. exists (q ++ p). rewrite app_assoc. reflexivity.
Qed.

Lemma skip_ws_closed (s : str) (d : ascii) (u : str) :
  skip_ws s = d :: u -> closed_by d u s.
Proof.
  intros E. destruct (skip_ws_suffix s) as [pre H]. rewrite E in H.
  exists pre. exact H.
Qed.

Lemma scan_members_closed (fuel : nat) :
  forall s r, scan_members fuel s = Some r -> closed_by rbrace r s.
Proof.
  induction fuel as [|fuel IH]; intros s r H; [discriminate H|].
  cbn [scan_members] in H. destruct s as [|c t]; [discriminate H|].
  destruct (chr_eqb c quote); [|discriminate H].
  destruct (scan_string t) as [r1|] eqn:E1; [|discriminate H].
  destruct (skip_ws r1) as [|colon r'] eqn:E2; [discriminate H|].
  destruct (chr_eqb colon ":"%char); [|discriminate H].
  destruct (scan_value fuel (skip_ws r')) as [r''|] eqn:E3; [|discriminate H].
  destruct (skip_ws r'') as [|d u] eqn:E4; [discriminate H|].
  assert (Hr : suffix r'' (c :: t)).
  { apply suffix_cons.
    apply suffix_trans with r1;
      [|apply (scan_string_suffix (length t)); [lia | exact E1]].
    apply suffix_trans with r'; [|exact (skip_ws_cons_suffix _ _ _ E2)].
    apply suffix_trans with (skip_ws r'); [|apply skip_ws_suffix].
    exact (proj1 (scan_suffix fuel) _ _ E3). }
  destruct (chr_eqb d rbrace) eqn:Ed.
  - injection H as <-. apply chr_eqb_eq in Ed; subst d.
    exact (closed_by_suffix _ _ _ _ (skip_ws_closed _ _ _ E4) Hr).
  - destruct (chr_eqb d comma); [|discriminate H].
    apply (closed_by_suffix _ _ (skip_ws u)); [exact (IH _ _ H)|].
    apply suffix_trans with u; [apply skip_ws_suffix|].
    apply suffix_trans with r''; [exact (skip_ws_cons_suffix _ _ _ E4) | exact Hr].
Qed.

Lemma scan_object_closed (fuel : nat) (t r : str) :
  scan_value fuel (lbrace :: t) = Some r -> closed_by rbrace r (lbrace :: t).
Proof.
  destruct fuel as [|fuel]; [discriminate|]. cbn [scan_value].
  change (chr_eqb lbrace quote) with false.
  change (chr_eqb lbrace lbrace) with true. cbv iota.
  destruct (skip_ws t) as [|c' t'] eqn:E; [discriminate|].
  destruct (chr_eqb c' rbrace) eqn:Ec.
  - intros H; injection H as <-. apply chr_eqb_eq in Ec; subst c'.
    apply (closed_by_suffix _ _ t); [exact (skip_ws_closed _ _ _ E)|].
    apply suffix_cons, suffix_refl.
  - intros H. apply (closed_by_suffix _ _ (c' :: t'));
      [exact (scan_members_closed _ _ _ H)|].
    apply suffix_cons. rewrite <- E. apply skip_ws_suffix.
Qed.

Lemma skip_ws_nil (s : str) :
  skip_ws s = [] -> Forall (fun c => json_ws c = true) s.
Proof.
  induction s as [|c s IH]; cbn [skip_ws]; [constructor|].
  destruct (json_ws c) eqn:E; [|discriminate].
  intros H. constructor; [exact E | exact (IH H)].
Qed.

(** What [json.loads] accepts, when it starts with an opening brace, ends
    with a closing brace and blanks. *)
Lemma object_document_ends_with_brace (t : str) :
  json_loads_ok (lbrace :: t) ->
  exists pre blanks,
    lbrace :: t = pre ++ rbrace :: blanks
    /\ Forall (fun c => json_ws c = true) blanks.
Proof.
  intros [fuel H]. unfold scan_document in H.
  change (skip_ws (lbrace :: t)) with (lbrace :: t) in H.
  destruct (scan_value fuel (lbrace :: t)) as [r|] eqn:E; [|discriminate H].
  destruct (skip_ws r) eqn:Er; [|discriminate H].
  destruct (scan_object_closed _ _ _ E) as [pre Hp].
  exists pre, r. split; [exact Hp | exact (skip_ws_nil _ Er)].
Qed.

Lemma balance_scan_pos (s : str) :
  forall (i : Z) (st : Z * Z * Z),
    (0 <= i)%Z -> (0 <= snd st)%Z -> (0 <= snd (balance_scan i st s))%Z.
Proof.
  induction s as [|c s IH]; intros i [[db dk] pos] Hi Hp; [exact Hp|].
  cbn [balance_scan].
  destruct (if chr_eqb c lbrace then _ else _) as [db' dk'].
  apply IH; [lia|]. cbn [snd] in *.
  destruct ((0 <=? db')%Z && (0 <=? dk')%Z); lia.
Qed.

(** When the aggressive recovery has both a brace and a bracket to close,
    [json.loads] rejects what it returns: the text starts with an opening
    brace and ends with a closing bracket. *)
Lemma aggressive_recovery_mixed_never_parses (s : str) :
  In lbrace s ->
  forall kept,
    aggressive_json_recovery s =
    kept ++ times rbrace (count lbrace kept - count rbrace kept)
         ++ times rbracket (count lbracket kept - count rbracket kept) ->
    (0 < count lbrace kept - count rbrace kept)%Z ->
    (0 < count lbracket kept - count rbracket kept)%Z ->
    ~ json_loads_ok (aggressive_json_recovery s).
Proof.
  intros Hin kept Hk Ha Hb Hok.
  (* the result starts with an opening brace *)
  assert (Hstart : exists t, aggressive_json_recovery s = lbrace :: t).
  { unfold aggressive_json_recovery. cbv zeta.
    destruct (find_present _ _ (find_of_in _ _ Hin)) as [k [t [Hf Hs]]].
    set (s' := if (0 <? find lbrace s)%Z
               then slice_from (find lbrace s) s else s).
    assert (Hs' : s' = lbrace :: t).
    { unfold s'. destruct (0 <? find lbrace s)%Z eqn:E.
      - unfold slice_from. rewrite Hf, Nat2Z.id. exact Hs.
      - apply Z.ltb_ge in E. assert (k = 0) by lia. subst k. exact Hs. }
    pose proof (balance_scan_pos s' 0 (0, 0, 0)%Z ltac:(lia) ltac:(simpl; lia))
      as Hpos.
    destruct (balance_scan 0 (0, 0, 0)%Z s') as [[db dk] pos].
    cbn [snd] in Hpos. unfold slice_to.
    replace (Z.to_nat (pos + 1)) with (S (Z.to_nat pos)) by lia.
    rewrite Hs'. cbn [firstn].
    destruct (_ || _); eexists; reflexivity. }
  destruct Hstart as [t Ht]. rewrite Ht in Hok.
  destruct (object_document_ends_with_brace t Hok) as [pre [blanks [E Hws]]].
  rewrite <- Ht, Hk in E.
  (* and ends with a closing bracket *)
  unfold times in E.
  destruct (Z.to_nat (count lbracket kept - count rbracket kept)) as [|n] eqn:En;
    [lia|].
  replace (S n) with (n + 1) in E by lia.
  rewrite repeat_app in E. cbn [repeat] in E.
  rewrite !app_assoc in E.
  destruct (rev blanks) as [|w rb] eqn:Eb.
  - assert (blanks = []) by (rewrite <- (rev_involutive blanks), Eb; reflexivity).
    subst blanks.
    apply app_inj_tail in E as [_ E]. discriminate E.
  - assert (Hbl : blanks = rev rb ++ [w])
      by (rewrite <- (rev_involutive blanks), Eb; reflexivity).
    rewrite Hbl in E, Hws.
    rewrite app_comm_cons, app_assoc in E.
    apply app_inj_tail in E as [_ E]. subst w.
    apply Forall_app in Hws as [_ Hw]. inversion Hw as [|? ? Hx _]; subst.
    discriminate Hx.
Qed.


(** Texts that the tail completion repairs: the closers it appends are the
    right ones when every open bracket lies inside the open braces. *)
Lemma auto_complete_json_repairs :
  json_loads_ok (auto_complete_json (pyq "{'a': [1, 2"))
  /\ json_loads_ok (auto_complete_json (pyq "{'a': {'b': [[1, 'x'], [2"))
  /\ json_loads_ok (auto_complete_json (pyq "{'a': 1, 'b"))
  /\ auto_complete_json (pyq "{'a': 1, 'b") = pyq "{'a': 1}".
Proof.
  split; [exists 20; reflexivity|]. split; [exists 20; reflexivity|].
  split; [exists 20; reflexivity | reflexivity].
Qed.

(** C2: on [{"a": [{"b": 1}], which reaches the third tier when the response
    [{"a": [{"b": 1}, {"c": 2] is cut after its last closing brace, the
    aggressive recovery appends the brace before the bracket; [json.loads]
    rejects the result and accepts the text closed in the order of
    [auto_complete_json]. *)
Theorem C2_aggressive_recovery_closes_braces_first :
  extract_json_string (pyq "{'a': [{'b': 1}, {'c': 2")
  = Some (pyq "{'a': [{'b': 1}")
  /\ aggressive_json_recovery (pyq "{'a': [{'b': 1}")
     = pyq "{'a': [{'b': 1}" ++ [rbrace] ++ [rbracket]
  /\ ~ json_loads_ok (aggressive_json_recovery (pyq "{'a': [{'b': 1}"))
  /\ json_loads_ok (pyq "{'a': [{'b': 1}" ++ [rbracket] ++ [rbrace])
  /\ auto_complete_json (pyq "{'a': [{'b': 1")
     = pyq "{'a': [{'b': 1" ++ [rbracket] ++ [rbrace; rbrace].
Proof.
  split; [reflexivity|]. split; [reflexivity|]. split; [|split].
  - intros [fuel H].
    do 7 (destruct fuel as [|fuel]; [discriminate H|]).
    vm_compute in H. discriminate H.
  - exists 10. reflexivity.
  - reflexivity.
Qed.

End Recovery.

(** ** The skill resolver *)

Section Resolver.
Import SkillsAnalogy SkillMatch.

Lemma split_ws_join_empty (sep : str) (s : str) :
  forall cur : str,
    join sep (split_ws cur s) = [] ->
    cur = [] /\ Forall (fun c => isspace c = true) s.
Proof.
  induction s as [|c s IH]; intros cur H; simpl in H.
  - destruct cur as [|x cur]; [split; [reflexivity | constructor]|].
    simpl in H. destruct (rev cur); discriminate H.
  - destruct (isspace c) eqn:E.
    + destruct cur as [|x cur].
      * destruct (IH [] H) as [_ HF]. split; [reflexivity|].
        constructor; assumption.
      * exfalso. simpl in H.
        destruct (split_ws [] s); simpl in H;
          destruct (rev cur); discriminate H.
    + destruct (IH (c :: cur) H) as [Hc _]. discriminate Hc.
Qed.

Lemma split_ws_spaces (s : str) :
  Forall (fun c => isspace c = true) s -> split_ws [] s = [].
Proof.
  induction 1 as [|c s Hc _ IH]; simpl; [reflexivity|].
  rewrite Hc. exact IH.
Qed.

Lemma lstrip_all_spaces (s : str) :
  lstrip s = [] <-> Forall (fun c => isspace c = true) s.
Proof.
  induction s as [|c s IH]; simpl.
  - split; [constructor | reflexivity].
  - destruct (isspace c) eqn:E.
    + rewrite IH. split; [constructor; assumption | inversion 1; assumption].
    + split; [discriminate | inversion 1; congruence].
Qed.

Lemma lstrip_suffix (s : str) : exists p, s = p ++ lstrip s
  /\ Forall (fun c => isspace c = true) p.
Proof.
  induction s as [|c s [p [IH1 IH2]]]; simpl.
  - exists []. split; [reflexivity | constructor].
  - destruct (isspace c) eqn:E.
    + exists (c :: p). split; [simpl; f_equal; exact IH1|].
      constructor; assumption.
    + exists []. split; [reflexivity | constructor].
Qed.

(** [strip] drops white space only: it keeps every other character. *)
Lemma strip_keeps (s : str) (c : ascii) :
  isspace c = false -> (In c (strip s) <-> In c s).
Proof.
  intros Hc. rewrite !(count_occ_In ascii_dec), count_occ_strip by exact Hc.
  reflexivity.
Qed.

Lemma alnum_not_space (c : ascii) : is_lower_alnum c = true -> isspace c = false.
Proof.
  destruct c as [[] [] [] [] [] [] [] []]; vm_compute; congruence.
Qed.

(** A skill normalises to the empty string exactly when none of its
    characters is a letter or a digit of ASCII, once lowered: the empty
    skill, and the skills made of white space and punctuation. *)
Lemma normalize_skill_empty_iff (skill : str) :
  normalize_skill skill = [] <->
  Forall (fun c => alnum_after_lower c = false) skill.
Proof.
  unfold normalize_skill. destruct skill as [|c0 skill0]; [split; auto|].
  set (skill := c0 :: skill0).
  set (kept := filter (fun c => is_lower_alnum c || isspace c)
                 (strip (lower skill))).
  split.
  - intros H. apply split_ws_join_empty in H as [_ HF].
    apply Forall_forall. intros c Hc.
    destruct (alnum_after_lower c) eqn:E; [exfalso | reflexivity].
    unfold alnum_after_lower in E.
    assert (I : In (lower_chr c) kept).
    { unfold kept. apply filter_In. split; [|rewrite E; reflexivity].
      apply strip_keeps; [apply alnum_not_space, E|].
      unfold lower. apply in_map, Hc. }
    rewrite Forall_forall in HF. specialize (HF _ I).
    rewrite (alnum_not_space _ E) in HF. discriminate HF.
  - intros H. unfold split. rewrite split_ws_spaces; [reflexivity|].
    apply Forall_forall. intros c Hc. unfold kept in Hc.
    apply filter_In in Hc as [Hc Hk].
    destruct (isspace c) eqn:E; [reflexivity | exfalso].
    rewrite orb_false_r in Hk.
    apply (proj1 (strip_keeps _ _ E)) in Hc.
    unfold lower in Hc. apply in_map_iff in Hc as [x [Hx Ix]]. subst c.
    rewrite Forall_forall in H. specialize (H _ Ix).
    unfold alnum_after_lower in H. congruence.
Qed.

(** C10: when one of the two skills normalises to the empty string, the
    resolver answers no match, of kind [invalid], with confidence 0. *)
Theorem C10_empty_normal_form_is_invalid (candidate_skill required_skill : str) :
  normalize_skill candidate_skill = [] \/ normalize_skill required_skill = [] ->
  find_skill_match candidate_skill required_skill = (false, invalid, 0%Q).
Proof.
  intros H. unfold find_skill_match, find_skill_match_with. cbv zeta.
  destruct H as [-> | ->]; [reflexivity|].
  destruct (normalize_skill candidate_skill); reflexivity.
Qed.

Lemma C10_empty_normal_form_is_invalid_witness :
  (normalize_skill (py "++") = [] \/ normalize_skill (py "++") = [])
  /\ find_skill_match (py "++") (py "++") = (false, invalid, 0%Q).
Proof.
  split; [left; reflexivity|].
  apply (C10_empty_normal_form_is_invalid (py "++") (py "++")).
  left; reflexivity.
Defined.

(** Reading the list literal of [get_skill_group] raises [NameError]: the
    seventh name is bound nowhere. *)
Lemma get_skill_group_raises (skill_name : str) :
  skill_name <> [] ->
  get_skill_group skill_name = Raise (NameError "TESTING").
Proof.
  intros H. destruct skill_name as [|c s]; [congruence | reflexivity].
Qed.

(** So the resolver never answers [analogy]. *)
Lemma find_skill_match_never_analogy (candidate_skill required_skill : str) :
  snd (fst (find_skill_match candidate_skill required_skill)) <> analogy.
Proof.
  unfold find_skill_match, find_skill_match_with. cbv zeta.
  destruct (normalize_skill candidate_skill) as [|x cn] eqn:Ec;
    [simpl; discriminate|].
  destruct (normalize_skill required_skill) as [|y rn] eqn:Er;
    [simpl; discriminate|].
  assert (Hc : candidate_skill <> [])
    by (intros ->; discriminate Ec).
  rewrite (get_skill_group_raises _ Hc). cbn [bind].
  repeat match goal with
         | |- context [if ?b then _ else _] => destruct b
         end; simpl; discriminate.
Qed.

(** The strategies the resolver does apply, in their order. *)
Lemma find_skill_match_strategies (candidate_skill required_skill : str) :
  let cand_norm := normalize_skill candidate_skill in
  let req_norm := normalize_skill required_skill in
  cand_norm <> [] -> req_norm <> [] ->
  find_skill_match candidate_skill required_skill =
  if str_eqb cand_norm req_norm then (true, exact, 1%Q)
  else if Qle_bool (7 # 10) (Difflib.ratio cand_norm req_norm)
  then (true, fuzzy, Difflib.ratio cand_norm req_norm)
  else if (3 <? length req_norm) && (3 <? length cand_norm)
          && (contains cand_norm req_norm || contains req_norm cand_norm)
  then (true, substring, (88 # 100)%Q)
  else (false, no_match, 0%Q).
Proof.
  intros cand_norm req_norm Hc Hr.
  unfold find_skill_match, find_skill_match_with. cbv zeta.
  fold cand_norm req_norm.
  destruct cand_norm as [|x cn] eqn:Ec; [congruence|].
  destruct req_norm as [|y rn] eqn:Er; [congruence|].
  assert (Hcs : candidate_skill <> [])
    by (intros E; subst candidate_skill; discriminate Ec).
  rewrite (get_skill_group_raises _ Hcs). cbn [bind]. reflexivity.
Qed.

(** C8: [find_skill_match("ReactJS", "React")] is a match of kind [fuzzy]
    with confidence 10/12, not of kind [analogy] with confidence 0.95:
    [get_skill_group] raises [NameError] on either skill, and the resolver
    passes over the exception.  Read over the categories that the module
    does bind, both skills are in the group [react].
    [find_skill_match("Python", "Java")] is no match. *)
Theorem C8_reactjs_react_is_fuzzy :
  find_skill_match (py "ReactJS") (py "React") = (true, fuzzy, (10 # 12)%Q)
  /\ get_skill_group (py "ReactJS") = Raise (NameError "TESTING")
  /\ get_skill_group (py "React") = Raise (NameError "TESTING")
  /\ get_skill_group_in module_globals bound_names (py "ReactJS")
     = Ok (Some (py "react"))
  /\ get_skill_group_in module_globals bound_names (py "React")
     = Ok (Some (py "react"))
  /\ find_skill_match (py "Python") (py "Java") = (false, no_match, 0%Q).
Proof.
  repeat split; vm_compute; reflexivity.
Qed.

End Resolver.

(** ** Floats *)

Section FloatFacts.

Lemma feq_finite (a b : Q) : feq (Finite a) (Finite b) = true <-> (a == b)%Q.
Proof.
  unfold feq, fcmp. rewrite Qeq_alt.
  destruct (a ?= b)%Q; split; congruence.
Qed.

Lemma fge_finite (a b : Q) : fge (Finite a) (Finite b) = true <-> (b <= a)%Q.
Proof.
  unfold fge, fcmp. split.
  - intros H. destruct (a ?= b)%Q eqn:E; try discriminate H.
    + apply Qeq_alt in E. rewrite E. apply Qle_refl.
    + apply Qgt_alt in E. apply Qlt_le_weak, E.
  - intros H. destruct (a ?= b)%Q eqn:E; try reflexivity.
    apply Qlt_alt in E. exfalso. exact (Qlt_not_le _ _ E H).
Qed.

Lemma fgt_finite (a b : Q) : fgt (Finite a) (Finite b) = true <-> (b < a)%Q.
Proof.
  unfold fgt, fcmp. rewrite Qgt_alt.
  destruct (a ?= b)%Q; split; congruence.
Qed.

Lemma is_zero_iff (q : Q) : is_zero q = true <-> (q == 0)%Q.
Proof. apply Qeq_bool_iff. Qed.

(** On a rational that is not negative, [int] is the floor. *)
Lemma Qtrunc_floor (q : Q) : (0 <= q)%Q -> Qtrunc q = Qfloor q.
Proof.
  destruct q as [n d]. unfold Qle, Qtrunc, Qfloor. simpl. intros H.
  apply Z.quot_div_nonneg; lia.
Qed.

Lemma Qdiv_nonneg (a b : Q) : (0 <= a)%Q -> (0 < b)%Q -> (0 <= a / b)%Q.
Proof.
  intros Ha Hb. apply Qle_shift_div_l; [exact Hb|].
  rewrite Qmult_0_l. exact Ha.
Qed.

(** *** Rounding to binary64 *)

Lemma pow2_pos (e : Z) : (0 < pow2 e)%Q.
Proof.
  unfold pow2. destruct (Z.leb_spec 0 e).
  - change 0%Q with (inject_Z 0). rewrite <- Zlt_Qlt. apply Z.pow_pos_nonneg; lia.
  - apply Qinv_lt_0_compat. change 0%Q with (inject_Z 0). rewrite <- Zlt_Qlt.
    apply Z.pow_pos_nonneg; lia.
Qed.

(** Below 1 the spacing of the doubles divides 1. *)
Lemma pow2_nonpos (u : Z) :
  (u <= 0)%Z -> (pow2 u * inject_Z (2 ^ (- u)) == 1)%Q.
Proof.
  intros Hu. unfold pow2. destruct (Z.leb_spec 0 u).
  - assert (u = 0%Z) by lia. subst u. reflexivity.
  - rewrite Qmult_comm. apply Qmult_inv_r.
    intros E. assert (H0 : (0 < 2 ^ (- u))%Z) by (apply Z.pow_pos_nonneg; lia).
    rewrite Zlt_Qlt in H0. rewrite E in H0. discriminate H0.
Qed.

Lemma round_half_even_bounds (q : Q) (n : Z) :
  (0 <= q)%Q -> (q <= inject_Z n)%Q ->
  (0 <= round_half_even q <= n)%Z.
Proof.
  intros H0 Hn. unfold round_half_even.
  assert (F0 : (0 <= Qfloor q)%Z).
  { change 0%Z with (Qfloor 0). apply Qfloor_resp_le. exact H0. }
  assert (Fn : (Qfloor q <= n)%Z).
  { rewrite <- (Qfloor_Z n). apply Qfloor_resp_le. exact Hn. }
  destruct (Z.eq_dec (Qfloor q) n) as [E|E].
  - assert (Hq : (q == inject_Z n)%Q).
    { apply Qle_antisym; [exact Hn|]. rewrite <- E. apply Qfloor_le. }
    assert (Hc : (q - inject_Z (Qfloor q) ?= 1 # 2)%Q = Lt).
    { rewrite E. apply Qlt_alt. rewrite Hq.
      setoid_replace (inject_Z n - inject_Z n)%Q with 0%Q by ring. reflexivity. }
    rewrite Hc. lia.
  - destruct (q - inject_Z (Qfloor q) ?= 1 # 2)%Q; [destruct (Z.even _)| |]; lia.
Qed.

Lemma binade_small (q : Q) (k : Z) :
  (0 < k < 2 ^ 53)%Z -> (q <= inject_Z k)%Q -> (binade q <= 52)%Z.
Proof.
  intros Hk Hq. unfold binade. destruct (Qle_bool 1 q) eqn:E.
  - apply Qle_bool_iff in E.
    assert (F1 : (1 <= Qfloor q)%Z)
      by (change 1%Z with (Qfloor 1); apply Qfloor_resp_le; exact E).
    assert (Fk : (Qfloor q <= k)%Z)
      by (rewrite <- (Qfloor_Z k); apply Qfloor_resp_le; exact Hq).
    assert (Z.log2 (Qfloor q) < 53)%Z; [|lia].
    apply Z.log2_lt_pow2; lia.
  - pose proof (Z.log2_up_nonneg (Qceiling (/ q))). lia.
Qed.

(** A rational between 0 and a whole number below [2^53] rounds to a double
    between the two. *)
Lemma round64_pos_le (q : Q) (k : Z) :
  (0 < k < 2 ^ 53)%Z -> (0 < q)%Q -> (q <= inject_Z k)%Q ->
  exists v, round64_pos q = Some v /\ (0 <= v)%Q /\ (v <= inject_Z k)%Q.
Proof.
  intros Hk H0 Hq. unfold round64_pos.
  pose proof (binade_small q k Hk Hq) as Hb.
  set (u := (Z.max (binade q) (-1022) - 52)%Z).
  assert (Hu : (u <= 0)%Z) by (unfold u; lia).
  pose proof (pow2_pos u) as Hp. pose proof (pow2_nonpos u Hu) as Hinv.
  set (s := inject_Z (2 ^ (- u))) in *.
  assert (Hs : (0 < s)%Q).
  { unfold s. change 0%Q with (inject_Z 0). rewrite <- Zlt_Qlt.
    apply Z.pow_pos_nonneg; lia. }
  assert (Hx : (q / pow2 u == q * s)%Q).
  { unfold Qdiv. apply Qmult_inj_l with (z := pow2 u); [|].
    - intros E. rewrite E in Hp. discriminate Hp.
    - rewrite (Qmult_comm (pow2 u) (q * / pow2 u)), <- Qmult_assoc.
      rewrite (Qmult_comm (/ pow2 u)), Qmult_inv_r
        by (intros E; rewrite E in Hp; discriminate Hp).
      rewrite (Qmult_comm (pow2 u) (q * s)), <- Qmult_assoc.
      rewrite (Qmult_comm s), Hinv. reflexivity. }
  assert (Hx0 : (0 <= q / pow2 u)%Q).
  { rewrite Hx. apply Qmult_le_0_compat; apply Qlt_le_weak; assumption. }
  assert (Hxk : (q / pow2 u <= inject_Z (k * 2 ^ (- u)))%Q).
  { rewrite Hx, inject_Z_mult. fold s.
    apply Qmult_le_compat_r; [exact Hq | apply Qlt_le_weak, Hs]. }
  destruct (round_half_even_bounds _ _ Hx0 Hxk) as [R0 Rk].
  set (m := round_half_even (q / pow2 u)) in *.
  assert (V0 : (0 <= inject_Z m * pow2 u)%Q).
  { apply Qmult_le_0_compat; [|apply Qlt_le_weak, Hp].
    change 0%Q with (inject_Z 0). rewrite <- Zle_Qle. exact R0. }
  assert (Vk : (inject_Z m * pow2 u <= inject_Z k)%Q).
  { apply Qle_trans with (inject_Z (k * 2 ^ (- u)) * pow2 u)%Q.
    - apply Qmult_le_compat_r; [|apply Qlt_le_weak, Hp].
      rewrite <- Zle_Qle. exact Rk.
    - rewrite inject_Z_mult. fold s. rewrite <- Qmult_assoc.
      rewrite (Qmult_comm s), Hinv, Qmult_1_r. apply Qle_refl. }
  assert (Hov : Qle_bool (pow2 1024) (inject_Z m * pow2 u) = false).
  { destruct (Qle_bool (pow2 1024) (inject_Z m * pow2 u)) eqn:E; [|reflexivity].
    exfalso. apply Qle_bool_iff in E.
    assert (X : (pow2 1024 <= inject_Z k)%Q) by (eapply Qle_trans; eassumption).
    unfold pow2 in X. change (0 <=? 1024)%Z with true in X. cbv iota in X.
    rewrite <- Zle_Qle in X.
    assert (2 ^ 53 < 2 ^ 1024)%Z by (apply Z.pow_lt_mono_r; lia). lia. }
  rewrite Hov. eexists. split; [reflexivity|].
  rewrite Qred_correct. split; assumption.
Qed.

Lemma round64_le (q : Q) (k : Z) :
  (0 < k < 2 ^ 53)%Z -> (0 <= q)%Q -> (q <= inject_Z k)%Q ->
  exists v, round64 q = Finite v /\ (0 <= v)%Q /\ (v <= inject_Z k)%Q.
Proof.
  intros Hk H0 Hq. unfold round64.
  destruct (q ?= 0)%Q eqn:E.
  - exists 0%Q. split; [reflexivity|]. split; [apply Qle_refl|].
    change 0%Q with (inject_Z 0). rewrite <- Zle_Qle. lia.
  - apply Qlt_alt in E. exfalso. exact (Qlt_not_le _ _ E H0).
  - apply Qgt_alt in E.
    destruct (round64_pos_le q k Hk E Hq) as [v [-> Hv]].
    exists v. split; [reflexivity | exact Hv].
Qed.

(** The double of a rational that is not positive is not positive. *)
Lemma round64_nonpos (q : Q) :
  (q <= 0)%Q ->
  round64 q = Inf true \/ exists v, round64 q = Finite v /\ (v <= 0)%Q.
Proof.
  intros Hq. unfold round64. destruct (q ?= 0)%Q eqn:E.
  - right. exists 0%Q. split; [reflexivity | apply Qle_refl].
  - unfold round64_pos.
    set (u := (Z.max (binade (- q)) (-1022) - 52)%Z).
    set (m := round_half_even (- q / pow2 u)).
    destruct (Qle_bool _ _); [left; reflexivity|].
    right. eexists. split; [reflexivity|].
    rewrite Qred_correct.
    assert (M0 : (0 <= m)%Z).
    { unfold m, round_half_even. cbv zeta.
      assert (F0 : (0 <= Qfloor (- q / pow2 u))%Z).
      { change 0%Z with (Qfloor 0). apply Qfloor_resp_le.
        apply Qle_shift_div_l; [apply pow2_pos|]. rewrite Qmult_0_l.
        apply (Qopp_le_compat q 0) in Hq. exact Hq. }
      destruct (- q / pow2 u - inject_Z (Qfloor (- q / pow2 u)) ?= 1 # 2)%Q;
        [destruct (Z.even _)| |]; lia. }
    setoid_replace 0%Q with (- 0)%Q by reflexivity.
    apply Qopp_le_compat. apply Qmult_le_0_compat;
      [|apply Qlt_le_weak, pow2_pos].
    change 0%Q with (inject_Z 0). rewrite <- Zle_Qle. exact M0.
  - apply Qgt_alt in E. exfalso. exact (Qlt_not_le _ _ E Hq).
Qed.

Lemma round64_zero (q : Q) : (q == 0)%Q -> round64 q = Finite 0%Q.
Proof.
  intros E. unfold round64. apply Qeq_alt in E. rewrite E. reflexivity.
Qed.

Lemma Qtrunc_bounds (q : Q) (k : Z) :
  (0 <= q)%Q -> (q <= inject_Z k)%Q -> (0 <= Qtrunc q <= k)%Z.
Proof.
  intros H0 Hk. rewrite Qtrunc_floor by exact H0. split.
  - change 0%Z with (Qfloor 0). apply Qfloor_resp_le. exact H0.
  - rewrite <- (Qfloor_Z k). apply Qfloor_resp_le. exact Hk.
Qed.

Lemma Qtrunc_nonpos (q : Q) : (q <= 0)%Q -> (Qtrunc q <= 0)%Z.
Proof.
  destruct q as [n d]. unfold Qle, Qtrunc. cbn. intros H.
  apply Z.quot_le_upper_bound; lia.
Qed.

(** The model at known values of Python: [0.1], [float(2**53 + 1)],
    [int(29 / 50 * 100)], [-1e308 * 100] and [float(10**400)]. *)
Lemma round64_examples :
  round64 (1 # 10) = Finite (3602879701896397 # 36028797018963968)
  /\ float_of_int (2 ^ 53 + 1) = Ok (Finite (inject_Z (2 ^ 53)))
  /\ (q <- fdiv (Finite (inject_Z 29)) (Finite (inject_Z 50)) ;;
      int_of_float (fmul q (Finite (inject_Z 100)))) = Ok 57%Z
  /\ fmul (Finite (inject_Z (- 10 ^ 308))) (Finite (inject_Z 100)) = Inf true
  /\ float_of_int (10 ^ 400) = Raise OverflowError
  /\ float_of_literal (py "-3") = Some (Finite (inject_Z (-3)))
  /\ float_of_literal (py " 1_0.5e1 ") = Some (Finite (inject_Z 105))
  /\ float_of_literal (py "1e400") = Some (Inf false)
  /\ float_of_literal (py "five") = None.
Proof. repeat split; vm_compute; reflexivity. Qed.

End FloatFacts.

(** ** The experience score *)

Section Experience.
Import MatchingEngine.
Variable B : builtins.

(** The proportional credit [int((c / r) * k)] of a candidate below the
    requirement: the quotient is a double between 0 and 1, the product a
    double between 0 and [k]. *)
Lemma scaled_bounds (c r : Q) (k : Z) :
  (0 < k < 2 ^ 53)%Z -> (0 <= c)%Q -> (c < r)%Q ->
  exists x p,
    fdiv (Finite c) (Finite r) = Ok (Finite x)
    /\ (0 <= x)%Q /\ (x <= 1)%Q
    /\ fmul (Finite x) (Finite (inject_Z k)) = Finite p
    /\ scaled (Finite c) (Finite r) k = Ok (Qtrunc p)
    /\ (0 <= Qtrunc p <= k)%Z.
Proof.
  intros Hk Hc Hr.
  assert (Hpos : (0 < r)%Q) by (apply Qle_lt_trans with c; assumption).
  assert (Hz : is_zero r = false).
  { destruct (is_zero r) eqn:E; [|reflexivity].
    apply is_zero_iff in E. rewrite E in Hpos. discriminate Hpos. }
  assert (Hq0 : (0 <= c / r)%Q) by (apply Qdiv_nonneg; assumption).
  assert (Hq1 : (c / r <= inject_Z 1)%Q).
  { apply Qle_shift_div_r; [exact Hpos|]. rewrite Qmult_1_l.
    apply Qlt_le_weak, Hr. }
  destruct (round64_le (c / r) 1 ltac:(lia) Hq0 Hq1) as [x [Ex [X0 X1]]].
  assert (Hp0 : (0 <= x * inject_Z k)%Q).
  { apply Qmult_le_0_compat; [exact X0|].
    change 0%Q with (inject_Z 0). rewrite <- Zle_Qle. lia. }
  assert (Hpk : (x * inject_Z k <= inject_Z k)%Q).
  { setoid_replace (inject_Z k) with (1 * inject_Z k)%Q at 2 by ring.
    apply Qmult_le_compat_r; [exact X1|].
    change 0%Q with (inject_Z 0). rewrite <- Zle_Qle. lia. }
  destruct (round64_le (x * inject_Z k) k Hk Hp0 Hpk) as [p [Ep [P0 Pk]]].
  exists x, p. unfold fdiv. rewrite Hz, Ex.
  split; [reflexivity|]. split; [exact X0|]. split; [exact X1|].
  cbn [fmul]. split; [exact Ep|]. split.
  - unfold scaled. rewrite (proj2 (fgt_finite r 0) Hpos).
    unfold fdiv. rewrite Hz, Ex. cbn [bind fmul]. rewrite Ep. reflexivity.
  - apply Qtrunc_bounds; assumption.
Qed.

(** With no year at all the proportional credit is 0. *)
Lemma scaled_zero (c r : Q) (k : Z) :
  (c == 0)%Q -> (0 < r)%Q -> scaled (Finite c) (Finite r) k = Ok 0%Z.
Proof.
  intros Hc Hr. unfold scaled. rewrite (proj2 (fgt_finite r 0) Hr).
  unfold fdiv.
  assert (Hz : is_zero r = false).
  { destruct (is_zero r) eqn:E; [|reflexivity].
    apply is_zero_iff in E. rewrite E in Hr. discriminate Hr. }
  rewrite Hz. rewrite (round64_zero (c / r)).
  - cbn [bind fmul]. rewrite (round64_zero (0 * inject_Z k)); [reflexivity|].
    apply Qmult_0_l.
  - rewrite Hc. unfold Qdiv. apply Qmult_0_l.
Qed.

(** The proportional credit never exceeds [k], whatever the two floats
    are. *)
Lemma scaled_ok_le (c r : pyfloat) (k z : Z) :
  (0 < k < 2 ^ 53)%Z -> fge c r = false ->
  scaled c r k = Ok z -> (z <= k)%Z.
Proof.
  intros Hk Hge. unfold scaled.
  destruct (fgt r (Finite 0%Q)) eqn:Hr; [|intros E; injection E as <-; lia].
  destruct r as [r|nr|]; [| |discriminate Hr].
  - apply fgt_finite in Hr.
    destruct c as [c|nc|].
    + assert (L : (c < r)%Q).
      { apply Qnot_le_lt. intros H. apply fge_finite in H. congruence. }
      destruct (Qlt_le_dec c 0) as [Hn|Hp].
      * (* a negative candidate: the credit is not positive *)
        unfold fdiv.
        assert (Hz : is_zero r = false).
        { destruct (is_zero r) eqn:E; [|reflexivity].
          apply is_zero_iff in E. rewrite E in Hr. discriminate Hr. }
        rewrite Hz.
        assert (Hq : (c / r <= 0)%Q).
        { apply Qle_shift_div_r; [exact Hr|]. rewrite Qmult_0_l.
          apply Qlt_le_weak, Hn. }
        destruct (round64_nonpos _ Hq) as [->|[x [-> Hx]]].
        { cbn [bind fmul].
          destruct (is_zero (inject_Z k)); cbn [int_of_float]; discriminate. }
        cbn [bind fmul].
        assert (Hp : (x * inject_Z k <= 0)%Q).
        { rewrite Qmult_comm.
          setoid_replace 0%Q with (inject_Z k * 0)%Q by ring.
          apply Qmult_le_l; [|exact Hx].
          change 0%Q with (inject_Z 0). rewrite <- Zlt_Qlt. lia. }
        destruct (round64_nonpos _ Hp) as [->|[p [-> Hp']]];
          [cbn [int_of_float]; discriminate|].
        cbn [int_of_float]. intros E; injection E as <-.
        pose proof (Qtrunc_nonpos p Hp'). lia.
      * destruct (scaled_bounds c r k Hk Hp L) as [x [p [E1 [_ [_ [E2 [E3 E4]]]]]]].
        unfold scaled in E3. rewrite (proj2 (fgt_finite r 0) Hr) in E3.
        rewrite E3. intros E; injection E as <-. lia.
    + destruct nc; [|discriminate Hge].
      unfold fdiv. destruct (is_zero r); [discriminate|].
      cbn [bind fmul].
      destruct (is_zero (inject_Z k)); cbn [int_of_float]; discriminate.
    + unfold fdiv. destruct (is_zero r); discriminate.
  - destruct nr; [discriminate Hr|].
    destruct c as [c|nc|]; cbn [fdiv bind fmul].
    + rewrite (round64_zero (0 * inject_Z k)) by apply Qmult_0_l.
      cbn [int_of_float]. intros E; injection E as <-.
      change (Qtrunc 0) with 0%Z. lia.
    + discriminate.
    + discriminate.
Qed.

(** Whenever [check_experience_match] returns, its score lies between 1 and
    35 and its percentage is at most 100. *)
Lemma check_experience_match_ok_range (resume_data jd_data : pyval)
    (res : experience_result) :
  check_experience_match B resume_data jd_data = Ok res ->
  (1 <= exp_score res <= 35)%Z /\ (exp_percentage res <= 100)%Z.
Proof.
  unfold check_experience_match.
  destruct (experience_years B resume_data jd_data) as [c r].
  destruct (feq r (Finite 0%Q)).
  { destruct (int_of_float c) as [ci|e]; [|discriminate]. cbn [bind].
    destruct (int_of_float r) as [ri|e]; [|discriminate]. cbn [bind].
    intros E; injection E as <-. cbn [exp_score exp_percentage]. lia. }
  destruct (fge c r) eqn:Hge.
  { destruct (int_of_float c) as [ci|e]; [|discriminate]. cbn [bind].
    destruct (int_of_float r) as [ri|e]; [|discriminate]. cbn [bind].
    intros E; injection E as <-. cbn [exp_score exp_percentage]. lia. }
  destruct (scaled c r 100) as [pct|e] eqn:E100; [|discriminate]. cbn [bind].
  destruct (scaled c r 35) as [sc|e] eqn:E35; [|discriminate]. cbn [bind].
  destruct (int_of_float c) as [ci|e]; [|discriminate]. cbn [bind].
  destruct (int_of_float r) as [ri|e]; [|discriminate]. cbn [bind].
  intros E; injection E as <-. cbn [exp_score exp_percentage].
  pose proof (scaled_ok_le c r 35 sc ltac:(lia) Hge E35). lia.
Qed.

(** For whole numbers of years up to 100, the proportional credit in
    binary64 is the exact floor. *)
Lemma scaled_whole_years_table :
  forallb (fun zr =>
    forallb (fun zc =>
      match scaled (Finite (inject_Z zc)) (Finite (inject_Z zr)) 35 with
      | Ok z => (z =? 35 * zc / zr)%Z
      | Raise _ => false
      end) (map Z.of_nat (seq 0 (Z.to_nat zr))))
    (map Z.of_nat (seq 1 100)) = true.
Proof. vm_compute. reflexivity. Qed.

Lemma scaled_whole_years (zc zr : Z) :
  (0 <= zc < zr)%Z -> (zr <= 100)%Z ->
  scaled (Finite (inject_Z zc)) (Finite (inject_Z zr)) 35
  = Ok (35 * zc / zr)%Z.
Proof.
  intros Hc Hr. pose proof scaled_whole_years_table as T.
  rewrite forallb_forall in T.
  assert (Ir : In zr (map Z.of_nat (seq 1 100))).
  { apply in_map_iff. exists (Z.to_nat zr). split; [lia|].
    apply in_seq. lia. }
  specialize (T zr Ir). rewrite forallb_forall in T.
  assert (Ic : In zc (map Z.of_nat (seq 0 (Z.to_nat zr)))).
  { apply in_map_iff. exists (Z.to_nat zc). split; [lia|].
    apply in_seq. lia. }
  specialize (T zc Ic).
  destruct (scaled _ _ 35) as [z|e]; [|discriminate T].
  apply Z.eqb_eq in T. rewrite T. reflexivity.
Qed.

(** The three cases of the experience score. *)
Lemma check_experience_match_cases (resume_data jd_data : pyval) (c r : Q) :
  experience_years B resume_data jd_data = (Finite c, Finite r) ->
  (0 <= c)%Q ->
  exists res,
    check_experience_match B resume_data jd_data = Ok res
    /\ ((r == 0)%Q -> exp_score res = 35%Z /\ exp_met res = true)
    /\ (~ (r == 0)%Q -> (r <= c)%Q -> exp_score res = 35%Z /\ exp_met res = true)
    /\ ((c < r)%Q ->
        exp_met res = false
        /\ (exists x p,
              fdiv (Finite c) (Finite r) = Ok (Finite x)
              /\ fmul (Finite x) (Finite (inject_Z 35)) = Finite p
              /\ exp_score res = Z.max 1 (Qtrunc p))
        /\ (1 <= exp_score res <= 35)%Z
        /\ (forall zc zr : Z,
              c = inject_Z zc -> r = inject_Z zr -> (zr <= 100)%Z ->
              exp_score res = Z.max 1 (35 * zc / zr))
        /\ ((c == 0)%Q -> exp_score res = 1%Z)).
Proof.
  intros Hy Hc. unfold check_experience_match. rewrite Hy.
  destruct (feq (Finite r) (Finite 0%Q)) eqn:E0.
  - apply feq_finite in E0. cbn [bind int_of_float].
    eexists; split; [reflexivity|]. cbn [exp_score exp_met].
    split; [|split].
    + intros _. split; [reflexivity|]. apply fge_finite.
      rewrite E0. exact Hc.
    + intros N. contradiction.
    + intros L. rewrite E0 in L. exfalso. exact (Qlt_not_le _ _ L Hc).
  - assert (N0 : ~ (r == 0)%Q)
      by (intros E; apply feq_finite in E; congruence).
    destruct (fge (Finite c) (Finite r)) eqn:E1.
    + apply fge_finite in E1. cbn [bind int_of_float].
      eexists; split; [reflexivity|]. cbn [exp_score exp_met].
      split; [|split].
      * intros E; contradiction.
      * intros _ _. split; reflexivity.
      * intros L. exfalso. exact (Qlt_not_le _ _ L E1).
    + assert (L : (c < r)%Q).
      { apply Qnot_le_lt. intros H. apply fge_finite in H. congruence. }
      assert (Hpos : (0 < r)%Q) by (apply Qle_lt_trans with c; assumption).
      destruct (scaled_bounds c r 100 ltac:(lia) Hc L)
        as [x1 [p1 [_ [_ [_ [_ [S100 _]]]]]]].
      destruct (scaled_bounds c r 35 ltac:(lia) Hc L)
        as [x [p [D [_ [_ [M [S35 R35]]]]]]].
      rewrite S100, S35. cbn [bind int_of_float].
      eexists; split; [reflexivity|]. cbn [exp_score exp_met].
      split; [|split].
      * intros E; contradiction.
      * intros _ H. exfalso. exact (Qlt_not_le _ _ L H).
      * intros _. split; [reflexivity|]. split.
        { exists x, p. split; [exact D|]. split; [exact M | reflexivity]. }
        split; [lia|]. split.
        { intros zc zr -> -> Hzr.
          assert (Hzc : (0 <= zc)%Z) by (rewrite Zle_Qle; exact Hc).
          assert (Hlt : (zc < zr)%Z) by (rewrite Zlt_Qlt; exact L).
          rewrite scaled_whole_years in S35 by lia.
          injection S35 as <-. reflexivity. }
        intros Z0. rewrite (scaled_zero c r 35 Z0 Hpos) in S35.
        injection S35 as <-. reflexivity.
Qed.

(** C4, amended: for two finite numbers of years, the candidate's not
    negative, the experience score is 35 and the criterion met when nothing
    is required or the requirement is reached; below the requirement the
    criterion is not met and the score is [max(1, int((c / r) * 35))], the
    quotient and the product rounded to binary64: it lies between 1 and 35,
    it is the floor of [c / r * 35] raised to 1 for whole numbers of years
    up to 100, and it is 1, not 0, for a candidate with no year at all: the
    floor at 1 has no condition. *)
Theorem C4_experience_score (resume_data jd_data : pyval) (c r : Q) :
  experience_years B resume_data jd_data = (Finite c, Finite r) ->
  (0 <= c)%Q ->
  exists res,
    check_experience_match B resume_data jd_data = Ok res
    /\ ((r == 0)%Q -> exp_score res = 35%Z /\ exp_met res = true)
    /\ (~ (r == 0)%Q -> (r <= c)%Q -> exp_score res = 35%Z /\ exp_met res = true)
    /\ ((c < r)%Q ->
        exp_met res = false
        /\ (exists x p,
              fdiv (Finite c) (Finite r) = Ok (Finite x)
              /\ fmul (Finite x) (Finite (inject_Z 35)) = Finite p
              /\ exp_score res = Z.max 1 (Qtrunc p))
        /\ (1 <= exp_score res <= 35)%Z
        /\ (forall zc zr : Z,
              c = inject_Z zc -> r = inject_Z zr -> (zr <= 100)%Z ->
              exp_score res = Z.max 1 (35 * zc / zr))
        /\ ((c == 0)%Q -> exp_score res = 1%Z)).
Proof. exact (check_experience_match_cases resume_data jd_data c r). Qed.

End Experience.

Lemma C4_experience_score_witness :
  exists res,
    check_experience_match example_builtins
      (PDict [(py "totalYearsExperience", PInt 3)])
      (PDict [(py "minExperienceYears", PStr (py "5"))]) = Ok res
    /\ ((inject_Z 5 == 0)%Q -> exp_score res = 35%Z /\ exp_met res = true)
    /\ (~ (inject_Z 5 == 0)%Q -> (inject_Z 5 <= inject_Z 3)%Q ->
        exp_score res = 35%Z /\ exp_met res = true)
    /\ ((inject_Z 3 < inject_Z 5)%Q ->
        exp_met res = false
        /\ (exists x p,
              fdiv (Finite (inject_Z 3)) (Finite (inject_Z 5)) = Ok (Finite x)
              /\ fmul (Finite x) (Finite (inject_Z 35)) = Finite p
              /\ exp_score res = Z.max 1 (Qtrunc p))
        /\ (1 <= exp_score res <= 35)%Z
        /\ (forall zc zr : Z,
              inject_Z 3 = inject_Z zc -> inject_Z 5 = inject_Z zr ->
              (zr <= 100)%Z ->
              exp_score res = Z.max 1 (35 * zc / zr))
        /\ ((inject_Z 3 == 0)%Q -> exp_score res = 1%Z)).
Proof.
  apply (C4_experience_score example_builtins
           (PDict [(py "totalYearsExperience", PInt 3)])
           (PDict [(py "minExperienceYears", PStr (py "5"))])
           (inject_Z 3) (inject_Z 5)).
  - vm_compute. reflexivity.
  - discriminate.
Defined.

(** C4, counterexample: a candidate with 0 years against a requirement of 5
    years gets the score 1, where the claim gives 0: the proportional score,
    [int(0 / 5 * 35) = 0], is raised to 1 by [max(1, score)] whatever the
    candidate's years are. *)
Lemma C4_counterexample :
  check_experience_match example_builtins
    (PDict [(py "totalYearsExperience", PInt 0)])
    (PDict [(py "minExperienceYears", PInt 5)])
  = Ok {| exp_met := false;
          candidateExperience := 0;
          requiredExperience := 5;
          exp_details := ExperiencePartial 0 5 0;
          exp_score := 1;
          exp_percentage := 0 |}
  /\ 1%Z <> (0 * 35 / 5)%Z.
Proof. split; [vm_compute; reflexivity | discriminate]. Qed.

(** ** The education score *)

Section Education.
Import MatchingEngine.
Variable B : builtins.

Lemma Qtrunc_ratio (c r k : Z) :
  (0 <= c)%Z -> (0 < r)%Z -> (0 <= k)%Z ->
  Qtrunc (inject_Z c / inject_Z r * inject_Z k) = (c * k / r)%Z.
Proof.
  intros Hc Hr Hk. destruct r as [|p|p]; try lia.
  unfold Qtrunc, Qdiv, Qmult, Qinv, inject_Z. cbn [Qnum Qden].
  rewrite Z.quot_div_nonneg by nia.
  f_equal; lia.
Qed.

Lemma first_key_range (table : list (string * Z)) (s : str) (k : str) (v : Z) :
  Forall (fun kv => (0 <= snd kv <= 4)%Z) table ->
  first_key table s = Some (k, v) -> (0 <= v <= 4)%Z.
Proof.
  induction 1 as [|[key value] rest Hkv _ IH]; simpl; [discriminate|].
  destruct (contains (py key) s); [|exact IH].
  intros E; injection E as _ <-. exact Hkv.
Qed.

(** Every degree has a rank between 0 and 4. *)
Lemma normalize_education_range (degree : pyval) :
  (0 <= snd (normalize_education B degree) <= 4)%Z.
Proof.
  unfold normalize_education.
  destruct (negb (truthy degree)); [simpl; lia|].
  destruct (first_key _ _) as [[k v]|] eqn:E; [|simpl; lia].
  simpl. eapply first_key_range; [|exact E].
  unfold EDUCATION_HIERARCHY. repeat constructor; simpl; lia.
Qed.

Lemma highest_fold (l : list pyval) :
  forall st : Z * pyval,
    fst (fold_left (highest_step B) l st)
    = fold_left Z.max (map (entry_level B) l) (fst st).
Proof.
  induction l as [|e l IH]; intros [hl hd]; [reflexivity|].
  cbn [fold_left map]. rewrite IH. f_equal.
  unfold highest_step, entry_level.
  destruct (normalize_education B (degree_of B e)) as [n level]. cbn [snd fst].
  destruct (Z.ltb_spec hl level); cbn [fst]; lia.
Qed.

Lemma fold_max_spec (l : list Z) :
  forall a : Z,
    let m := fold_left Z.max l a in
    (a <= m)%Z /\ Forall (fun x => (x <= m)%Z) l /\ (m = a \/ In m l).
Proof.
  induction l as [|x l IH]; intros a; cbn [fold_left].
  - split; [lia|]. split; [constructor | left; reflexivity].
  - destruct (IH (Z.max a x)) as [H1 [H2 H3]].
    split; [lia|]. split.
    + constructor; [lia | exact H2].
    + destruct H3 as [H3|H3]; [|right; right; exact H3].
      destruct (Z.max_spec a x) as [[_ E]|[_ E]].
      * right; left; lia.
      * left; lia.
Qed.

(** Only the highest-ranked entry counts: the candidate's rank is an upper
    bound of the ranks of the entries, and it is the rank of one of them
    unless it is 0. *)
Lemma candidate_level_highest (resume_data : dict) (l : list pyval) :
  dict_get resume_data (py "education") (PList []) = PList l ->
  Forall (fun e => (entry_level B e <= candidate_level B resume_data)%Z) l
  /\ (candidate_level B resume_data = 0%Z
      \/ exists e, In e l /\ entry_level B e = candidate_level B resume_data).
Proof.
  intros E. unfold candidate_level. rewrite E. unfold highest_education.
  rewrite highest_fold. cbn [fst].
  destruct (fold_max_spec (map (entry_level B) l) 0) as [_ [H2 H3]].
  split.
  - rewrite Forall_map in H2. exact H2.
  - destruct H3 as [H3|H3]; [left; exact H3|].
    right. apply in_map_iff in H3 as [e [He Ie]]. exists e; auto.
Qed.

Lemma candidate_level_nonneg (resume_data : dict) :
  (0 <= candidate_level B resume_data)%Z.
Proof.
  unfold candidate_level.
  destruct (dict_get resume_data (py "education") (PList [])); try lia.
  unfold highest_education. rewrite highest_fold. cbn [fst].
  destruct (fold_max_spec (map (entry_level B) l) 0) as [H _]. exact H.
Qed.

(** The education score of two records: full credit when no rank is
    required or the required rank is reached, with the flag exactly when it
    is exceeded, and otherwise the floor of the proportional credit, raised
    to 1. *)
Lemma check_education_match_cases (resume_data jd_data : dict) :
  let cl := candidate_level B resume_data in
  let rl := required_level B jd_data in
  exists res,
    check_education_match B (PDict resume_data) (PDict jd_data) = Ok res
    /\ (rl = 0%Z -> edu_score res = 25%Z /\ edu_met res = true)
    /\ ((0 < rl <= cl)%Z ->
        edu_score res = 25%Z /\ edu_met res = true
        /\ isOverqualified res = (rl <? cl)%Z)
    /\ ((cl < rl)%Z ->
        edu_score res = Z.max 1 (cl * 25 / rl) /\ edu_met res = false).
Proof.
  intros cl rl.
  pose proof (candidate_level_nonneg resume_data) as Hcl. fold cl in Hcl.
  unfold check_education_match. cbn [py_get bind].
  set (rd := dict_get jd_data (py "requiredEducation")
               (PStr (py "not specified"))).
  assert (Hrl : snd (normalize_education B rd) = rl) by reflexivity.
  assert (Hpair :
    (match dict_get resume_data (py "education") (PList []) with
     | PList (e :: l) => highest_education B (e :: l)
     | _ => (0%Z, PStr (py "not specified"))
     end) = (cl, snd (match dict_get resume_data (py "education") (PList []) with
                      | PList (e :: l) => highest_education B (e :: l)
                      | _ => (0%Z, PStr (py "not specified"))
                      end))).
  { subst cl. unfold candidate_level.
    destruct (dict_get resume_data (py "education") (PList [])) as [| | | | |[|e l]|];
      try reflexivity.
    destruct (highest_education B (e :: l)); reflexivity. }
  rewrite Hpair. clear Hpair.
  destruct (normalize_education B rd) as [rn rl'] eqn:En.
  cbn [snd] in Hrl. subst rl'.
  assert (Hns : eq_str rd (py "not specified") = true -> rl = 0%Z).
  { intros E. destruct rd as [| | | |s| |]; try discriminate E.
    cbn [eq_str] in E. apply str_eqb_eq in E. subst s.
    vm_compute in En. injection En as _ E0. exact (eq_sym E0). }
  destruct ((rl =? 0)%Z || eq_str rd (py "not specified")) eqn:E0.
  - assert (R0 : rl = 0%Z).
    { apply orb_true_iff in E0 as [E0|E0]; [apply Z.eqb_eq, E0 | auto]. }
    eexists; split; [reflexivity|].
    cbn [edu_score edu_met isOverqualified].
    split; [|split].
    + intros _. split; [reflexivity|]. apply Z.leb_le. lia.
    + lia.
    + lia.
  - apply orb_false_iff in E0 as [E0 _]. apply Z.eqb_neq in E0.
    destruct (Z.leb_spec rl cl) as [L|L].
    + eexists; split; [reflexivity|].
      cbn [edu_score edu_met isOverqualified].
      split; [lia|]. split; [|lia].
      intros [Hp _]. split; [reflexivity|]. split; [reflexivity|].
      rewrite (proj2 (Z.ltb_lt 0 rl) Hp). apply andb_true_r.
    + eexists; split; [reflexivity|].
      cbn [edu_score edu_met isOverqualified].
      split; [lia|]. split; [lia|].
      intros _. split; [|reflexivity].
      unfold scaled_level. rewrite (proj2 (Z.ltb_lt 0 rl)) by lia.
      rewrite Qtrunc_ratio by lia. reflexivity.
Qed.

(** On the ranks 0..4 the proportional credit in binary64 is the exact
    quotient. *)
Lemma scaled_level_binary64 :
  forallb (fun k =>
    forallb (fun r =>
      forallb (fun c =>
        match scaled (Finite (inject_Z c)) (Finite (inject_Z r)) k with
        | Ok z => (z =? scaled_level c r k)%Z
        | Raise _ => false
        end) [0; 1; 2; 3; 4]%Z) [0; 1; 2; 3; 4]%Z) [25; 100]%Z = true.
Proof. vm_compute. reflexivity. Qed.

(** C5, amended: only the highest-ranked education entry counts.  The score
    is 25 and the criterion met when no rank is required or the required
    rank is reached, with the flag exactly when it is exceeded; below the
    required rank the criterion is not met and the score is the floor of
    [candidate / required * 25] raised to 1, also for a candidate of rank 0,
    who gets 1 and not 0: the floor at 1 has no condition. *)
Theorem C5_education_score (resume_data jd_data : dict) (l : list pyval) :
  dict_get resume_data (py "education") (PList []) = PList l ->
  let cl := candidate_level B resume_data in
  let rl := required_level B jd_data in
  Forall (fun e => (entry_level B e <= cl)%Z) l
  /\ (cl = 0%Z \/ exists e, In e l /\ entry_level B e = cl)
  /\ exists res,
       check_education_match B (PDict resume_data) (PDict jd_data) = Ok res
       /\ (rl = 0%Z -> edu_score res = 25%Z /\ edu_met res = true)
       /\ ((0 < rl <= cl)%Z ->
           edu_score res = 25%Z /\ edu_met res = true
           /\ isOverqualified res = (rl <? cl)%Z)
       /\ ((cl < rl)%Z ->
           edu_score res = Z.max 1 (cl * 25 / rl) /\ edu_met res = false
           /\ (cl = 0%Z -> edu_score res = 1%Z)).
Proof.
  intros E cl rl.
  destruct (candidate_level_highest resume_data l E) as [H1 H2].
  split; [exact H1|]. split; [exact H2|].
  destruct (check_education_match_cases resume_data jd_data)
    as [res [H [H0 [Hge Hlt]]]].
  exists res. split; [exact H|]. split; [exact H0|]. split; [exact Hge|].
  intros L. destruct (Hlt L) as [Hs Hm].
  split; [exact Hs|]. split; [exact Hm|].
  intros Z0. rewrite Hs. fold cl. rewrite Z0. reflexivity.
Qed.

End Education.

Lemma C5_education_score_witness :
  let resume_data :=
    [(py "education",
      PList [PDict [(py "degree", PStr (py "Diploma in Design"))];
             PDict [(py "degree", PStr (py "B.Tech"))]])] in
  let jd_data := [(py "requiredEducation", PStr (py "Master of Science"))] in
  let l := [PDict [(py "degree", PStr (py "Diploma in Design"))];
            PDict [(py "degree", PStr (py "B.Tech"))]] in
  let cl := candidate_level example_builtins resume_data in
  let rl := required_level example_builtins jd_data in
  Forall (fun e => (entry_level example_builtins e <= cl)%Z) l
  /\ (cl = 0%Z \/ exists e, In e l /\ entry_level example_builtins e = cl)
  /\ exists res,
       check_education_match example_builtins (PDict resume_data)
         (PDict jd_data) = Ok res
       /\ (rl = 0%Z -> edu_score res = 25%Z /\ edu_met res = true)
       /\ ((0 < rl <= cl)%Z ->
           edu_score res = 25%Z /\ edu_met res = true
           /\ isOverqualified res = (rl <? cl)%Z)
       /\ ((cl < rl)%Z ->
           edu_score res = Z.max 1 (cl * 25 / rl) /\ edu_met res = false
           /\ (cl = 0%Z -> edu_score res = 1%Z)).
Proof.
  intros resume_data jd_data l.
  apply (C5_education_score example_builtins resume_data jd_data l).
  reflexivity.
Defined.

(** C5, counterexample: a candidate with no education entry against a
    required bachelor (test 4 of test_education.py) gets the score 1, where
    the claim gives 0: the proportional score, [int(0 / 2 * 25) = 0], is
    raised to 1 by [max(1, score)] whatever the candidate's rank is. *)
Lemma C5_counterexample :
  check_education_match example_builtins
    (PDict [(py "education", PList [])])
    (PDict [(py "requiredEducation", PStr (py "Bachelor Degree"))])
  = Ok {| edu_met := false;
          candidateDegree := PStr (py "not specified");
          requiredDegree := PStr (py "Bachelor Degree");
          edu_details :=
            EducationPartial (PStr (py "not specified"))
              (PStr (py "Bachelor Degree")) 0;
          edu_score := 1;
          edu_percentage := 0;
          isOverqualified := false |}
  /\ 1%Z <> (0 * 25 / 2)%Z.
Proof. split; [reflexivity | discriminate]. Qed.

(** ** The skills score *)

Section Skills.
Import SkillMatch MatchingEngine.
Variable B : builtins.

Lemma best_match_found (req_skill : str) (l : list str) :
  forall st,
    found_flag (fold_left (best_step req_skill) l st)
    = found_flag st
      || existsb (fun c => fst (fst (find_skill_match c req_skill))) l.
Proof.
  induction l as [|c l IH]; intros st; cbn [fold_left existsb].
  - rewrite orb_false_r. reflexivity.
  - rewrite IH. destruct st as [[[f bm] bt] bc]. unfold best_step.
    destruct (find_skill_match c req_skill) as [[is_match kind] conf].
    cbn [fst]. destruct is_match.
    + destruct (negb (Qle_bool conf bc)); unfold found_flag; cbn [fst];
        rewrite orb_true_r; reflexivity.
    + unfold found_flag; cbn [fst orb]. reflexivity.
Qed.

Lemma best_match_for_found (candidate_skills : list str) (req_skill : str) :
  found_flag (best_match_for candidate_skills req_skill)
  = skill_matched candidate_skills req_skill.
Proof. unfold best_match_for. rewrite best_match_found. reflexivity. Qed.

(** The outer loop sorts the required skills, in their order, into the
    matched and the missing ones. *)
Lemma required_fold (candidate_skills : list str) (l : list str) :
  forall st,
    let res := fold_left (required_step candidate_skills) l st in
    fst (fst res) = fst (fst st) ++ filter (skill_matched candidate_skills) l
    /\ snd (fst res)
       = snd (fst st)
         ++ filter (fun r => negb (skill_matched candidate_skills r)) l.
Proof.
  induction l as [|r l IH]; intros [[ms miss] det]; cbn [fold_left filter].
  - cbn [fst snd]. rewrite !app_nil_r. split; reflexivity.
  - unfold required_step at 2 4.
    pose proof (best_match_for_found candidate_skills r) as Hf.
    destruct (best_match_for candidate_skills r) as [[[f bm] bt] bc].
    unfold found_flag in Hf; cbn [fst] in Hf. subst f.
    destruct (skill_matched candidate_skills r); cbn [negb].
    + destruct (IH (ms ++ [r], miss,
                    det ++ [{| required := r; matched := bm;
                               type := bt; confidence := bc |}]))
        as [H1 H2].
      cbn [fst snd] in *. rewrite H1, H2, <- app_assoc. split; reflexivity.
    + destruct (IH (ms, miss ++ [r], det)) as [H1 H2].
      cbn [fst snd] in *. rewrite H1, H2, <- app_assoc. split; reflexivity.
Qed.

Lemma scaled_count_floor (m n : nat) (k : Z) :
  n <> 0 -> (0 <= k)%Z ->
  scaled_count m n k = (k * Z.of_nat m / Z.of_nat n)%Z.
Proof.
  intros Hn Hk. unfold scaled_count. rewrite Qtrunc_ratio by lia.
  f_equal. lia.
Qed.

(** C6: with no required skill the score is 40 and the criterion is met,
    whatever the candidate's skills are; otherwise the score is
    [floor(matched / required * 40)], raised to 1 when a required skill is
    matched, and the criterion is met exactly when the matched percentage,
    [floor(matched / required * 100)], is 50 or more. *)
Theorem C6_skills_score (resume_data jd_data : pyval)
    (candidate_skills required_skills : list str) :
  extract_candidate_skills B resume_data = Ok candidate_skills ->
  extract_required_skills B jd_data = Ok required_skills ->
  exists res,
    check_skills_match B resume_data jd_data = Ok res
    /\ (required_skills = [] -> skl_score res = 40%Z /\ skl_met res = true)
    /\ (required_skills <> [] ->
        let m := Z.of_nat (matched_count candidate_skills required_skills) in
        let n := Z.of_nat (length required_skills) in
        skl_score res = (if (m =? 0)%Z then 0 else Z.max 1 (40 * m / n))%Z
        /\ (skl_met res = true <-> (50 <= 100 * m / n)%Z)).
Proof.
  intros Hc Hr. unfold check_skills_match. rewrite Hc, Hr. cbn [bind].
  destruct required_skills as [|r0 rs].
  - eexists; split; [reflexivity|]. cbn [skl_score skl_met].
    split; [intros _; split; reflexivity | congruence].
  - set (reqs := r0 :: rs).
    pose proof (required_fold candidate_skills reqs ([], [], [])) as Hfold.
    cbv zeta in Hfold.
    destruct (fold_left (required_step candidate_skills) reqs ([], [], []))
      as [[ms miss] det].
    cbn [fst snd app] in Hfold. destruct Hfold as [Hms _].
    eexists; split; [reflexivity|]. cbn [skl_score skl_met skl_percentage].
    split; [discriminate|]. intros _.
    assert (Hm : length ms = matched_count candidate_skills reqs)
      by (rewrite Hms; reflexivity).
    assert (Hn : length reqs <> 0) by discriminate.
    rewrite !scaled_count_floor by (try exact Hn; lia). rewrite Hm.
    split.
    + destruct ms as [|x ms'].
      * cbn [length] in Hm. rewrite <- Hm. reflexivity.
      * cbn [length] in Hm. rewrite <- Hm.
        destruct (Z.eqb_spec (Z.of_nat (S (length ms'))) 0); [lia | reflexivity].
    + apply Z.leb_le.
Qed.

End Skills.

Lemma C6_skills_score_witness :
  exists res,
    check_skills_match example_builtins
      (PDict [(py "skills", PList [PStr (py "Python"); PStr (py "Docker")])])
      (PDict [(py "requiredSkills",
               PList [PStr (py "python"); PStr (py "java");
                      PStr (py "docker"); PStr (py "aws")])])
    = Ok res
    /\ ([py "python"; py "java"; py "docker"; py "aws"] = [] ->
        skl_score res = 40%Z /\ skl_met res = true)
    /\ ([py "python"; py "java"; py "docker"; py "aws"] <> [] ->
        let m := Z.of_nat (matched_count [py "Python"; py "Docker"]
                             [py "python"; py "java"; py "docker"; py "aws"]) in
        let n := Z.of_nat
                   (length [py "python"; py "java"; py "docker"; py "aws"]) in
        skl_score res = (if (m =? 0)%Z then 0 else Z.max 1 (40 * m / n))%Z
        /\ (skl_met res = true <-> (50 <= 100 * m / n)%Z)).
Proof.
  apply (C6_skills_score example_builtins
           (PDict [(py "skills", PList [PStr (py "Python"); PStr (py "Docker")])])
           (PDict [(py "requiredSkills",
                    PList [PStr (py "python"); PStr (py "java");
                           PStr (py "docker"); PStr (py "aws")])])
           [py "Python"; py "Docker"]
           [py "python"; py "java"; py "docker"; py "aws"]);
    reflexivity.
Defined.

(** ** The report and its guard *)

Section Report.
Variable B : builtins.

Lemma check_experience_match_total (resume_data jd_data : pyval) :
  usable_years B resume_data jd_data ->
  exists res, check_experience_match B resume_data jd_data = Ok res.
Proof.
  intros [c [r [Hy Hc]]].
  destruct (check_experience_match_cases B resume_data jd_data c r Hy Hc)
    as [res [H _]].
  exists res. exact H.
Qed.

Lemma check_education_match_total (resume_data jd_data : dict) :
  exists res, check_education_match B (PDict resume_data) (PDict jd_data) = Ok res.
Proof.
  destruct (check_education_match_cases B resume_data jd_data) as [res [H _]].
  exists res; exact H.
Qed.

Lemma mapM_readable (l : list pyval) :
  forallb readable_skill l = true ->
  exists names, mapM (candidate_skill_name B) l = Ok names.
Proof.
  induction l as [|s l IH]; intros H; [exists []; reflexivity|].
  cbn [forallb] in H. apply andb_true_iff in H as [Hs Hl].
  destruct (IH Hl) as [names Hn]. cbn [mapM]. rewrite Hn.
  destruct s as [| | | | | |d]; cbn [candidate_skill_name bind];
    try (eexists; reflexivity).
  cbn [readable_skill] in Hs.
  destruct (dict_get d (py "name") (PStr [])); try discriminate Hs.
  cbn [bind]. eexists; reflexivity.
Qed.

Lemma forallb_readable_chars (s : str) :
  forallb readable_skill (map (fun c => PStr [c]) s) = true.
Proof. induction s; [reflexivity | exact IHs]. Qed.

Lemma forallb_readable_keys (d : dict) :
  forallb readable_skill (map (fun kv => PStr (fst kv)) d) = true.
Proof. induction d; [reflexivity | exact IHd]. Qed.

Lemma extract_candidate_skills_total (d : dict) :
  readable_skills (dict_get d (py "skills") (PList [])) = true ->
  exists names, extract_candidate_skills B (PDict d) = Ok names.
Proof.
  intros H. unfold extract_candidate_skills. cbn [py_get bind].
  destruct (dict_get d (py "skills") (PList [])) as [| | | |s|l|d'];
    try discriminate H; cbn [py_iter bind].
  - destruct (mapM_readable _ (forallb_readable_chars s)) as [names ->].
    cbn [bind]. eexists; reflexivity.
  - destruct (mapM_readable _ H) as [names ->].
    cbn [bind]. eexists; reflexivity.
  - destruct (mapM_readable _ (forallb_readable_keys d')) as [names ->].
    cbn [bind]. eexists; reflexivity.
Qed.

Lemma extract_required_skills_total (d : dict) :
  iterable (dict_get d (py "requiredSkills") (PList [])) = true ->
  exists names, extract_required_skills B (PDict d) = Ok names.
Proof.
  intros H. unfold extract_required_skills. cbn [py_get bind].
  destruct (dict_get d (py "requiredSkills") (PList []));
    try discriminate H; cbn [py_iter bind]; eexists; reflexivity.
Qed.

Lemma check_skills_match_total (resume_data jd_data : pyval)
    (candidate_skills required_skills : list str) :
  extract_candidate_skills B resume_data = Ok candidate_skills ->
  extract_required_skills B jd_data = Ok required_skills ->
  exists res, check_skills_match B resume_data jd_data = Ok res.
Proof.
  intros Hc Hr. unfold check_skills_match. rewrite Hc, Hr. cbn [bind].
  destruct required_skills as [|r0 rs]; [eexists; reflexivity|].
  destruct (fold_left _ _ _) as [[ms miss] det]. eexists; reflexivity.
Qed.


End Report.



(** ** The experience aggregator *)

Section Aggregation.
Local Open Scope Z_scope.
Variable strptime : str -> string -> option datetime.
Variable B : builtins.

(** *** The entries that survive *)

(** An entry is kept exactly when it is a dict whose start date parses, is
    not after today and not after the end (today, when the end does not
    parse), with 30 days to 60 years between the two. *)
Lemma entry_period_iff (today : datetime) (exp : pyval) (p : period) :
  entry_period strptime B today exp = Some p <->
  exists d s,
    exp = PDict d
    /\ parse_date_safely strptime B (dict_get d (py "startDate") PNone) = Some s
    /\ p = {| p_start := s;
              p_end := match parse_date_safely strptime B
                             (dict_get d (py "endDate") PNone) with
                       | Some e => e
                       | None => today
                       end |}
    /\ s <= today /\ s <= p_end p
    /\ 30 <= days_between s (p_end p) <= 60 * 365.
Proof.
  unfold entry_period. split.
  - destruct exp as [| | | | | |d]; try discriminate.
    destruct (parse_date_safely strptime B (dict_get d (py "startDate") PNone))
      as [s|] eqn:Es; [|discriminate].
    destruct (Z.ltb_spec today s); [discriminate|].
    set (e := match parse_date_safely strptime B
                      (dict_get d (py "endDate") PNone)
              with Some e => e | None => today end).
    destruct (Z.ltb_spec e s); [discriminate|].
    destruct (Z.ltb_spec (days_between s e) 30); [discriminate|].
    destruct (Z.ltb_spec (60 * 365) (days_between s e)); [discriminate|].
    cbn [orb]. intros E; injection E as <-.
    exists d, s. cbn [p_start p_end]. repeat split; auto; lia.
  - intros [d [s [-> [Es [-> [H1 [H2 H3]]]]]]]. cbn [p_end] in H2, H3.
    rewrite Es.
    set (e := match parse_date_safely strptime B
                      (dict_get d (py "endDate") PNone)
              with Some e => e | None => today end) in *.
    destruct (Z.ltb_spec today s); [lia|].
    destruct (Z.ltb_spec e s); [lia|].
    destruct (Z.ltb_spec (days_between s e) 30); [lia|].
    destruct (Z.ltb_spec (60 * 365) (days_between s e)); [lia|].
    reflexivity.
Qed.

Lemma entry_period_spec (today : datetime) (exp : pyval) (p : period) :
  entry_period strptime B today exp = Some p ->
  p_start p <= today /\ p_start p <= p_end p
  /\ 30 <= days_between (p_start p) (p_end p) <= 60 * 365.
Proof.
  intros H. apply entry_period_iff in H as [d [s [_ [_ [E H]]]]].
  rewrite E in *. cbn [p_start p_end] in *. exact H.
Qed.

Lemma collect_periods_spec (today : datetime) (l : list pyval) (p : period) :
  In p (collect_periods strptime B today l) <->
  exists exp, In exp l /\ entry_period strptime B today exp = Some p.
Proof.
  induction l as [|exp l IH]; cbn [collect_periods].
  - split; [intros [] | intros [e [[] _]]].
  - destruct (entry_period strptime B today exp) as [q|] eqn:E.
    + cbn [In]. rewrite IH. split.
      * intros [<-|[e [I H]]]; [exists exp; auto | exists e; auto].
      * intros [e [[<-|I] H]]; [left; congruence | right; exists e; auto].
    + rewrite IH. split.
      * intros [e [I H]]; exists e; cbn [In]; auto.
      * intros [e [[<-|I] H]]; [congruence | exists e; auto].
Qed.

(** *** Sorting *)

Lemma insert_by_start_perm (p : period) (l : list period) :
  Permutation (p :: l) (insert_by_start p l).
Proof.
  induction l as [|q l IH]; cbn [insert_by_start]; [reflexivity|].
  destruct (p_start p <? p_start q); [reflexivity|].
  rewrite perm_swap. apply perm_skip, IH.
Qed.

Lemma insert_by_start_sorted (p : period) (l : list period) :
  StronglySorted by_start l -> StronglySorted by_start (insert_by_start p l).
Proof.
  induction 1 as [|q l Hs IH Hq]; cbn [insert_by_start].
  - constructor; constructor.
  - destruct (Z.ltb_spec (p_start p) (p_start q)) as [L|L].
    + constructor; [constructor; assumption|].
      constructor; [unfold by_start; lia|].
      eapply Forall_impl; [|exact Hq]. unfold by_start. intros; lia.
    + constructor; [exact IH|].
      apply (Permutation_Forall (insert_by_start_perm p l)).
      constructor; [unfold by_start; lia | exact Hq].
Qed.

Lemma sort_fold_spec (l : list period) :
  forall acc : list period,
    StronglySorted by_start acc ->
    StronglySorted by_start (fold_left (fun a p => insert_by_start p a) l acc)
    /\ Permutation (l ++ acc) (fold_left (fun a p => insert_by_start p a) l acc).
Proof.
  induction l as [|p l IH]; intros acc Hs; cbn [fold_left app].
  - split; [exact Hs | reflexivity].
  - destruct (IH _ (insert_by_start_sorted p acc Hs)) as [H1 H2].
    split; [exact H1|]. rewrite <- H2.
    rewrite <- (insert_by_start_perm p acc). apply Permutation_middle.
Qed.

Lemma sort_by_start_spec (l : list period) :
  StronglySorted by_start (sort_by_start l) /\ Permutation l (sort_by_start l).
Proof.
  destruct (sort_fold_spec l [] (SSorted_nil _)) as [H1 H2].
  rewrite app_nil_r in H2. split; assumption.
Qed.

(** *** Merging *)

Lemma merge_step_snoc (before : list period) (last current : period) :
  merge_step (before ++ [last]) current =
  if p_start current <=? p_end last
  then before ++ [{| p_start := p_start last;
                     p_end := Z.max (p_end last) (p_end current) |}]
  else before ++ [last; current].
Proof.
  unfold merge_step. rewrite rev_app_distr. cbn [rev app].
  rewrite rev_involutive, <- app_assoc. reflexivity.
Qed.

Lemma separated_snoc (before : list period) (last next : period) :
  separated (before ++ [last]) -> p_end last < p_start next ->
  separated (before ++ [last; next]).
Proof.
  induction before as [|a before IH]; cbn [app separated]; intros H L.
  - tauto.
  - destruct H as [H1 H2]. split; [|apply IH; assumption].
    destruct before; exact H1.
Qed.

Lemma separated_last (before : list period) (last last' : period) :
  separated (before ++ [last]) -> p_start last' = p_start last ->
  separated (before ++ [last']).
Proof.
  induction before as [|a before IH]; cbn [app separated]; intros H E.
  - tauto.
  - destruct H as [H1 H2]. split; [|apply IH; assumption].
    destruct before; cbn [app] in *; [rewrite E|]; exact H1.
Qed.

Lemma covered_app (l1 l2 : list period) (t : datetime) :
  covered (l1 ++ l2) t <-> covered l1 t \/ covered l2 t.
Proof.
  unfold covered. split.
  - intros [p [I C]]. apply in_app_or in I as [I|I]; [left | right];
      exists p; auto.
  - intros [[p [I C]]|[p [I C]]]; exists p; split; auto;
      apply in_or_app; auto.
Qed.

Lemma covered_one (p : period) (t : datetime) : covered [p] t <-> covers p t.
Proof.
  unfold covered. split.
  - intros [q [[<-|[]] C]]. exact C.
  - intros C. exists p. split; [left; reflexivity | exact C].
Qed.

Lemma merge_fold_inv (rest : list period) :
  forall seen merged : list period,
    StronglySorted by_start rest -> Forall valid rest ->
    merge_inv seen merged rest ->
    merge_inv (seen ++ rest) (fold_left merge_step rest merged) [].
Proof.
  induction rest as [|cur rest IH]; intros seen merged Hs Hv Hinv.
  - cbn [fold_left]. rewrite app_nil_r.
    destruct Hinv as [[before [last [E _]]] V S C].
    constructor; auto. exists before, last. split; [exact E | constructor].
  - cbn [fold_left].
    replace (seen ++ cur :: rest) with ((seen ++ [cur]) ++ rest)
      by (rewrite <- app_assoc; reflexivity).
    inversion Hs as [|? ? Hs' Hfa]; subst. inversion Hv as [|? ? Vc Vr]; subst.
    apply IH; [exact Hs' | exact Vr |].
    destruct Hinv as [[before [last [E Hle]]] V S C]. subst merged.
    inversion Hle as [|? ? Lc Lr]; subst.
    rewrite merge_step_snoc.
    apply Forall_app in V as [Vb Vl]. inversion Vl as [|? ? Vlast _]; subst.
    unfold valid in Vc, Vlast.
    destruct (Z.leb_spec (p_start cur) (p_end last)) as [L|L].
    + constructor.
      * eexists before, _. split; [reflexivity|]. cbn [p_start]. exact Lr.
      * apply Forall_app. split; [exact Vb|].
        constructor; [unfold valid; cbn [p_start p_end]; lia | constructor].
      * eapply separated_last; [exact S | reflexivity].
      * intros t. rewrite !covered_app, !covered_one, C, covered_app, covered_one.
        unfold covers; cbn [p_start p_end]. split.
        -- intros [[H|H]|H]; [left; exact H | right; lia | right; lia].
        -- intros [H|H]; [left; left; exact H|].
           destruct (Z.le_gt_cases t (p_end last));
             [left; right; lia | right; lia].
    + constructor.
      * exists (before ++ [last]), cur. split.
        -- rewrite <- app_assoc. reflexivity.
        -- eapply Forall_impl; [|exact Hfa]. unfold by_start. intros; lia.
      * apply Forall_app. split; [exact Vb|].
        constructor; [exact Vlast|]. constructor; [exact Vc | constructor].
      * apply separated_snoc; [exact S | lia].
      * intros t.
        replace (before ++ [last; cur]) with ((before ++ [last]) ++ [cur])
          by (rewrite <- app_assoc; reflexivity).
        rewrite (covered_app seen), (covered_app (before ++ [last])), C.
        reflexivity.
Qed.

Lemma merge_periods_spec (periods : list period) :
  StronglySorted by_start periods -> Forall valid periods ->
  Forall valid (merge_periods periods)
  /\ separated (merge_periods periods)
  /\ forall t, covered periods t <-> covered (merge_periods periods) t.
Proof.
  intros Hs Hv. destruct periods as [|first rest].
  - cbn [merge_periods]. split; [constructor|]. split; [exact I | tauto].
  - cbn [merge_periods].
    inversion Hs as [|? ? Hs' Hfa]; subst. inversion Hv as [|? ? Vf Vr]; subst.
    destruct (merge_fold_inv rest [first] [first] Hs' Vr) as [_ V S C].
    + constructor.
      * exists [], first. split; [reflexivity|]. exact Hfa.
      * constructor; [exact Vf | constructor].
      * cbn [separated]. tauto.
      * tauto.
    + split; [exact V|]. split; [exact S | exact C].
Qed.

(** Periods that are valid and separated lie one after the other: any two
    of them are disjoint. *)
Lemma separated_pairwise (l : list period) :
  Forall valid l -> separated l ->
  StronglySorted (fun a b => p_end a < p_start b) l.
Proof.
  induction l as [|a l IH]; intros Hv Hs; [constructor|].
  inversion Hv as [|? ? Va Vl]; subst. cbn [separated] in Hs.
  destruct Hs as [H1 H2]. specialize (IH Vl H2).
  constructor; [exact IH|].
  destruct l as [|b l]; [constructor|].
  inversion IH as [|? ? _ Hb]; subst. inversion Vl as [|? ? Vb _]; subst.
  unfold valid in Vb.
  constructor; [exact H1|].
  eapply Forall_impl; [|exact Hb]. cbn beta. intros; lia.
Qed.

(** The total is the sum, over the merged periods, of their whole days. *)
Lemma total_days_sum (l : list period) :
  total_days l
  = fold_right Z.add 0
      (map (fun p => (p_end p - p_start p) / 86400000000) l).
Proof.
  induction l as [|p l IH]; [reflexivity|].
  cbn [total_days fold_right map]. unfold total_days in IH. rewrite IH.
  reflexivity.
Qed.

Lemma total_days_app (a b : list period) :
  total_days (a ++ b) = total_days a + total_days b.
Proof.
  induction a as [|p a IH]; [reflexivity|].
  cbn [app]. unfold total_days in *. cbn [fold_right]. rewrite IH. lia.
Qed.

Lemma last_default (a : period) (l : list period) (d d' : period) :
  last (a :: l) d = last (a :: l) d'.
Proof.
  revert a. induction l as [|b l IH]; intros a; [reflexivity|].
  change (last (a :: b :: l) d) with (last (b :: l) d).
  change (last (a :: b :: l) d') with (last (b :: l) d').
  apply IH.
Qed.

(** Periods that lie one after the other last, together, no longer than
    from the start of the first to the end of the last. *)
Lemma separated_span (first : period) (rest : list period) :
  Forall valid (first :: rest) ->
  StronglySorted (fun a b => p_end a < p_start b) (first :: rest) ->
  fold_right Z.add 0 (map (fun p => p_end p - p_start p) (first :: rest))
  <= p_end (last (first :: rest) first) - p_start first
  /\ p_start first <= p_end (last (first :: rest) first).
Proof.
  revert first. induction rest as [|b rest IH]; intros first Hv Hs.
  - cbn. inversion Hv as [|? ? V _]; subst. unfold valid in V. lia.
  - inversion Hv as [|? ? Va Vr]; subst.
    inversion Hs as [|? ? Hs' Hfa]; subst.
    inversion Hfa as [|? ? Hab _]; subst.
    destruct (IH b Vr Hs') as [H1 H2].
    assert (El : last (first :: b :: rest) first = last (b :: rest) b)
      by (change (last (first :: b :: rest) first) with (last (b :: rest) first);
          apply last_default).
    rewrite El. unfold valid in Va. cbn [map fold_right] in *. lia.
Qed.

(** So the whole days counted never exceed the days from the first start to
    the last end. *)
Lemma total_days_span (l : list period) :
  Forall valid l ->
  StronglySorted (fun a b => p_end a < p_start b) l ->
  match l with
  | [] => total_days l = 0
  | first :: _ =>
      0 <= total_days l
        <= days_between (p_start first) (p_end (last l first))
  end.
Proof.
  intros Hv Hs. destruct l as [|first rest]; [reflexivity|].
  destruct (separated_span first rest Hv Hs) as [H _].
  assert (Hd : forall l : list period,
             Forall valid l ->
             0 <= total_days l
             /\ total_days l * 86400000000
                <= fold_right Z.add 0 (map (fun p => p_end p - p_start p) l)).
  { clear. induction l as [|p l IH]; intros Hv; [cbn; lia|].
    inversion Hv as [|? ? Vp Vl]; subst. destruct (IH Vl) as [I0 I1].
    unfold valid in Vp.
    cbn [total_days fold_right map]. fold (total_days l).
    unfold days_between, microseconds_per_day.
    pose proof (Z.mul_div_le (p_end p - p_start p) 86400000000 ltac:(lia)).
    pose proof (Z.div_pos (p_end p - p_start p) 86400000000 ltac:(lia) ltac:(lia)).
    lia. }
  destruct (Hd _ Hv) as [D0 D1]. split; [exact D0|].
  unfold days_between, microseconds_per_day.
  apply Z.div_le_lower_bound; lia.
Qed.

(** C7: the aggregator keeps the periods of the entries that pass the
    checks (a start date that parses and is not in the future, an end not
    before the start, a duration of 30 days to 60 years), sorts them by start
    date, merges a period into the running one when it starts no later than
    the running one ends, and returns the merged days divided by 365 and the
    remaining days divided by 30, the merged days being the sum of the whole
    days of the merged periods.  The merged periods lie one after the other
    and cover exactly the instants the kept periods cover, so no day is
    counted twice: the merged days never exceed the days from the first
    start to the last end.  The entries [2018-01, 2020-01] and
    [2019-01, 2021-01] merge into the single period 2018-01-01..2021-01-01,
    3 years and 0 months; with [2015-01, 2016-01] before them there are two
    merged periods, of 365 and 1096 days, 4 years and 0 months. *)
Theorem C7_experience_aggregation (today : datetime) (l : list pyval) :
  let periods := collect_periods strptime B today l in
  let merged := merge_periods (sort_by_start periods) in
  let total := total_days merged in
  calculate_experience_from_details strptime B today (PList l)
  = (total / 365, total mod 365 / 30)
  /\ (forall p, In p periods <->
                exists exp d s,
                  In exp l /\ exp = PDict d
                  /\ parse_date_safely strptime B
                       (dict_get d (py "startDate") PNone) = Some s
                  /\ p = {| p_start := s;
                            p_end := match parse_date_safely strptime B
                                           (dict_get d (py "endDate") PNone)
                                     with
                                     | Some e => e
                                     | None => today
                                     end |}
                  /\ s <= today /\ s <= p_end p
                  /\ 30 <= days_between s (p_end p) <= 60 * 365)
  /\ Forall (fun p => p_start p <= today /\ p_start p <= p_end p
                      /\ 30 <= days_between (p_start p) (p_end p) <= 60 * 365)
       periods
  /\ StronglySorted by_start (sort_by_start periods)
  /\ Permutation periods (sort_by_start periods)
  /\ StronglySorted (fun a b => p_end a < p_start b) merged
  /\ (forall t, covered periods t <-> covered merged t)
  /\ merge_periods
       (sort_by_start
          (collect_periods year_month_strptime example_builtins
             (datetime_of 2026 11 3)
             [experience_entry "2018-01" "2020-01";
              experience_entry "2019-01" "2021-01"]))
     = [{| p_start := datetime_of 2018 1 1; p_end := datetime_of 2021 1 1 |}]
  /\ calculate_experience_from_details year_month_strptime example_builtins
       (datetime_of 2026 11 3)
       (PList [experience_entry "2018-01" "2020-01";
               experience_entry "2019-01" "2021-01"])
     = (3, 0)
  /\ total
     = fold_right Z.add 0
         (map (fun p => (p_end p - p_start p) / 86400000000) merged)
  /\ match merged with
     | [] => total = 0
     | first :: _ =>
         0 <= total
           <= days_between (p_start first) (p_end (last merged first))
     end
  /\ merge_periods
       (sort_by_start
          (collect_periods year_month_strptime example_builtins
             (datetime_of 2026 11 3)
             [experience_entry "2018-01" "2020-01";
              experience_entry "2015-01" "2016-01";
              experience_entry "2019-01" "2021-01"]))
     = [{| p_start := datetime_of 2015 1 1; p_end := datetime_of 2016 1 1 |};
        {| p_start := datetime_of 2018 1 1; p_end := datetime_of 2021 1 1 |}]
  /\ calculate_experience_from_details year_month_strptime example_builtins
       (datetime_of 2026 11 3)
       (PList [experience_entry "2018-01" "2020-01";
               experience_entry "2015-01" "2016-01";
               experience_entry "2019-01" "2021-01"])
     = (4, 0).
Proof.
  intros periods merged total.
  assert (Hkept : Forall (fun p => p_start p <= today /\ p_start p <= p_end p
                     /\ 30 <= days_between (p_start p) (p_end p) <= 60 * 365)
                    periods).
  { apply Forall_forall. intros p Hp.
    apply collect_periods_spec in Hp as [exp [_ He]].
    exact (entry_period_spec today exp p He). }
  destruct (sort_by_start_spec periods) as [Hsorted Hperm].
  assert (Hvalid : Forall valid (sort_by_start periods)).
  { apply (Permutation_Forall Hperm).
    eapply Forall_impl; [|exact Hkept]. unfold valid. tauto. }
  destruct (merge_periods_spec _ Hsorted Hvalid) as [Vm [Sm Cm]].
  split; [|split; [|split; [|split; [|split; [|split; [|split; [|split;
    [|split; [|split; [|split; [|split]]]]]]]]]]].
  - unfold calculate_experience_from_details.
    destruct l as [|e l'].
    + reflexivity.
    + fold periods. subst total merged.
      destruct periods as [|p ps]; reflexivity.
  - intros p. unfold periods. rewrite collect_periods_spec. split.
    + intros [exp [I H]]. apply entry_period_iff in H as [d [s H]].
      exists exp, d, s. tauto.
    + intros [exp [d [s [I H]]]]. exists exp. split; [exact I|].
      apply entry_period_iff. exists d, s. exact H.
  - exact Hkept.
  - exact Hsorted.
  - exact Hperm.
  - apply separated_pairwise; assumption.
  - intros t. unfold merged. rewrite <- Cm. unfold covered. split.
    + intros [p [I C]]. exists p. split; [|exact C].
      apply (Permutation_in _ Hperm), I.
    + intros [p [I C]]. exists p. split; [|exact C].
      apply (Permutation_in _ (Permutation_sym Hperm)), I.
  - vm_compute. reflexivity.
  - vm_compute. reflexivity.
  - apply total_days_sum.
  - exact (total_days_span merged Vm (separated_pairwise merged Vm Sm)).
  - vm_compute. reflexivity.
  - vm_compute. reflexivity.
Qed.

End Aggregation.

(** The example of the two overlapping entries, on any day from 2019 on. *)

Section AggregationExample.
Local Open Scope Z_scope.

Lemma entry_period_example (today : datetime) (a b : string) (s e : datetime) :
  parse_date_safely year_month_strptime example_builtins (PStr (py a)) = Some s ->
  parse_date_safely year_month_strptime example_builtins (PStr (py b)) = Some e ->
  s <= today -> s <= e -> 30 <= days_between s e <= 60 * 365 ->
  entry_period year_month_strptime example_builtins today (experience_entry a b)
  = Some {| p_start := s; p_end := e |}.
Proof.
  intros Ha Hb H1 H2 H3. apply entry_period_iff.
  exists [(py "startDate", PStr (py a)); (py "endDate", PStr (py b))], s.
  split; [reflexivity|].
  change (dict_get _ (py "startDate") PNone) with (PStr (py a)).
  change (dict_get [(py "startDate", PStr (py a)); (py "endDate", PStr (py b))]
            (py "endDate") PNone) with (PStr (py b)).
  rewrite Ha, Hb. cbn [p_end]. repeat split; auto; lia.
Qed.

Lemma overlapping_entries_any_day (today : datetime) :
  datetime_of 2019 1 1 <= today ->
  calculate_experience_from_details year_month_strptime example_builtins today
    (PList [experience_entry "2018-01" "2020-01";
            experience_entry "2019-01" "2021-01"]) = (3, 0).
Proof.
  intros H. unfold calculate_experience_from_details. cbn [collect_periods].
  rewrite (entry_period_example today "2018-01" "2020-01"
             (datetime_of 2018 1 1) (datetime_of 2020 1 1));
    try reflexivity;
    [| eapply Z.le_trans; [|exact H]; vm_compute; discriminate
     | vm_compute; discriminate
     | vm_compute; split; discriminate ].
  rewrite (entry_period_example today "2019-01" "2021-01"
             (datetime_of 2019 1 1) (datetime_of 2021 1 1));
    try reflexivity;
    [ exact H | vm_compute; discriminate | vm_compute; split; discriminate ].
Qed.

End AggregationExample.

(** ** The schema normaliser *)

Section Normalisation.
Variable B : builtins.

Lemma dict_find_set_same (d : dict) (k : str) (v : pyval) :
  dict_find (dict_set d k v) k = Some v.
Proof.
  induction d as [|[k0 v0] d IH]; cbn [dict_set dict_find].
  - rewrite str_eqb_refl. reflexivity.
  - destruct (str_eqb k0 k) eqn:E; cbn [dict_find]; rewrite E;
      [reflexivity | exact IH].
Qed.

Lemma dict_find_set_other (d : dict) (k k' : str) (v : pyval) :
  str_eqb k k' = false ->
  dict_find (dict_set d k v) k' = dict_find d k'.
Proof.
  intros N. induction d as [|[k0 v0] d IH]; cbn [dict_set dict_find].
  - rewrite N. reflexivity.
  - destruct (str_eqb k0 k) eqn:E; cbn [dict_find].
    + apply str_eqb_eq in E; subst k0. rewrite N. reflexivity.
    + destruct (str_eqb k0 k'); [reflexivity | exact IH].
Qed.

Lemma field_missing_set (d : dict) (k f : str) (v : pyval) :
  is_none v = false -> field_missing d f = false ->
  field_missing (dict_set d k v) f = false.
Proof.
  intros Hv Hf. unfold field_missing in *.
  destruct (str_eqb k f) eqn:E.
  - apply str_eqb_eq in E; subst f. rewrite dict_find_set_same.
    destruct v; try reflexivity. discriminate Hv.
  - rewrite dict_find_set_other by exact E. exact Hf.
Qed.

Lemma field_missing_update (other d : dict) (f : str) :
  Forall (fun kv => is_none (snd kv) = false) other ->
  field_missing d f = false ->
  field_missing (dict_update d other) f = false.
Proof.
  unfold dict_update. revert d.
  induction other as [|[k v] other IH]; intros d Ho Hd; cbn [fold_left].
  - exact Hd.
  - inversion Ho as [|? ? Hk Ho']; subst. apply IH; [exact Ho'|].
    apply field_missing_set; assumption.
Qed.

(** After the merge every required field is there, and not null. *)
Lemma with_defaults_required (data : dict) (doc_type : str) :
  Forall (fun f => field_missing (with_defaults data doc_type) f = false)
    (required_fields doc_type).
Proof.
  unfold with_defaults.
  destruct (filter (field_missing data) (required_fields doc_type)) eqn:E.
  - apply Forall_forall. intros f Hf.
    destruct (field_missing data f) eqn:M; [|reflexivity].
    assert (I : In f (filter (field_missing data) (required_fields doc_type)))
      by (apply filter_In; auto).
    rewrite E in I. destruct I.
  - apply Forall_forall. intros f Hf.
    apply field_missing_update.
    + apply Forall_forall. intros kv Hkv. apply filter_In in Hkv as [_ H].
      destruct (is_none (snd kv)); [discriminate H | reflexivity].
    + unfold required_fields, get_default_structure in *.
      destruct (str_eqb doc_type job_description);
        cbn [In] in Hf; decompose [or] Hf; subst; try contradiction;
        reflexivity.
Qed.

Lemma ensure_list_find (d : dict) (k : str) :
  field_is (ensure_list d k) k is_list.
Proof.
  unfold ensure_list, field_is.
  destruct (dict_find d k) as [v|] eqn:E.
  - destruct v; try (rewrite dict_find_set_same; eexists; split; reflexivity).
    eexists; split; [exact E | reflexivity].
  - rewrite dict_find_set_same. eexists; split; reflexivity.
Qed.

Lemma ensure_list_other (d : dict) (k k' : str) :
  str_eqb k k' = false ->
  dict_find (ensure_list d k) k' = dict_find d k'.
Proof.
  intros N. unfold ensure_list.
  destruct (dict_find d k) as [[]|]; try reflexivity;
    apply dict_find_set_other, N.
Qed.

Lemma ensure_list_missing (d : dict) (k f : str) :
  field_missing d f = false -> field_missing (ensure_list d k) f = false.
Proof.
  intros H. unfold ensure_list.
  destruct (dict_find d k) as [[]|]; try exact H;
    apply field_missing_set; auto.
Qed.

Lemma keep_skill_named (l : list pyval) :
  forallb named_skill (flat_map keep_skill l) = true.
Proof.
  induction l as [|s l IH]; [reflexivity|].
  cbn [flat_map]. rewrite forallb_app, IH, andb_true_r.
  destruct s as [| | | |s| |d]; try reflexivity.
  - cbn [keep_skill]. destruct (strip s); reflexivity.
  - cbn [keep_skill]. destruct (dict_find d (py "name")) as [n|] eqn:E;
      [|reflexivity].
    destruct (truthy n) eqn:T; [|reflexivity].
    cbn [forallb named_skill]. rewrite E, T. reflexivity.
Qed.

Lemma stripped_strings_nonblank (l : list pyval) :
  forallb nonblank_string (stripped_strings B l) = true.
Proof.
  unfold stripped_strings. induction l as [|s l IH]; [reflexivity|].
  cbn [filter]. destruct (truthy s); cbn [andb]; [|exact IH].
  destruct (strip (py_str B s)) eqn:E; [exact IH|].
  cbn [map forallb]. rewrite E. exact IH.
Qed.

Lemma string_list_field_find (d : dict) (k : str) :
  field_is (string_list_field B d k) k (list_of nonblank_string).
Proof.
  unfold string_list_field, field_is.
  destruct (dict_find d k) as [[]|]; rewrite dict_find_set_same;
    eexists; split; try reflexivity.
  apply stripped_strings_nonblank.
Qed.

Lemma string_list_field_other (d : dict) (k k' : str) :
  str_eqb k k' = false ->
  dict_find (string_list_field B d k) k' = dict_find d k'.
Proof.
  intros N. unfold string_list_field.
  destruct (dict_find d k) as [[]|]; apply dict_find_set_other, N.
Qed.

Lemma string_list_field_missing (d : dict) (k f : str) :
  field_missing d f = false ->
  field_missing (string_list_field B d k) f = false.
Proof.
  intros H. unfold string_list_field.
  destruct (dict_find d k) as [[]|]; apply field_missing_set; auto.
Qed.

(** What the body of the validation establishes when it does not raise. *)
Lemma validate_body_ok (data data' : dict) (doc_type : str) :
  validate_body B data doc_type = Ok data' ->
  validated data' doc_type
  /\ forall f, field_missing data f = false -> field_missing data' f = false.
Proof.
  unfold validate_body, validated.
  destruct (str_eqb doc_type resume).
  - set (num := py "totalYearsExperience").
    intros H.
    assert (Hnum : exists z,
               data' =
               ensure_list
                 (ensure_list
                    (match dict_find (dict_set data num (PInt z)) (py "skills")
                     with
                     | Some (PList l) =>
                         dict_set (dict_set data num (PInt z)) (py "skills")
                           (PList (flat_map keep_skill l))
                     | _ => dict_set (dict_set data num (PInt z)) (py "skills")
                              (PList [])
                     end) (py "education")) (py "experienceDetails")).
    { destruct (dict_find data num) as [val|].
      - destruct val as [|vb|vz|vf|vs|vl|vd]; cbn [bind] in H;
          try (injection H as <-; eexists; reflexivity);
          destruct (int_or_zero B _) as [z|e]; cbn [bind] in H;
          try discriminate H; injection H as <-; eexists; reflexivity.
      - cbn [bind] in H. injection H as <-. eexists; reflexivity. }
    destruct Hnum as [z ->]. clear H.
    set (d1 := dict_set data num (PInt z)).
    set (d2 := match dict_find d1 (py "skills") with
               | Some (PList l) =>
                   dict_set d1 (py "skills") (PList (flat_map keep_skill l))
               | _ => dict_set d1 (py "skills") (PList [])
               end).
    assert (H2 : field_is d2 (py "skills") (list_of named_skill)).
    { unfold d2, field_is.
      destruct (dict_find d1 (py "skills")) as [[]|];
        rewrite dict_find_set_same; eexists; split; try reflexivity.
      apply keep_skill_named. }
    assert (O2 : forall k', str_eqb (py "skills") k' = false ->
                            dict_find d2 k' = dict_find d1 k').
    { intros k' N. unfold d2.
      destruct (dict_find d1 (py "skills")) as [[]|];
        apply dict_find_set_other, N. }
    split; [split; [|split; [|split]]|].
    + unfold field_is.
      rewrite !ensure_list_other, O2 by reflexivity.
      unfold d1. rewrite dict_find_set_same. eexists; split; reflexivity.
    + unfold field_is in *. rewrite !ensure_list_other by reflexivity. exact H2.
    + unfold field_is.
      rewrite ensure_list_other by reflexivity. apply ensure_list_find.
    + apply ensure_list_find.
    + intros f Hf. apply ensure_list_missing, ensure_list_missing.
      assert (H1 : field_missing d1 f = false)
        by (apply field_missing_set; auto).
      unfold d2. destruct (dict_find d1 (py "skills")) as [[]|];
        apply field_missing_set; auto.
  - set (num := py "minExperienceYears").
    intros H.
    assert (Hnum : exists z,
               data' =
               string_list_field B
                 (string_list_field B (dict_set data num (PInt z))
                    (py "requiredSkills")) (py "preferredSkills")).
    { destruct (dict_find data num) as [val|].
      - destruct val as [|vb|vz|vf|vs|vl|vd]; cbn [bind] in H;
          try (injection H as <-; eexists; reflexivity);
          destruct (int_or_zero B _) as [z|e]; cbn [bind] in H;
          try discriminate H; injection H as <-; eexists; reflexivity.
      - cbn [bind] in H. injection H as <-. eexists; reflexivity. }
    destruct Hnum as [z ->]. clear H.
    split; [split; [|split]|].
    + unfold field_is.
      rewrite !string_list_field_other by reflexivity.
      rewrite dict_find_set_same. eexists; split; reflexivity.
    + unfold field_is.
      rewrite string_list_field_other by reflexivity.
      apply string_list_field_find.
    + apply string_list_field_find.
    + intros f Hf. apply string_list_field_missing, string_list_field_missing.
      apply field_missing_set; auto.
Qed.

(** The body raises only where the number does not convert. *)
Lemma validate_body_converts (data : dict) (doc_type : str) :
  (forall val, dict_find data (number_field doc_type) = Some val ->
               is_none val = false -> exists z, int_or_zero B val = Ok z) ->
  exists data', validate_body B data doc_type = Ok data'.
Proof.
  unfold validate_body, number_field.
  destruct (str_eqb doc_type resume); intros H.
  - destruct (dict_find data (py "totalYearsExperience")) as [val|];
      [|cbn [bind]; eexists; reflexivity].
    destruct (is_none val) eqn:N.
    + destruct val; try discriminate N. cbn [bind]. eexists; reflexivity.
    + destruct (H val eq_refl N) as [z Hz].
      destruct val as [|vb|vz|vf|vs|vl|vd]; try discriminate N;
        rewrite Hz; cbn [bind]; eexists; reflexivity.
  - destruct (dict_find data (py "minExperienceYears")) as [val|];
      [|cbn [bind]; eexists; reflexivity].
    destruct (is_none val) eqn:N.
    + destruct val; try discriminate N. cbn [bind]. eexists; reflexivity.
    + destruct (H val eq_refl N) as [z Hz].
      destruct val as [|vb|vz|vf|vs|vl|vd]; try discriminate N;
        rewrite Hz; cbn [bind]; eexists; reflexivity.
Qed.

(** *** The record, field by field *)

Lemma str_eqb_sym (a b : str) : str_eqb a b = str_eqb b a.
Proof.
  destruct (str_eqb a b) eqn:E.
  - apply str_eqb_eq in E. subst b. symmetry. apply str_eqb_refl.
  - destruct (str_eqb b a) eqn:E'; [|reflexivity].
    apply str_eqb_eq in E'. subst b. rewrite str_eqb_refl in E. discriminate E.
Qed.

Lemma dict_find_not_in (d : dict) (k : str) :
  ~ In k (map fst d) -> dict_find d k = None.
Proof.
  induction d as [|[k0 v0] d IH]; intros N; [reflexivity|].
  cbn [dict_find]. destruct (str_eqb k0 k) eqn:E.
  - apply str_eqb_eq in E. subst k0. exfalso. apply N. left. reflexivity.
  - apply IH. intros H. apply N. right. exact H.
Qed.

(** [d.update(other)]: the fields of [other], then those of [d]. *)
Lemma dict_find_update (other : dict) (k : str) :
  NoDup (map fst other) ->
  forall d : dict,
    dict_find (dict_update d other) k
    = match dict_find other k with
      | Some v => Some v
      | None => dict_find d k
      end.
Proof.
  unfold dict_update.
  induction other as [|[k0 v0] other IH]; intros ND d; [reflexivity|].
  cbn [fold_left fst snd]. cbn [map fst] in ND.
  inversion ND as [|? ? Hn ND']; subst.
  rewrite (IH ND'). cbn [dict_find].
  destruct (str_eqb k0 k) eqn:E.
  - apply str_eqb_eq in E. subst k0.
    rewrite (dict_find_not_in other k Hn). apply dict_find_set_same.
  - destruct (dict_find other k); [reflexivity|].
    apply dict_find_set_other, E.
Qed.

Lemma filter_keys_nodup (f : str * pyval -> bool) (d : dict) :
  NoDup (map fst d) -> NoDup (map fst (filter f d)).
Proof.
  induction d as [|[k0 v0] d IH]; intros ND; [constructor|].
  cbn [map fst] in ND. inversion ND as [|? ? Hn ND']; subst.
  cbn [filter]. destruct (f (k0, v0)); [|exact (IH ND')].
  cbn [map fst]. constructor; [|exact (IH ND')].
  intros H. apply Hn. apply in_map_iff in H as [[k v] [Ek Hin]].
  apply filter_In in Hin as [Hin _]. apply in_map_iff.
  exists (k, v). auto.
Qed.

(** The fields of an object that are not null. *)
Lemma dict_find_not_null (d : dict) (k : str) :
  NoDup (map fst d) ->
  dict_find (filter (fun kv => negb (is_none (snd kv))) d) k
  = match dict_find d k with
    | Some v => if is_none v then None else Some v
    | None => None
    end.
Proof.
  induction d as [|[k0 v0] d IH]; intros ND; [reflexivity|].
  cbn [map fst] in ND. inversion ND as [|? ? Hn ND']; subst.
  cbn [filter snd dict_find].
  destruct (str_eqb k0 k) eqn:E.
  - apply str_eqb_eq in E. subst k0.
    destruct (is_none v0) eqn:N; cbn [negb].
    + rewrite (IH ND'), (dict_find_not_in d k Hn). reflexivity.
    + cbn [dict_find]. rewrite str_eqb_refl. reflexivity.
  - destruct (is_none v0); cbn [negb]; [exact (IH ND')|].
    cbn [dict_find]. rewrite E. exact (IH ND').
Qed.

(** The merge, field by field. *)
Lemma merged_field_spec (data : dict) (doc_type : str) (k : str) :
  NoDup (map fst data) ->
  dict_find (with_defaults data doc_type) k = merged_field data doc_type k.
Proof.
  intros ND. unfold with_defaults, merged_field, complete.
  destruct (filter (field_missing data) (required_fields doc_type)) eqn:E.
  - assert (C : forallb (fun f => negb (field_missing data f))
                  (required_fields doc_type) = true).
    { apply forallb_forall. intros f Hf.
      destruct (field_missing data f) eqn:M; [|reflexivity].
      assert (I : In f (filter (field_missing data) (required_fields doc_type)))
        by (apply filter_In; auto).
      rewrite E in I. destruct I. }
    rewrite C. reflexivity.
  - assert (C : forallb (fun f => negb (field_missing data f))
                  (required_fields doc_type) = false).
    { destruct (forallb _ _) eqn:C; [|reflexivity].
      rewrite forallb_forall in C.
      assert (I : In s (filter (field_missing data) (required_fields doc_type)))
        by (rewrite E; left; reflexivity).
      apply filter_In in I as [I M]. specialize (C s I).
      rewrite M in C. discriminate C. }
    rewrite C.
    rewrite dict_find_update by (apply filter_keys_nodup, ND).
    rewrite (dict_find_not_null data k ND).
    destruct (dict_find data k) as [v|]; [|reflexivity].
    destruct (is_none v); reflexivity.
Qed.

Lemma ensure_list_value (d : dict) (k : str) :
  dict_find (ensure_list d k) k
  = Some (match dict_find d k with
          | Some (PList l) => PList l
          | _ => PList []
          end).
Proof.
  unfold ensure_list.
  destruct (dict_find d k) as [v|] eqn:E.
  - destruct v; try apply dict_find_set_same. exact E.
  - apply dict_find_set_same.
Qed.

Lemma string_list_field_value (d : dict) (k : str) :
  dict_find (string_list_field B d k) k
  = Some (PList (match dict_find d k with
                 | Some (PList l) => stripped_strings B l
                 | _ => []
                 end)).
Proof.
  unfold string_list_field.
  destruct (dict_find d k) as [[]|]; apply dict_find_set_same.
Qed.

(** The validation, field by field: what its body returns holds, for every
    field, the value that [typed_field] gives. *)
Lemma validate_body_fields (data data' : dict) (doc_type : str) :
  validate_body B data doc_type = Ok data' ->
  forall k, dict_find data' k = typed_field B doc_type k (dict_find data k).
Proof.
  unfold validate_body, typed_field.
  destruct (str_eqb doc_type resume).
  - set (num := py "totalYearsExperience").
    intros H.
    assert (Hnum :
      data' =
      ensure_list
        (ensure_list
           (match dict_find
                    (dict_set data num (PInt (number_of B (dict_find data num))))
                    (py "skills")
            with
            | Some (PList l) =>
                dict_set
                  (dict_set data num (PInt (number_of B (dict_find data num))))
                  (py "skills") (PList (flat_map keep_skill l))
            | _ =>
                dict_set
                  (dict_set data num (PInt (number_of B (dict_find data num))))
                  (py "skills") (PList [])
            end) (py "education")) (py "experienceDetails")).
    { destruct (dict_find data num) as [val|].
      - destruct val as [|vb|vz|vf|vs|vl|vd]; cbn [bind] in H;
          try (injection H as <-; reflexivity);
          cbn [number_of];
          destruct (int_or_zero B _) as [z|e]; cbn [bind] in H;
          try discriminate H; injection H as <-; reflexivity.
      - cbn [bind] in H. injection H as <-. reflexivity. }
    rewrite Hnum. clear H Hnum.
    set (z := number_of B (dict_find data num)).
    set (d1 := dict_set data num (PInt z)).
    set (d2 := match dict_find d1 (py "skills") with
               | Some (PList l) =>
                   dict_set d1 (py "skills") (PList (flat_map keep_skill l))
               | _ => dict_set d1 (py "skills") (PList [])
               end).
    assert (O1 : forall k', str_eqb num k' = false ->
                            dict_find d1 k' = dict_find data k')
      by (intros k' N; apply dict_find_set_other, N).
    assert (O2 : forall k', str_eqb (py "skills") k' = false ->
                            dict_find d2 k' = dict_find d1 k').
    { intros k' N. unfold d2.
      destruct (dict_find d1 (py "skills")) as [[]|];
        apply dict_find_set_other, N. }
    assert (S2 : dict_find d2 (py "skills")
                 = Some (PList (match dict_find data (py "skills") with
                                | Some (PList l) => flat_map keep_skill l
                                | _ => []
                                end))).
    { unfold d2. rewrite (O1 (py "skills")) by reflexivity.
      destruct (dict_find data (py "skills")) as [[]|];
        apply dict_find_set_same. }
    intros k.
    destruct (str_eqb k num) eqn:K1.
    { apply str_eqb_eq in K1. subst k.
      rewrite !ensure_list_other, O2 by reflexivity.
      unfold d1. apply dict_find_set_same. }
    destruct (str_eqb k (py "skills")) eqn:K2.
    { apply str_eqb_eq in K2. subst k.
      rewrite !ensure_list_other by reflexivity. exact S2. }
    destruct (str_eqb k (py "education")) eqn:K3.
    { apply str_eqb_eq in K3. subst k. cbn [orb].
      rewrite ensure_list_other by reflexivity.
      rewrite ensure_list_value, O2, O1 by reflexivity. reflexivity. }
    destruct (str_eqb k (py "experienceDetails")) eqn:K4.
    { apply str_eqb_eq in K4. subst k. cbn [orb].
      rewrite ensure_list_value.
      rewrite ensure_list_other, O2, O1 by reflexivity. reflexivity. }
    cbn [orb]. rewrite str_eqb_sym in K1, K2, K3, K4.
    rewrite !ensure_list_other, O2, O1 by assumption. reflexivity.
  - set (num := py "minExperienceYears").
    intros H.
    assert (Hnum :
      data' =
      string_list_field B
        (string_list_field B
           (dict_set data num (PInt (number_of B (dict_find data num))))
           (py "requiredSkills")) (py "preferredSkills")).
    { destruct (dict_find data num) as [val|].
      - destruct val as [|vb|vz|vf|vs|vl|vd]; cbn [bind] in H;
          try (injection H as <-; reflexivity);
          cbn [number_of];
          destruct (int_or_zero B _) as [z|e]; cbn [bind] in H;
          try discriminate H; injection H as <-; reflexivity.
      - cbn [bind] in H. injection H as <-. reflexivity. }
    rewrite Hnum. clear H Hnum.
    set (z := number_of B (dict_find data num)).
    set (d1 := dict_set data num (PInt z)).
    assert (O1 : forall k', str_eqb num k' = false ->
                            dict_find d1 k' = dict_find data k')
      by (intros k' N; apply dict_find_set_other, N).
    intros k.
    destruct (str_eqb k num) eqn:K1.
    { apply str_eqb_eq in K1. subst k.
      rewrite !string_list_field_other by reflexivity.
      unfold d1. apply dict_find_set_same. }
    destruct (str_eqb k (py "requiredSkills")) eqn:K2.
    { apply str_eqb_eq in K2. subst k. cbn [orb].
      rewrite string_list_field_other by reflexivity.
      rewrite string_list_field_value, O1 by reflexivity. reflexivity. }
    destruct (str_eqb k (py "preferredSkills")) eqn:K3.
    { apply str_eqb_eq in K3. subst k. cbn [orb].
      rewrite string_list_field_value.
      rewrite string_list_field_other, O1 by reflexivity. reflexivity. }
    cbn [orb]. rewrite str_eqb_sym in K1, K2, K3.
    rewrite !string_list_field_other, O1 by assumption. reflexivity.
Qed.

(** C3, amended: the normalisation always returns a record.  In it every
    required field of the schema is there and not null; when the number
    that reaches the conversion converts, the fields that the validation
    types are typed: for a resume, [totalYearsExperience] an integer,
    [skills] a list of dicts with a true [name], [education] and
    [experienceDetails] lists; for a job description, [minExperienceYears] an
    integer, [requiredSkills] and [preferredSkills] lists of non-empty
    strings.  When the parse gave nothing or the empty object, the record is
    the default one, with every field the schema declares.  Otherwise the
    record is the object, field by field ([normalized_field]): the fields of
    the defaults are added, and replace the null fields, only when a
    required field is missing or null; then the fields that the validation
    types are converted; every other field, [role] and [jobTitle] among
    them, keeps the value it came with, whatever its type. *)
Theorem C3_normalized_record (data : option dict) (doc_type : str) :
  doc_type = resume \/ doc_type = job_description ->
  let r := parse_with_validation B data doc_type in
  Forall (fun f => field_missing r f = false) (required_fields doc_type)
  /\ (number_converts B data doc_type -> validated r doc_type)
  /\ (data = None \/ data = Some [] ->
      r = get_default_structure doc_type
      /\ Forall (fun f => dict_has r f = true) (schema_fields doc_type))
  /\ (forall d, data = Some d -> d <> [] -> NoDup (map fst d) ->
      number_converts B data doc_type ->
      forall k, dict_find r k = normalized_field B d doc_type k).
Proof.
  intros Hdt r.
  assert (Hdefault :
    Forall (fun f => field_missing (get_default_structure doc_type) f = false)
      (required_fields doc_type)
    /\ validated (get_default_structure doc_type) doc_type
    /\ Forall (fun f => dict_has (get_default_structure doc_type) f = true)
         (schema_fields doc_type)).
  { destruct Hdt as [-> | ->].
    - split; [repeat constructor|]. split; [|repeat constructor].
      unfold validated, field_is. cbn [str_eqb].
      change (str_eqb resume resume) with true. cbv iota.
      repeat split; eexists; split; reflexivity.
    - split; [repeat constructor|]. split; [|repeat constructor].
      unfold validated, field_is.
      change (str_eqb job_description resume) with false. cbv iota.
      repeat split; eexists; split; reflexivity. }
  destruct Hdefault as [D1 [D2 D3]].
  destruct data as [[|kv d]|].
  - subst r. cbn [parse_with_validation].
    split; [exact D1|]. split; [intros _; exact D2|].
    split; [intros _; split; [reflexivity | exact D3]|].
    intros d' E N. injection E as <-. congruence.
  - subst r. cbn [parse_with_validation]. unfold validate_data_types.
    pose proof (with_defaults_required (kv :: d) doc_type) as Hreq.
    destruct (validate_body B (with_defaults (kv :: d) doc_type) doc_type)
      as [data'|e] eqn:Ev.
    + destruct (validate_body_ok _ _ _ Ev) as [Hv Hm].
      split; [|split; [|split]].
      * eapply Forall_impl; [|exact Hreq]. intros f Hf. apply Hm, Hf.
      * intros _. exact Hv.
      * intros [H|H]; discriminate H.
      * intros d' E _ ND _ k. injection E as <-.
        rewrite (validate_body_fields _ _ _ Ev k).
        unfold normalized_field. rewrite merged_field_spec by exact ND.
        reflexivity.
    + assert (Hno : ~ number_converts B (Some (kv :: d)) doc_type).
      { intros Hc. cbn [number_converts] in Hc.
        destruct (validate_body_converts _ _ Hc) as [data' Hd].
        rewrite Hd in Ev. discriminate Ev. }
      split; [exact Hreq|]. split; [intros Hc; contradiction|].
      split; [intros [H|H]; discriminate H|].
      intros d' _ _ _ Hc. contradiction.
  - subst r. cbn [parse_with_validation].
    split; [exact D1|]. split; [intros _; exact D2|].
    split; [intros _; split; [reflexivity | exact D3]|].
    intros d' E. discriminate E.
Qed.

End Normalisation.

(** C3, counterexample: a resume object that has the four required fields
    keeps the shape it came with: the declared fields [summary] and
    [certifications] are absent from the result, and a [role] that is a
    number stays a number. *)
Lemma C3_counterexample :
  In (py "summary") (schema_fields resume)
  /\ In (py "certifications") (schema_fields resume)
  /\ dict_has
       (parse_with_validation example_builtins
          (Some [(py "role", PInt 5);
                 (py "totalYearsExperience", PInt 3);
                 (py "skills", PList []);
                 (py "education", PList [])]) resume)
       (py "summary") = false
  /\ dict_has
       (parse_with_validation example_builtins
          (Some [(py "role", PInt 5);
                 (py "totalYearsExperience", PInt 3);
                 (py "skills", PList []);
                 (py "education", PList [])]) resume)
       (py "certifications") = false
  /\ dict_find
       (parse_with_validation example_builtins
          (Some [(py "role", PInt 5);
                 (py "totalYearsExperience", PInt 3);
                 (py "skills", PList []);
                 (py "education", PList [])]) resume)
       (py "role") = Some (PInt 5).
Proof.
  split; [vm_compute; tauto|]. split; [vm_compute; tauto|].
  repeat split; reflexivity.
Qed.

Lemma C3_normalized_record_witness :
  let d := [(py "role", PStr (py "Engineer"));
            (py "totalYearsExperience", PStr (py "3"));
            (py "skills", PList [PStr (py " Python "); PInt 7]);
            (py "summary", PNone)] in
  let r := parse_with_validation example_builtins (Some d) resume in
  validated r resume
  /\ forall k, dict_find r k = normalized_field example_builtins d resume k.
Proof.
  intros d r.
  destruct (C3_normalized_record example_builtins (Some d) resume
              (or_introl eq_refl)) as [_ [H [_ F]]].
  assert (Hc : number_converts example_builtins (Some d) resume).
  { intros val Hval _. vm_compute in Hval. injection Hval as <-.
    exists 3%Z. vm_compute. reflexivity. }
  split; [exact (H Hc)|].
  apply (F d eq_refl); [discriminate | | exact Hc].
  repeat constructor; cbn [In]; intuition discriminate.
Defined.

(** * Further properties of the code *)

Import PostProcess SkillsHelpers LlmExtraction Invariants.

(** ** The recovery of a JSON text *)


Section MoreRecovery.

Lemma find_from_split (c : ascii) (s : str) :
  In c s ->
  forall i : Z,
  exists pre t, s = pre ++ c :: t /\ ~ In c pre
                /\ find_from i c s = (i + Z.of_nat (length pre))%Z.
Proof.
  induction s as [|x s IH]; intros Hin i; [destruct Hin|].
  cbn [find_from]. destruct (chr_eqb x c) eqn:E.
  - apply chr_eqb_eq in E; subst x. exists [], s.
    split; [reflexivity|]. split; [intros []|simpl; lia].
  - apply chr_eqb_neq in E. destruct Hin as [Hin|Hin]; [congruence|].
    destruct (IH Hin (i + 1)%Z) as [pre [t [H1 [H2 H3]]]].
    exists (x :: pre), t. split; [simpl; f_equal; exact H1|].
    split; [intros [H|H]; [congruence|auto]|].
    rewrite H3. cbn [length]. lia.
Qed.

Lemma find_split (c : ascii) (s : str) :
  In c s ->
  exists pre t, s = pre ++ c :: t /\ ~ In c pre
                /\ find c s = Z.of_nat (length pre).
Proof. intros H. exact (find_from_split c s H 0%Z). Qed.

Lemma rfind_from_split (c : ascii) (s : str) :
  In c s ->
  forall i last : Z,
  exists pre t, s = pre ++ c :: t /\ ~ In c t
                /\ rfind_from i last c s = (i + Z.of_nat (length pre))%Z.
Proof.
  induction s as [|x s IH]; intros Hin i last; [destruct Hin|].
  cbn [rfind_from].
  destruct (in_dec ascii_dec c s) as [Hs|Hs].
  - destruct (IH Hs (i + 1)%Z (if chr_eqb x c then i else last))
      as [pre [t [H1 [H2 H3]]]].
    exists (x :: pre), t. split; [simpl; f_equal; exact H1|].
    split; [exact H2|]. rewrite H3. cbn [length]. lia.
  - destruct Hin as [Hin|Hin]; [subst x|contradiction].
    exists [], s. split; [reflexivity|]. split; [exact Hs|].
    assert (G : forall (s : str) i last, ~ In c s -> rfind_from i last c s = last).
    { clear. induction s as [|y s IH]; intros i last H; [reflexivity|].
      cbn [rfind_from]. destruct (chr_eqb y c) eqn:E.
      - apply chr_eqb_eq in E. subst y. exfalso. apply H. left. reflexivity.
      - apply IH. intros H'. apply H. right. exact H'. }
    rewrite G by exact Hs.
    replace (chr_eqb c c) with true by (symmetry; apply chr_eqb_eq; reflexivity).
    simpl. lia.
Qed.

Lemma rfind_split (c : ascii) (s : str) :
  In c s ->
  exists pre t, s = pre ++ c :: t /\ ~ In c t
                /\ rfind c s = Z.of_nat (length pre).
Proof. intros H. exact (rfind_from_split c s H 0%Z (-1)%Z). Qed.

(** The slice [s[start:end+1]] between the first [a] and a later last [b]. *)
Lemma slice_between (a b : ascii) (s : str) :
  In a s -> In b s -> (find a s < rfind b s)%Z ->
  exists pre m post,
    s = pre ++ (a :: m ++ [b]) ++ post
    /\ ~ In a pre /\ ~ In b post
    /\ slice_to (rfind b s + 1 - find a s) (slice_from (find a s) s)
       = a :: m ++ [b].
Proof.
  intros Ha Hb Hlt.
  destruct (find_split a s Ha) as [pre [t [E1 [N1 F1]]]].
  destruct (rfind_split b s Hb) as [pre2 [post [E2 [N2 F2]]]].
  rewrite F1, F2 in *.
  assert (Hl : length pre < length pre2) by lia.
  assert (Hp : exists m, pre2 = pre ++ a :: m).
  { assert (E : firstn (length pre2) s = pre2).
    { rewrite E2. rewrite firstn_app, firstn_all, Nat.sub_diag. simpl.
      apply app_nil_r. }
    rewrite E1 in E. rewrite firstn_app in E.
    rewrite firstn_all2 in E by lia.
    destruct (length pre2 - length pre) as [|n] eqn:En; [lia|].
    cbn [firstn] in E. eexists. symmetry. exact E. }
  destruct Hp as [m Hm]. subst pre2.
  exists pre, m, post.
  assert (Es : s = pre ++ (a :: m ++ [b]) ++ post).
  { rewrite E2. repeat (rewrite <- app_assoc; cbn [app]). reflexivity. }
  split; [exact Es|]. split; [exact N1|]. split; [exact N2|].
  unfold slice_to, slice_from. rewrite Nat2Z.id.
  assert (Esk : skipn (length pre) s = (a :: m ++ [b]) ++ post).
  { rewrite Es at 1. rewrite skipn_app, skipn_all, Nat.sub_diag. reflexivity. }
  rewrite Esk.
  replace (Z.to_nat _) with (length (a :: m ++ [b]))
    by (rewrite length_app in *; cbn [length] in *; rewrite length_app; cbn [length]; lia).
  rewrite firstn_app, firstn_all, Nat.sub_diag. cbn [firstn].
  apply app_nil_r.
Qed.

Lemma auto_complete_json_brace (t : str) :
  exists k, auto_complete_json (lbrace :: t) = lbrace :: k.
Proof.
  rewrite auto_complete_json_shape.
  destruct (kept_text_brace t) as [k ->]. eexists. reflexivity.
Qed.

(** The three outcomes of [extract_json_string], by the braces of the cleaned
    response. *)
Lemma extract_json_string_cases (s : str) :
  let t := remove_fences s in
  (~ In lbrace t /\ extract_json_string s = None)
  \/ (In lbrace t /\ ~ In rbrace t /\
      exists pre r, t = pre ++ lbrace :: r /\ ~ In lbrace pre
        /\ extract_json_string s = Some (auto_complete_json (lbrace :: r)))
  \/ (In lbrace t /\ In rbrace t /\ (rfind rbrace t <= find lbrace t)%Z
      /\ extract_json_string s = None)
  \/ (In lbrace t /\ In rbrace t /\ (find lbrace t < rfind rbrace t)%Z /\
      extract_json_string s
      = Some (slice_to (rfind rbrace t + 1 - find lbrace t)
                (slice_from (find lbrace t) t))).
Proof.
  destruct s as [|c0 s0].
  { left. split; [intros []|reflexivity]. }
  set (s := c0 :: s0). intros t.
  assert (Ex : extract_json_string s =
    if (find lbrace t =? -1)%Z then None
    else if (rfind rbrace t =? -1)%Z then
      match auto_complete_json (slice_from (find lbrace t) t) with
      | [] => None
      | _ => Some (auto_complete_json (slice_from (find lbrace t) t))
      end
    else if (rfind rbrace t <=? find lbrace t)%Z then None
    else Some (slice_to (rfind rbrace t + 1 - find lbrace t)
                (slice_from (find lbrace t) t))).
  { reflexivity. }
  rewrite Ex. clear Ex. clearbody t.
  destruct (in_dec ascii_dec lbrace t) as [Hl|Hl].
  - destruct (find_split lbrace t Hl) as [pre [r [E1 [N1 F1]]]].
    destruct (find lbrace t =? -1)%Z eqn:Ef; [apply Z.eqb_eq in Ef; lia|].
    destruct (in_dec ascii_dec rbrace t) as [Hr|Hr].
    + destruct (rfind_split rbrace t Hr) as [pre2 [post [E2 [N2 F2]]]].
      destruct (rfind rbrace t =? -1)%Z eqn:Er; [apply Z.eqb_eq in Er; lia|].
      destruct (rfind rbrace t <=? find lbrace t)%Z eqn:Ec.
      * apply Z.leb_le in Ec. right; right; left. auto.
      * apply Z.leb_gt in Ec. right; right; right. auto.
    + right; left. split; [exact Hl|]. split; [exact Hr|].
      exists pre, r. split; [exact E1|]. split; [exact N1|].
      rewrite (rfind_of_not_in _ _ Hr). cbn [Z.eqb].
      assert (Esl : slice_from (find lbrace t) t = lbrace :: r).
      { unfold slice_from. rewrite F1, Nat2Z.id. rewrite E1 at 1.
        rewrite skipn_app, skipn_all, Nat.sub_diag. reflexivity. }
      rewrite Esl. destruct (auto_complete_json_brace r) as [k ->]. reflexivity.
  - left. split; [exact Hl|].
    destruct (find lbrace t =? -1)%Z eqn:Ef; [reflexivity|].
    apply Z.eqb_neq in Ef. destruct (find_present _ _ Ef) as [k [u [_ Hk]]].
    exfalso. apply Hl. rewrite <- (firstn_skipn k t), Hk.
    apply in_or_app. right. left. reflexivity.
Qed.


Lemma not_in_sub_backticks (s : str) : ~ In backtick (sub_backticks s).
Proof.
  unfold sub_backticks. intros H. apply filter_In in H as [_ H].
  apply negb_true_iff, chr_eqb_neq in H. apply H. reflexivity.
Qed.

Lemma not_in_remove_fences (s : str) : ~ In backtick (remove_fences s).
Proof. unfold remove_fences. apply not_in_sub_backticks. Qed.

Lemma in_times (c d : ascii) (n : Z) : In c (times d n) -> c = d.
Proof. unfold times. intros H. apply repeat_spec in H. exact H. Qed.

(** Every character of a completed text comes from the text, or is a closer. *)
Lemma in_auto_complete_json (c : ascii) (p : str) :
  In c (auto_complete_json p) -> In c p \/ c = rbracket \/ c = rbrace.
Proof.
  rewrite auto_complete_json_shape. intros H.
  apply in_app_or in H as [H|H].
  - left. destruct (kept_text_prefix p) as [d Hd]. rewrite <- Hd.
    apply in_or_app. left. exact H.
  - right. apply in_app_or in H as [H|H]; apply in_times in H; auto.
Qed.

(** The text that [extract_json_string] returns starts with an opening brace
    and holds no back-tick. *)
Theorem extract_json_string_text (s out : str) :
  extract_json_string s = Some out ->
  (exists t, out = lbrace :: t) /\ ~ In backtick out.
Proof.
  intros H. pose proof (not_in_remove_fences s) as Hb.
  destruct (extract_json_string_cases s)
    as [[_ E]|[[_ [_ [pre [r [Et [_ E]]]]]]|[[_ [_ [_ E]]]|[Hl [Hr [Hlt E]]]]]];
    rewrite E in H; try discriminate H; injection H as <-.
  - split; [apply auto_complete_json_brace|].
    intros I. apply in_auto_complete_json in I as [I|[I|I]];
      try discriminate I.
    apply Hb. rewrite Et. apply in_or_app. right. exact I.
  - destruct (slice_between lbrace rbrace _ Hl Hr Hlt)
      as [pre [m [post [Et [_ [_ ->]]]]]].
    split; [eexists; reflexivity|].
    intros I. apply Hb. rewrite Et. apply in_or_app. right.
    apply in_or_app. left. exact I.
Qed.

Lemma extract_json_string_text_witness :
  (exists t, pyq "{'a': 1}" = lbrace :: t) /\ ~ In backtick (pyq "{'a': 1}").
Proof.
  apply (extract_json_string_text (pyq "```json {'a': `1`} ```")).
  reflexivity.
Defined.

(** When the response holds a closing brace, what [extract_json_string]
    returns is the part of the cleaned response from its first opening brace
    to its last closing brace. *)
Theorem extract_json_string_slice (s out : str) :
  In rbrace s ->
  extract_json_string s = Some out ->
  exists pre m post,
    remove_fences s = pre ++ out ++ post
    /\ out = lbrace :: m ++ [rbrace]
    /\ ~ In lbrace pre /\ ~ In rbrace post.
Proof.
  intros Hin H.
  assert (Hin' : In rbrace (remove_fences s))
    by (apply in_remove_fences; [simpl; tauto | exact Hin]).
  destruct (extract_json_string_cases s)
    as [[_ E]|[[_ [N _]]|[[_ [_ [_ E]]]|[Hl [Hr [Hlt E]]]]]];
    try (rewrite E in H; discriminate H); [contradiction|].
  rewrite E in H. injection H as <-.
  destruct (slice_between lbrace rbrace _ Hl Hr Hlt)
    as [pre [m [post [Et [N1 [N2 ->]]]]]].
  exists pre, m, post. auto.
Qed.

Lemma extract_json_string_slice_witness :
  exists pre m post,
    remove_fences (pyq "Here: {'a': {'b': 1}} done")
      = pre ++ pyq "{'a': {'b': 1}}" ++ post
    /\ pyq "{'a': {'b': 1}}" = lbrace :: m ++ [rbrace]
    /\ ~ In lbrace pre /\ ~ In rbrace post.
Proof.
  apply (extract_json_string_slice (pyq "Here: {'a': {'b': 1}} done")).
  - vm_compute. tauto.
  - reflexivity.
Defined.

(** [extract_json_string] gives up in two cases only: the response has no
    opening brace, or it has a closing brace and every closing brace of the
    cleaned response stands before every opening brace. *)
Theorem extract_json_string_none_iff (s : str) :
  extract_json_string s = None <->
  ~ In lbrace s
  \/ (In rbrace s /\
      exists a b, remove_fences s = a ++ b
                  /\ ~ In lbrace a /\ ~ In rbrace b).
Proof.
  assert (Il : In lbrace (remove_fences s) <-> In lbrace s)
    by (apply in_remove_fences; simpl; tauto).
  assert (Ir : In rbrace (remove_fences s) <-> In rbrace s)
    by (apply in_remove_fences; simpl; tauto).
  destruct (extract_json_string_cases s)
    as [[N E]|[[Hl [N [pre [r [Et [_ E]]]]]]|[[Hl [Hr [Hle E]]]|[Hl [Hr [Hlt E]]]]]];
    rewrite E.
  - split; [intros _; left; tauto | reflexivity].
  - split; [discriminate|]. intros [H|[H _]]; tauto.
  - split; [intros _|reflexivity]. right. split; [tauto|].
    destruct (find_split lbrace _ Hl) as [pre [r [E1 [N1 F1]]]].
    destruct (rfind_split rbrace _ Hr) as [pre2 [post [E2 [N2 F2]]]].
    exists pre, (lbrace :: r). split; [exact E1|]. split; [exact N1|].
    rewrite F1, F2 in Hle.
    assert (Hlen : length pre2 <> length pre).
    { intros El.
      assert (X : nth_error (remove_fences s) (length pre) = Some lbrace)
        by (rewrite E1, nth_error_app2, Nat.sub_diag by lia; reflexivity).
      rewrite E2, <- El, nth_error_app2, Nat.sub_diag in X by lia.
      discriminate X. }
    assert (Hs : lbrace :: r = skipn (length pre) (remove_fences s)).
    { rewrite E1 at 1. rewrite skipn_app, skipn_all, Nat.sub_diag. reflexivity. }
    rewrite Hs, E2.
    rewrite skipn_app, skipn_all2 by lia. cbn [app].
    destruct (length pre - length pre2) as [|n] eqn:En; [lia|].
    cbn [skipn]. apply not_in_skipn. exact N2.
  - split; [discriminate|]. intros [H|[_ [a [b [Et [N1 N2]]]]]]; [tauto|].
    exfalso.
    destruct (find_split lbrace _ Hl) as [pre [r [E1 [M1 F1]]]].
    destruct (rfind_split rbrace _ Hr) as [pre2 [post [E2 [M2 F2]]]].
    rewrite F1, F2 in Hlt.
    (* the first opening brace lies in [b], the last closing brace in [a] *)
    assert (La : length a <= length pre).
    { destruct (le_lt_dec (length a) (length pre)) as [L|L]; [exact L|].
      exfalso. apply N1.
      assert (X : nth_error (remove_fences s) (length pre) = Some lbrace)
        by (rewrite E1, nth_error_app2, Nat.sub_diag by lia; reflexivity).
      rewrite Et, nth_error_app1 in X by exact L.
      eapply nth_error_In. exact X. }
    assert (Lb : length pre2 < length a).
    { destruct (le_lt_dec (length a) (length pre2)) as [L|L]; [|exact L].
      exfalso. apply N2.
      assert (X : nth_error (remove_fences s) (length pre2) = Some rbrace)
        by (rewrite E2, nth_error_app2, Nat.sub_diag by lia; reflexivity).
      rewrite Et, nth_error_app2 in X by exact L.
      eapply nth_error_In. exact X. }
    lia.
Qed.

(** *** The tail completion, on any text *)

Lemma count_app_times (c d : ascii) (k : str) (n : Z) :
  count c (k ++ times d n)
  = (count c k + if ascii_dec c d then Z.max 0 n else 0)%Z.
Proof.
  rewrite count_app. f_equal.
  destruct (ascii_dec c d) as [->|N].
  - apply count_times_same.
  - apply count_times_other. exact N.
Qed.

(** [auto_complete_json] keeps a prefix of its argument, the whole of it or
    what stands before its last comma, and appends closing brackets and
    braces only; what it returns has no unmatched opener by count. *)
Theorem auto_complete_json_closes (p : str) :
  exists kept dropped closers,
    p = kept ++ dropped
    /\ auto_complete_json p = kept ++ closers
    /\ (dropped = [] \/ exists rest, dropped = comma :: rest /\ ~ In comma rest)
    /\ Forall (fun c => c = rbracket \/ c = rbrace) closers
    /\ unmatched_openers (auto_complete_json p) = 0%Z.
Proof.
  pose proof (auto_complete_json_shape p) as Hs.
  set (kept := kept_text p) in *.
  set (nk := (count lbracket kept - count rbracket kept)%Z) in *.
  set (nb := (count lbrace kept - count rbrace kept)%Z) in *.
  assert (Hd : exists dropped, p = kept ++ dropped
             /\ (dropped = [] \/
                 exists rest, dropped = comma :: rest /\ ~ In comma rest)).
  { unfold kept, kept_text.
    destruct (incomplete_last_field p) eqn:E.
    - unfold incomplete_last_field in E. cbv zeta in E.
      apply andb_true_iff in E as [E _]. apply negb_true_iff, Z.eqb_neq in E.
      assert (Hc : In comma p).
      { destruct (in_dec ascii_dec comma p) as [I|I]; [exact I|].
        exfalso. apply E. apply rfind_of_not_in. exact I. }
      destruct (rfind_split comma p Hc) as [pre [t [E1 [N1 F1]]]].
      exists (comma :: t). unfold slice_to. rewrite F1, Nat2Z.id.
      rewrite E1 at 2. rewrite firstn_app, firstn_all, Nat.sub_diag.
      cbn [firstn]. rewrite app_nil_r.
      split; [exact E1|]. right. exists t. auto.
    - exists []. split; [symmetry; apply app_nil_r | left; reflexivity]. }
  destruct Hd as [dropped [Hp Hdr]].
  exists kept, dropped, (times rbracket nk ++ times rbrace nb).
  split; [exact Hp|]. split; [exact Hs|]. split; [exact Hdr|]. split.
  - apply Forall_forall. intros c I.
    apply in_app_or in I as [I|I]; apply in_times in I; auto.
  - rewrite Hs. unfold unmatched_openers.
    rewrite !app_assoc, !count_app_times.
    repeat match goal with
    | |- context [ascii_dec ?a ?b] =>
        let H := fresh "H" in
        destruct (ascii_dec a b) as [H|H];
        [try (exfalso; vm_compute in H; discriminate H)
        |try (exfalso; apply H; reflexivity)]
    end.
    fold nk nb. lia.
Qed.

End MoreRecovery.


Section AggressiveRecovery.

Lemma count_snoc (c x : ascii) (p : str) :
  count c (p ++ [x]) = (count c p + if ascii_dec x c then 1 else 0)%Z.
Proof.
  rewrite count_app. f_equal. unfold count. cbn [count_occ].
  destruct (ascii_dec x c); reflexivity.
Qed.

(** The scanning loop keeps, in [last_balanced_pos], the end of a prefix in
    which no closer is ahead of its openers. *)
Lemma balance_scan_inv (s : str) :
  forall (p : str) (pos : Z),
    (0 <= pos < Z.of_nat (length p))%Z ->
    (0 <= count lbrace (firstn (Z.to_nat (pos + 1)) p)
          - count rbrace (firstn (Z.to_nat (pos + 1)) p))%Z ->
    (0 <= count lbracket (firstn (Z.to_nat (pos + 1)) p)
          - count rbracket (firstn (Z.to_nat (pos + 1)) p))%Z ->
    let pos' :=
      snd (balance_scan (Z.of_nat (length p))
             (count lbrace p - count rbrace p,
              count lbracket p - count rbracket p, pos)%Z s) in
    (0 <= pos' < Z.of_nat (length (p ++ s)))%Z
    /\ (0 <= count lbrace (firstn (Z.to_nat (pos' + 1)) (p ++ s))
             - count rbrace (firstn (Z.to_nat (pos' + 1)) (p ++ s)))%Z
    /\ (0 <= count lbracket (firstn (Z.to_nat (pos' + 1)) (p ++ s))
             - count rbracket (firstn (Z.to_nat (pos' + 1)) (p ++ s)))%Z.
Proof.
  induction s as [|c s IH]; intros p pos Hpos Hb Hk.
  - cbn [balance_scan snd]. rewrite app_nil_r. auto.
  - cbn [balance_scan].
    set (db := (count lbrace p - count rbrace p)%Z).
    set (dk := (count lbracket p - count rbracket p)%Z).
    assert (Hd :
      (if chr_eqb c lbrace then (db + 1, dk)%Z
       else if chr_eqb c rbrace then (db - 1, dk)%Z
       else if chr_eqb c lbracket then (db, dk + 1)%Z
       else if chr_eqb c rbracket then (db, dk - 1)%Z
       else (db, dk))
      = (count lbrace (p ++ [c]) - count rbrace (p ++ [c]),
         count lbracket (p ++ [c]) - count rbracket (p ++ [c]))%Z).
    { rewrite !count_snoc. unfold db, dk.
      destruct (chr_eqb c lbrace) eqn:E1;
        [apply chr_eqb_eq in E1; subst c; cbn; f_equal; lia|].
      destruct (chr_eqb c rbrace) eqn:E2;
        [apply chr_eqb_eq in E2; subst c; cbn; f_equal; lia|].
      destruct (chr_eqb c lbracket) eqn:E3;
        [apply chr_eqb_eq in E3; subst c; cbn; f_equal; lia|].
      destruct (chr_eqb c rbracket) eqn:E4;
        [apply chr_eqb_eq in E4; subst c; cbn; f_equal; lia|].
      apply chr_eqb_neq in E1, E2, E3, E4.
      destruct (ascii_dec c lbrace); [contradiction|].
      destruct (ascii_dec c rbrace); [contradiction|].
      destruct (ascii_dec c lbracket); [contradiction|].
      destruct (ascii_dec c rbracket); [contradiction|].
      f_equal; lia. }
    rewrite Hd. clear Hd.
    set (db' := (count lbrace (p ++ [c]) - count rbrace (p ++ [c]))%Z).
    set (dk' := (count lbracket (p ++ [c]) - count rbracket (p ++ [c]))%Z).
    set (pos1 := if (0 <=? db')%Z && (0 <=? dk')%Z
                 then Z.of_nat (length p) else pos).
    assert (Hlen : (Z.of_nat (length p) + 1 = Z.of_nat (length (p ++ [c])))%Z)
      by (rewrite length_app; cbn [length]; lia).
    rewrite Hlen.
    replace (p ++ c :: s) with ((p ++ [c]) ++ s)
      by (rewrite <- app_assoc; reflexivity).
    apply IH.
    + unfold pos1. destruct (_ && _); lia.
    + unfold pos1. destruct ((0 <=? db')%Z && (0 <=? dk')%Z) eqn:E.
      * apply andb_true_iff in E as [E _]. apply Z.leb_le in E.
        rewrite firstn_all2 by lia. exact E.
      * rewrite firstn_app.
        replace (Z.to_nat (pos + 1) - length p) with 0 by lia.
        cbn [firstn]. rewrite app_nil_r. exact Hb.
    + unfold pos1. destruct ((0 <=? db')%Z && (0 <=? dk')%Z) eqn:E.
      * apply andb_true_iff in E as [_ E]. apply Z.leb_le in E.
        rewrite firstn_all2 by lia. exact E.
      * rewrite firstn_app.
        replace (Z.to_nat (pos + 1) - length p) with 0 by lia.
        cbn [firstn]. rewrite app_nil_r. exact Hk.
Qed.

(** On a text with an opening brace, the aggressive recovery returns a text
    that starts with the first opening brace and holds as many closing as
    opening braces, and as many closing as opening brackets. *)
Theorem aggressive_json_recovery_balanced (s : str) :
  In lbrace s ->
  let out := aggressive_json_recovery s in
  (exists t, out = lbrace :: t)
  /\ count lbrace out = count rbrace out
  /\ count lbracket out = count rbracket out.
Proof.
  intros Hin. cbv zeta.
  destruct (find_present _ _ (find_of_in _ _ Hin)) as [k [t [Hf Hs]]].
  unfold aggressive_json_recovery. cbv zeta.
  set (s' := if (0 <? find lbrace s)%Z
             then slice_from (find lbrace s) s else s).
  assert (Hs' : s' = lbrace :: t).
  { unfold s'. destruct (0 <? find lbrace s)%Z eqn:E.
    - unfold slice_from. rewrite Hf, Nat2Z.id. exact Hs.
    - apply Z.ltb_ge in E. assert (k = 0) by lia. subst k. exact Hs. }
  pose proof (balance_scan_inv t [lbrace] 0%Z) as Hinv.
  cbv zeta in Hinv.
  assert (Hstep : balance_scan 0 (0, 0, 0)%Z s'
                  = balance_scan (Z.of_nat (length [lbrace]))
                      (count lbrace [lbrace] - count rbrace [lbrace],
                       count lbracket [lbrace] - count rbracket [lbrace], 0)%Z t).
  { rewrite Hs'. reflexivity. }
  rewrite Hstep.
  destruct (balance_scan _ _ t) as [[db dk] pos]. cbn [snd] in Hinv.
  destruct Hinv as [Hpos [Hb Hk]];
    [cbn [length]; lia | vm_compute; discriminate | vm_compute; discriminate|].
  replace ([lbrace] ++ t) with s' in Hpos, Hb, Hk by (rewrite Hs'; reflexivity).
  cbv beta iota. unfold slice_to.
  set (kept := firstn (Z.to_nat (pos + 1)) s') in *.
  assert (Hkept : exists u, kept = lbrace :: u).
  { unfold kept. rewrite Hs'.
    replace (Z.to_nat (pos + 1)) with (S (Z.to_nat pos)) by lia.
    eexists. reflexivity. }
  set (nb := (count lbrace kept - count rbrace kept)%Z) in *.
  set (nk := (count lbracket kept - count rbracket kept)%Z) in *.
  assert (G : (exists t, kept ++ times rbrace nb ++ times rbracket nk
                         = lbrace :: t)
              /\ count lbrace (kept ++ times rbrace nb ++ times rbracket nk)
                 = count rbrace (kept ++ times rbrace nb ++ times rbracket nk)
              /\ count lbracket (kept ++ times rbrace nb ++ times rbracket nk)
                 = count rbracket (kept ++ times rbrace nb ++ times rbracket nk)).
  { split.
    - destruct Hkept as [u ->]. eexists. reflexivity.
    - rewrite !count_app.
      rewrite (count_times_other lbrace rbrace),
        (count_times_other lbrace rbracket),
        (count_times_other rbrace rbracket),
        (count_times_other lbracket rbrace),
        (count_times_other lbracket rbracket),
        (count_times_other rbracket rbrace),
        !count_times_same by discriminate.
      unfold nb, nk in *. lia. }
  destruct (0 <? nb)%Z eqn:E1; destruct (0 <? nk)%Z eqn:E2;
    simpl orb; cbv iota; try exact G.
  apply Z.ltb_ge in E1, E2.
  rewrite (times_nonpos rbrace _ E1), (times_nonpos rbracket _ E2) in G.
  rewrite app_nil_r in G. exact G.
Qed.

Lemma aggressive_json_recovery_balanced_witness :
  let out := aggressive_json_recovery (pyq "x {'a': [1, {'b': 2}], 'c': [3") in
  (exists t, out = lbrace :: t)
  /\ count lbrace out = count rbrace out
  /\ count lbracket out = count rbracket out.
Proof.
  apply (aggressive_json_recovery_balanced
           (pyq "x {'a': [1, {'b': 2}], 'c': [3")).
  vm_compute. tauto.
Defined.

End AggressiveRecovery.


(** ** The check of a response *)


Section Fuel.

Lemma suffix_length (r s : str) : suffix r s -> length r <= length s.
Proof. intros [p ->]. rewrite length_app. lia. Qed.

Lemma skip_ws_length (s : str) : length (skip_ws s) <= length s.
Proof. apply suffix_length, skip_ws_suffix. Qed.

Lemma skip_ws_cons_length (s : str) (c : ascii) (t : str) :
  skip_ws s = c :: t -> length t < length s.
Proof.
  intros E. pose proof (skip_ws_length s) as H. rewrite E in H.
  cbn [length] in H. lia.
Qed.

(** The recursion a text needs is bounded by its length. *)
Lemma scan_fuel_enough (fuel : nat) :
  (forall s r g, scan_value fuel s = Some r ->
                 length s + 1 <= g + length r -> scan_value g s = Some r)
  /\ (forall s r g, scan_members fuel s = Some r ->
                    length s + 1 <= g + length r -> scan_members g s = Some r)
  /\ (forall s r g, scan_elements fuel s = Some r ->
                    length s + 1 <= g + length r -> scan_elements g s = Some r).
Proof.
  induction fuel as [|fuel [IHv [IHm IHe]]];
    [repeat split; intros s r g H; discriminate H|].
  split; [|split]; intros s r g H Hg.
  - pose proof (suffix_length _ _ (proj1 (scan_suffix _) _ _ H)) as Hl.
    destruct g as [|g]; [lia|].
    cbn [scan_value] in H |- *. destruct s as [|c t]; [discriminate H|].
    cbn [length] in Hg, Hl.
    destruct (chr_eqb c quote); [exact H|].
    destruct (chr_eqb c lbrace).
    { destruct (skip_ws t) as [|c' t'] eqn:E; [discriminate H|].
      destruct (chr_eqb c' rbrace); [exact H|].
      apply IHm; [exact H|].
      pose proof (skip_ws_length t) as L. rewrite E in L. lia. }
    destruct (chr_eqb c lbracket).
    { destruct (skip_ws t) as [|c' t'] eqn:E; [discriminate H|].
      destruct (chr_eqb c' rbracket); [exact H|].
      apply IHe; [exact H|].
      pose proof (skip_ws_length t) as L. rewrite E in L. lia. }
    exact H.
  - pose proof (suffix_length _ _ (proj1 (proj2 (scan_suffix _)) _ _ H)) as Hl.
    destruct g as [|g]; [lia|].
    cbn [scan_members] in H |- *. destruct s as [|c t]; [discriminate H|].
    cbn [length] in Hg, Hl.
    destruct (chr_eqb c quote); [|discriminate H].
    destruct (scan_string t) as [r1|] eqn:E1; [|discriminate H].
    destruct (skip_ws r1) as [|colon r'] eqn:E2; [discriminate H|].
    destruct (chr_eqb colon ":"%char); [|discriminate H].
    destruct (scan_value fuel (skip_ws r')) as [r''|] eqn:E3; [|discriminate H].
    pose proof (suffix_length _ _ (scan_string_suffix (length t) t r1
                                     (le_n _) E1)) as L1.
    pose proof (skip_ws_cons_length _ _ _ E2) as L2.
    pose proof (skip_ws_length r') as L3.
    pose proof (suffix_length _ _ (proj1 (scan_suffix _) _ _ E3)) as L4.
    destruct (skip_ws r'') as [|d u] eqn:E4; [discriminate H|].
    pose proof (skip_ws_cons_length _ _ _ E4) as L5.
    assert (L6 : length r <= length u).
    { destruct (chr_eqb d rbrace); [injection H as <-; lia|].
      destruct (chr_eqb d comma); [|discriminate H].
      pose proof (suffix_length _ _ (proj1 (proj2 (scan_suffix _)) _ _ H)).
      pose proof (skip_ws_length u). lia. }
    rewrite (IHv _ _ g E3) by lia. rewrite E4.
    destruct (chr_eqb d rbrace); [exact H|].
    destruct (chr_eqb d comma); [|discriminate H].
    apply IHm; [exact H|]. pose proof (skip_ws_length u). lia.
  - pose proof (suffix_length _ _ (proj2 (proj2 (scan_suffix _)) _ _ H)) as Hl.
    destruct g as [|g]; [lia|].
    cbn [scan_elements] in H |- *.
    destruct (scan_value fuel s) as [r1|] eqn:E1; [|discriminate H].
    pose proof (suffix_length _ _ (proj1 (scan_suffix _) _ _ E1)) as L1.
    destruct (skip_ws r1) as [|d u] eqn:E2; [discriminate H|].
    pose proof (skip_ws_cons_length _ _ _ E2) as L2.
    assert (L3 : length r <= length u).
    { destruct (chr_eqb d rbracket); [injection H as <-; lia|].
      destruct (chr_eqb d comma); [|discriminate H].
      pose proof (suffix_length _ _ (proj2 (proj2 (scan_suffix _)) _ _ H)).
      pose proof (skip_ws_length u). lia. }
    rewrite (IHv _ _ g E1) by lia. rewrite E2.
    destruct (chr_eqb d rbracket); [exact H|].
    destruct (chr_eqb d comma); [|discriminate H].
    apply IHe; [exact H|]. pose proof (skip_ws_length u). lia.
Qed.

(** [json_loads_accepts] decides [json_loads_ok]. *)
Lemma json_loads_accepts_iff (s : str) :
  json_loads_accepts s = true <-> json_loads_ok s.
Proof.
  unfold json_loads_accepts, json_loads_ok. split.
  - intros H. eexists. exact H.
  - intros [fuel H]. unfold scan_document in *.
    destruct (scan_value fuel (skip_ws s)) as [r|] eqn:E; [|discriminate H].
    rewrite (proj1 (scan_fuel_enough fuel) _ _ (S (length s)) E);
      [exact H|].
    pose proof (skip_ws_length s). lia.
Qed.

End Fuel.


Section Validation.

Lemma find_from_first (c : ascii) (pre t : str) :
  ~ In c pre ->
  forall i, find_from i c (pre ++ c :: t) = (i + Z.of_nat (length pre))%Z.
Proof.
  induction pre as [|x pre IH]; intros N i; cbn [app find_from length].
  - replace (chr_eqb c c) with true by (symmetry; apply chr_eqb_eq; reflexivity).
    lia.
  - destruct (chr_eqb x c) eqn:E.
    + apply chr_eqb_eq in E. subst x. exfalso. apply N. left. reflexivity.
    + rewrite IH by (intros H; apply N; right; exact H). lia.
Qed.

Lemma rfind_from_none (c : ascii) (s : str) :
  ~ In c s -> forall i last, rfind_from i last c s = last.
Proof.
  induction s as [|y s IH]; intros H i last; [reflexivity|].
  cbn [rfind_from]. destruct (chr_eqb y c) eqn:E.
  - apply chr_eqb_eq in E. subst y. exfalso. apply H. left. reflexivity.
  - apply IH. intros H'. apply H. right. exact H'.
Qed.

Lemma rfind_from_last (c : ascii) (front post : str) :
  ~ In c post ->
  forall i last,
    rfind_from i last c (front ++ c :: post) = (i + Z.of_nat (length front))%Z.
Proof.
  intros N. induction front as [|x front IH]; intros i last;
    cbn [app rfind_from length].
  - rewrite rfind_from_none by exact N.
    replace (chr_eqb c c) with true by (symmetry; apply chr_eqb_eq; reflexivity).
    lia.
  - rewrite IH. lia.
Qed.

Lemma between_assoc (a b : ascii) (pre m post : str) :
  pre ++ (a :: m ++ [b]) ++ post = pre ++ a :: (m ++ b :: post).
Proof. cbn [app]. rewrite <- app_assoc. reflexivity. Qed.

Lemma between_assoc' (a b : ascii) (pre m post : str) :
  pre ++ (a :: m ++ [b]) ++ post = (pre ++ a :: m) ++ b :: post.
Proof. rewrite between_assoc, <- app_assoc. reflexivity. Qed.

(** The slice from the first [a] to the last [b], read off a decomposition
    of the text. *)
Lemma slice_of_decomposition (a b : ascii) (pre m post : str) :
  ~ In a pre -> ~ In b post ->
  let s := pre ++ (a :: m ++ [b]) ++ post in
  find a s = Z.of_nat (length pre)
  /\ rfind b s = Z.of_nat (length pre + length m + 1)
  /\ slice_to (rfind b s + 1 - find a s) (slice_from (find a s) s)
     = a :: m ++ [b].
Proof.
  intros Na Nb s.
  assert (F : find a s = Z.of_nat (length pre)).
  { unfold find, s. cbn [app]. rewrite find_from_first by exact Na. lia. }
  assert (R : rfind b s = Z.of_nat (length pre + length m + 1)).
  { unfold rfind, s. rewrite between_assoc'.
    rewrite rfind_from_last by exact Nb.
    rewrite length_app. cbn [length]. lia. }
  split; [exact F|]. split; [exact R|].
  rewrite F, R. unfold slice_to, slice_from. rewrite Nat2Z.id.
  unfold s. rewrite skipn_app, skipn_all, Nat.sub_diag. cbn [skipn app].
  replace (Z.to_nat _) with (length (a :: m ++ [b]))
    by (cbn [length]; rewrite length_app; cbn [length]; lia).
  change (a :: (m ++ [b]) ++ post) with ((a :: m ++ [b]) ++ post).
  rewrite firstn_app, firstn_all, Nat.sub_diag. cbn [firstn].
  apply app_nil_r.
Qed.

Lemma lstrip_first (a : ascii) (pre rest : str) :
  isspace a = false -> ~ In a pre ->
  exists pre', lstrip (pre ++ a :: rest) = pre' ++ a :: rest /\ ~ In a pre'.
Proof.
  intros Ha. induction pre as [|x pre IH]; intros N; cbn [app lstrip].
  - rewrite Ha. exists []. split; [reflexivity | intros []].
  - destruct (isspace x).
    + apply IH. intros H. apply N. right. exact H.
    + exists (x :: pre). split; [reflexivity | exact N].
Qed.

Lemma rstrip_last (b : ascii) (front post : str) :
  isspace b = false -> ~ In b post ->
  exists post', rstrip (front ++ b :: post) = front ++ b :: post'
                /\ ~ In b post'.
Proof.
  intros Hb N. unfold rstrip.
  rewrite rev_app_distr. cbn [rev]. rewrite <- app_assoc. cbn [app].
  destruct (lstrip_first b (rev post) (rev front) Hb) as [p [E Np]].
  { intros H. apply N. apply in_rev. exact H. }
  rewrite E. exists (rev p).
  rewrite rev_app_distr. cbn [rev]. rewrite (rev_involutive front), <- app_assoc.
  split; [reflexivity|]. intros H. apply Np. apply in_rev. exact H.
Qed.

Lemma strip_between (a b : ascii) (pre m post : str) :
  isspace a = false -> isspace b = false ->
  ~ In a pre -> ~ In b post ->
  exists pre' post',
    strip (pre ++ (a :: m ++ [b]) ++ post) = pre' ++ (a :: m ++ [b]) ++ post'
    /\ ~ In a pre' /\ ~ In b post'.
Proof.
  intros Ha Hb Na Nb. unfold strip. rewrite between_assoc.
  destruct (lstrip_first a pre (m ++ b :: post) Ha Na) as [pre' [E1 N1]].
  rewrite E1, <- between_assoc, between_assoc'.
  destruct (rstrip_last b (pre' ++ a :: m) post Hb Nb) as [post' [E2 N2]].
  rewrite E2. exists pre', post'.
  split; [|auto]. symmetry. apply between_assoc'.
Qed.

Lemma sub_fence_no_backtick (pat : str) (s : str) :
  ~ In backtick s -> sub_fence (backtick :: pat) 0 s = s.
Proof.
  induction s as [|c t IH]; intros N; [reflexivity|].
  cbn [sub_fence prefixb].
  destruct (chr_eqb backtick c) eqn:E.
  - apply chr_eqb_eq in E. subst c. exfalso. apply N. left. reflexivity.
  - cbn [andb]. rewrite IH; [reflexivity|].
    intros H. apply N. right. exact H.
Qed.

Lemma sub_backticks_no_backtick (s : str) :
  ~ In backtick s -> sub_backticks s = s.
Proof.
  unfold sub_backticks. induction s as [|c t IH]; intros N; [reflexivity|].
  cbn [filter]. destruct (chr_eqb c backtick) eqn:E.
  - apply chr_eqb_eq in E. subst c. exfalso. apply N. left. reflexivity.
  - cbn [negb]. rewrite IH; [reflexivity|].
    intros H. apply N. right. exact H.
Qed.

(** On a response without back-ticks, the cleaning is [strip]. *)
Lemma remove_fences_no_backtick (s : str) :
  ~ In backtick s -> remove_fences s = strip s.
Proof.
  intros N. unfold remove_fences.
  assert (N' : ~ In backtick (strip s))
    by (rewrite strip_keeps; [exact N | reflexivity]).
  change (py "```json") with (backtick :: py "``json").
  change (py "```") with (backtick :: py "``").
  rewrite (sub_fence_no_backtick (py "``json") (strip s) N').
  rewrite (sub_fence_no_backtick (py "``") (strip s) N').
  apply sub_backticks_no_backtick. exact N'.
Qed.

(** A response without back-ticks that [validate_json_response] accepts is
    one from which [extract_json_string] returns a text that [json.loads]
    accepts: the slice that was validated. *)
Theorem validated_response_is_extracted (s : str) :
  validate_json_response s = true -> ~ In backtick s ->
  exists out, extract_json_string s = Some out /\ json_loads_ok out.
Proof.
  intros Hv Nb. unfold validate_json_response in Hv.
  destruct s as [|c0 s0]; [discriminate Hv|].
  set (s := c0 :: s0) in *.
  destruct (negb (contains [lbrace] s)) eqn:Ec; [discriminate Hv|].
  apply negb_false_iff, contains_single in Ec. cbv zeta in Hv.
  destruct (find lbrace s =? -1)%Z eqn:E1; [discriminate Hv|].
  destruct (rfind rbrace s =? -1)%Z eqn:E2; [discriminate Hv|].
  destruct (rfind rbrace s <=? find lbrace s)%Z eqn:E3; [discriminate Hv|].
  cbn [orb] in Hv. apply Z.leb_gt in E3. apply Z.eqb_neq in E2.
  assert (Hr : In rbrace s).
  { destruct (rfind_present _ _ E2) as [k [_ Hk]].
    eapply nth_error_In. exact Hk. }
  destruct (slice_between lbrace rbrace s Ec Hr E3)
    as [pre [m [post [Es [N1 [N2 Esl]]]]]].
  rewrite Esl in Hv. apply json_loads_accepts_iff in Hv.
  exists (lbrace :: m ++ [rbrace]). split; [|exact Hv].
  destruct (strip_between lbrace rbrace pre m post eq_refl eq_refl N1 N2)
    as [pre' [post' [Et [M1 M2]]]].
  rewrite <- Es in Et.
  destruct (slice_of_decomposition lbrace rbrace pre' m post' M1 M2)
    as [F [R S]].
  rewrite <- Et in F, R, S.
  unfold extract_json_string. fold s. cbv zeta.
  rewrite (remove_fences_no_backtick s Nb).
  destruct (find lbrace (strip s) =? -1)%Z eqn:F1;
    [apply Z.eqb_eq in F1; lia|].
  destruct (rfind rbrace (strip s) =? -1)%Z eqn:F2;
    [apply Z.eqb_eq in F2; lia|].
  destruct (rfind rbrace (strip s) <=? find lbrace (strip s))%Z eqn:F3;
    [apply Z.leb_le in F3; lia|].
  rewrite S. reflexivity.
Qed.

Lemma validated_response_is_extracted_witness :
  exists out,
    extract_json_string (pyq "Result: {'name': 'Ann', 'skills': ['sql']} ")
      = Some out
    /\ json_loads_ok out.
Proof.
  apply (validated_response_is_extracted
           (pyq "Result: {'name': 'Ann', 'skills': ['sql']} ")).
  - vm_compute. reflexivity.
  - vm_compute. intuition discriminate.
Defined.

End Validation.

(** ** The skill resolver, further *)


Section MoreResolver.
Import SkillsAnalogy SkillMatch.

(** The words of [s.split()]: not empty, without white space, made of
    characters of [s]. *)
Lemma split_ws_words (s : str) :
  forall cur : str,
    Forall (fun c => isspace c = false) cur ->
    Forall (fun w => w <> []
                     /\ Forall (fun c => isspace c = false
                                         /\ (In c s \/ In c cur)) w)
      (split_ws cur s).
Proof.
  assert (Hrev : forall (cur : str) (t : str),
             cur <> [] -> Forall (fun c => isspace c = false) cur ->
             rev cur <> []
             /\ Forall (fun c => isspace c = false /\ (In c t \/ In c cur))
                  (rev cur)).
  { intros cur t Hne Hc. split.
    - intros E. apply Hne. rewrite <- (rev_involutive cur), E. reflexivity.
    - apply Forall_forall. intros c Ic. apply in_rev in Ic.
      rewrite Forall_forall in Hc. split; [apply Hc, Ic | right; exact Ic]. }
  induction s as [|c s IH]; intros cur Hc; cbn [split_ws].
  - destruct cur as [|x cur]; [constructor|].
    constructor; [|constructor]. apply Hrev; [discriminate | exact Hc].
  - assert (Hw : forall l,
               Forall (fun w => w <> []
                  /\ Forall (fun c0 => isspace c0 = false
                                       /\ (In c0 s \/ In c0 [])) w) l ->
               Forall (fun w => w <> []
                  /\ Forall (fun c0 => isspace c0 = false
                                       /\ (In c0 (c :: s) \/ In c0 cur)) w) l).
    { intros l. apply Forall_impl. intros w [H1 H2]. split; [exact H1|].
      revert H2. apply Forall_impl. intros a [H3 [H4|[]]].
      split; [exact H3 | left; right; exact H4]. }
    destruct (isspace c) eqn:E.
    + destruct cur as [|x cur].
      * apply Hw, IH. constructor.
      * constructor; [|apply Hw, IH; constructor].
        destruct (Hrev (x :: cur) (c :: s) ltac:(discriminate) Hc) as [H1 H2].
        split; [exact H1 | exact H2].
    + specialize (IH (c :: cur) (Forall_cons _ E Hc)).
      revert IH. apply Forall_impl. intros w [H1 H2]. split; [exact H1|].
      revert H2. apply Forall_impl. intros a [H3 [H4|[H4|H4]]].
      * split; [exact H3 | left; right; exact H4].
      * split; [exact H3 | left; left; exact H4].
      * split; [exact H3 | right; exact H4].
Qed.

(** The normal form of a skill is a sequence of words joined by single
    spaces, each word not empty and made of the characters [a-z0-9]: it has
    no other character, no space at either end and no two spaces in a row. *)
Theorem normalize_skill_normal_form (skill : str) :
  exists words,
    normalize_skill skill = join (py " ") words
    /\ Forall (fun w => w <> [] /\ forallb is_lower_alnum w = true) words.
Proof.
  unfold normalize_skill. destruct skill as [|c0 s0].
  { exists []. split; [reflexivity | constructor]. }
  set (kept := filter (fun c => is_lower_alnum c || isspace c)
                 (strip (lower (c0 :: s0)))).
  exists (split kept). split; [reflexivity|].
  pose proof (split_ws_words kept [] (Forall_nil _)) as H.
  revert H. apply Forall_impl. intros w [H1 H2]. split; [exact H1|].
  apply forallb_forall. intros c Ic.
  rewrite Forall_forall in H2. destruct (H2 c Ic) as [Hs [Hk|[]]].
  unfold kept in Hk. apply filter_In in Hk as [_ Hk].
  rewrite Hs, orb_false_r in Hk. exact Hk.
Qed.

Lemma lower_chr_idem (c : ascii) : lower_chr (lower_chr c) = lower_chr c.
Proof. destruct c as [[] [] [] [] [] [] [] []]; vm_compute; reflexivity. Qed.

Lemma lower_idem (s : str) : lower (lower s) = lower s.
Proof.
  unfold lower. rewrite map_map. apply map_ext. apply lower_chr_idem.
Qed.

Lemma lower_chr_alnum (c : ascii) :
  is_lower_alnum c || isspace c = true -> lower_chr c = c.
Proof. destruct c as [[] [] [] [] [] [] [] []]; vm_compute; congruence. Qed.

Lemma split_ws_trailing (ws : str) :
  Forall (fun c => isspace c = true) ws ->
  forall (s cur : str), split_ws cur (s ++ ws) = split_ws cur s.
Proof.
  intros Hws.
  assert (Hb : forall cur, split_ws cur ws = split_ws cur []).
  { induction Hws as [|c ws Hc _ IH]; intros cur; [reflexivity|].
    cbn [split_ws]. rewrite Hc.
    destruct cur as [|x cur]; [exact (IH [])|].
    rewrite (IH []). reflexivity. }
  induction s as [|c s IH]; intros cur; cbn [app]; [apply Hb|].
  cbn [split_ws]. destruct (isspace c).
  - rewrite (IH []). reflexivity.
  - apply IH.
Qed.

Lemma split_ws_lstrip (s : str) : split_ws [] (lstrip s) = split_ws [] s.
Proof.
  induction s as [|c s IH]; [reflexivity|]. cbn [lstrip split_ws].
  destruct (isspace c) eqn:E; [exact IH|].
  cbn [split_ws]. rewrite E. reflexivity.
Qed.

Lemma rstrip_suffix (s : str) :
  exists w, s = rstrip s ++ w /\ Forall (fun c => isspace c = true) w.
Proof.
  unfold rstrip. destruct (lstrip_suffix (rev s)) as [p [E Hp]].
  exists (rev p). split.
  - rewrite <- rev_app_distr, <- E. symmetry. apply rev_involutive.
  - apply Forall_forall. intros c Ic. apply in_rev in Ic.
    rewrite Forall_forall in Hp. apply Hp, Ic.
Qed.

(** White space at the ends of a text does not change its words. *)
Lemma split_strip (s : str) : split (strip s) = split s.
Proof.
  unfold split, strip.
  destruct (rstrip_suffix (lstrip s)) as [w [E Hw]].
  rewrite <- (split_ws_lstrip s). rewrite E at 2.
  symmetry. apply split_ws_trailing. exact Hw.
Qed.

Lemma split_ws_word (w : str) :
  Forall (fun c => isspace c = false) w ->
  forall (rest cur : str), split_ws cur (w ++ rest) = split_ws (rev w ++ cur) rest.
Proof.
  induction 1 as [|c w Hc _ IH]; intros rest cur; [reflexivity|].
  cbn [app split_ws]. rewrite Hc, IH. cbn [rev]. rewrite <- app_assoc.
  reflexivity.
Qed.

(** Splitting what was joined by single spaces gives the words back. *)
Lemma split_join (words : list str) :
  Forall (fun w => w <> [] /\ Forall (fun c => isspace c = false) w) words ->
  split (join (py " ") words) = words.
Proof.
  unfold split. induction 1 as [|p rest [Hne Hp] Hrest IH]; [reflexivity|].
  destruct rest as [|q r].
  - cbn [join]. rewrite <- (app_nil_r p) at 1.
    rewrite split_ws_word by exact Hp.
    rewrite app_nil_r. cbn [split_ws].
    destruct (rev p) eqn:E.
    + exfalso. apply Hne. rewrite <- (rev_involutive p), E. reflexivity.
    + rewrite <- E, rev_involutive. reflexivity.
  - change (join (py " ") (p :: q :: r))
      with (p ++ " "%char :: join (py " ") (q :: r)).
    rewrite split_ws_word by exact Hp. rewrite app_nil_r.
    cbn [split_ws]. change (isspace " "%char) with true. cbv iota.
    destruct (rev p) eqn:E.
    + exfalso. apply Hne. rewrite <- (rev_involutive p), E. reflexivity.
    + rewrite <- E, rev_involutive, IH. reflexivity.
Qed.

Lemma in_join (sep : str) (words : list str) (c : ascii) :
  In c (join sep words) -> In c sep \/ exists w, In w words /\ In c w.
Proof.
  induction words as [|p rest IH]; [intros []|].
  destruct rest as [|q r].
  - cbn [join]. intros H. right. exists p. split; [left; reflexivity | exact H].
  - change (join sep (p :: q :: r)) with (p ++ sep ++ join sep (q :: r)).
    intros H. apply in_app_or in H as [H|H];
      [right; exists p; split; [left; reflexivity | exact H]|].
    apply in_app_or in H as [H|H]; [left; exact H|].
    destruct (IH H) as [H'|[w [Iw Ic]]]; [left; exact H'|].
    right. exists w. split; [right; exact Iw | exact Ic].
Qed.

(** Normalising is idempotent, and ignores the case of the letters. *)
Theorem normalize_skill_idempotent (skill : str) :
  normalize_skill (normalize_skill skill) = normalize_skill skill
  /\ normalize_skill (lower skill) = normalize_skill skill.
Proof.
  split.
  - destruct (normalize_skill_normal_form skill) as [words [E Hw]].
    rewrite E. set (n := join (py " ") words).
    assert (Hchars : forall c, In c n -> is_lower_alnum c || isspace c = true).
    { intros c Ic. apply in_join in Ic as [Ic|[w [Iw Ic]]].
      - destruct Ic as [<-|[]]. reflexivity.
      - rewrite Forall_forall in Hw. destruct (Hw w Iw) as [_ Ha].
        rewrite forallb_forall in Ha. rewrite (Ha c Ic). reflexivity. }
    assert (Hwords : Forall (fun w => w <> []
                       /\ Forall (fun c => isspace c = false) w) words).
    { revert Hw. apply Forall_impl. intros w [H1 H2]. split; [exact H1|].
      apply Forall_forall. intros c Ic. rewrite forallb_forall in H2.
      apply alnum_not_space, H2, Ic. }
    unfold normalize_skill. destruct n as [|c0 n0] eqn:En; [reflexivity|].
    rewrite <- En in *.
    assert (Hl : lower n = n).
    { unfold lower. rewrite <- (map_id n) at 2. apply map_ext_in.
      intros c Ic. apply lower_chr_alnum, Hchars, Ic. }
    rewrite Hl.
    assert (Hf : filter (fun c => is_lower_alnum c || isspace c) (strip n)
                 = strip n).
    { apply forallb_filter_id. apply forallb_forall. intros c Ic.
      pose proof (Hchars c) as Hc'. pose proof (strip_keeps n c) as Hk.
      destruct (isspace c); [apply orb_true_r|].
      apply Hc'. apply Hk; [reflexivity | exact Ic]. }
    rewrite Hf, split_strip. unfold n at 1. rewrite split_join by exact Hwords.
    reflexivity.
  - unfold normalize_skill. destruct skill as [|c0 s0]; [reflexivity|].
    change (lower (c0 :: s0)) with (lower_chr c0 :: lower s0) at 1.
    cbv iota.
    change (lower_chr c0 :: lower s0) with (lower (c0 :: s0)).
    rewrite lower_idem. reflexivity.
Qed.

(** The resolver sees a skill through its normal form only: skills with the
    same normal forms get the same answer. *)
Theorem find_skill_match_normal_forms (a a' b b' : str) :
  normalize_skill a = normalize_skill a' ->
  normalize_skill b = normalize_skill b' ->
  find_skill_match a b = find_skill_match a' b'.
Proof.
  intros Ha Hb. unfold find_skill_match, find_skill_match_with. cbv zeta.
  rewrite <- Ha, <- Hb.
  destruct (normalize_skill a) as [|x cn] eqn:Ea; [reflexivity|].
  destruct (normalize_skill b) as [|y rn] eqn:Eb; [reflexivity|].
  assert (Na : a <> []) by (intros ->; discriminate Ea).
  assert (Na' : a' <> []) by (intros ->; discriminate Ha).
  rewrite (get_skill_group_raises _ Na), (get_skill_group_raises _ Na').
  reflexivity.
Qed.

Lemma find_skill_match_normal_forms_witness :
  find_skill_match (py "Node.js") (py "REST  API")
  = find_skill_match (py " nodejs") (py "rest api!").
Proof.
  apply (find_skill_match_normal_forms
           (py "Node.js") (py " nodejs") (py "REST  API") (py "rest api!"));
    reflexivity.
Defined.

(** What the resolver answers: a match is exact with confidence 1, fuzzy
    with a confidence of 0.70 or more, or by substring with confidence 0.88;
    anything else is no match, with confidence 0.  It is exact precisely
    when the two normal forms are equal and not empty, and it is never by
    analogy. *)
Theorem find_skill_match_outcomes (candidate_skill required_skill : str) :
  let '(is_match, kind, conf) := find_skill_match candidate_skill required_skill in
  ((is_match = true
    /\ ((kind = exact /\ conf = 1%Q)
        \/ (kind = fuzzy /\ (7 # 10 <= conf)%Q)
        \/ (kind = substring /\ conf = (88 # 100)%Q)))
   \/ (is_match = false /\ conf = 0%Q /\ (kind = invalid \/ kind = no_match)))
  /\ (kind = exact <->
      normalize_skill candidate_skill = normalize_skill required_skill
      /\ normalize_skill candidate_skill <> []).
Proof.
  unfold find_skill_match, find_skill_match_with. cbv zeta.
  destruct (normalize_skill candidate_skill) as [|x cn] eqn:Ec.
  { split; [right; auto|]. split; [discriminate | intros [_ N]; congruence]. }
  destruct (normalize_skill required_skill) as [|y rn] eqn:Er.
  { split; [right; auto|]. split; [discriminate | intros [N _]; discriminate N]. }
  assert (Hc : candidate_skill <> []) by (intros ->; discriminate Ec).
  rewrite (get_skill_group_raises _ Hc). cbn [bind]. cbv iota.
  destruct (str_eqb (x :: cn) (y :: rn)) eqn:E.
  { apply str_eqb_eq in E. split; [left; auto|].
    split; [intros _; split; [exact E | discriminate] | reflexivity]. }
  assert (N : x :: cn <> y :: rn).
  { intros H. rewrite H, str_eqb_refl in E. discriminate E. }
  destruct (Qle_bool (7 # 10) (Difflib.ratio (x :: cn) (y :: rn))) eqn:Q.
  { apply Qle_bool_iff in Q. split; [left; auto|].
    split; [discriminate | intros [H _]; contradiction]. }
  destruct (_ && _).
  - split; [left; auto|].
    split; [discriminate | intros [H _]; contradiction].
  - split; [right; auto|].
    split; [discriminate | intros [H _]; contradiction].
Qed.

(** Every helper of skills_analogy.py returns its default on the empty name
    and raises [NameError] on any other: each reads a global name that the
    module does not bind. *)
Theorem skill_helpers_raise (skill_name : str) :
  get_skill_group skill_name
  = match skill_name with
    | [] => Ok None
    | _ => Raise (NameError "TESTING")
    end
  /\ find_equivalent_skills skill_name
     = match skill_name with
       | [] => Ok []
       | _ => Raise (NameError "TESTING")
       end
  /\ is_technical_skill skill_name
     = match skill_name with
       | [] => Ok false
       | _ => Raise (NameError "SOFT_SKILLS")
       end.
Proof. destruct skill_name as [|c s]; repeat split. Qed.

End MoreResolver.

(** ** The scores, further *)


Section MoreScoring.
Import SkillMatch MatchingEngine.
Variable B : builtins.

(** *** Experience *)

(** Whatever the two records hold, when [check_experience_match] returns,
    its score lies between 1 and 35 and its percentage is at most 100: this
    covers negative numbers of years and requirements that are infinite. *)
Theorem experience_score_bounds (resume_data jd_data : pyval)
    (res : experience_result) :
  check_experience_match B resume_data jd_data = Ok res ->
  (1 <= exp_score res <= 35)%Z /\ (exp_percentage res <= 100)%Z.
Proof. apply check_experience_match_ok_range. Qed.

(** A number of years that [float] cannot read, in the resume or in the job
    description, sets both numbers to 0: the candidate gets the full
    experience credit, whatever the other record says. *)
Theorem unreadable_years_give_full_credit (resume_data jd_data : pyval) :
  (exists d s, resume_data = PDict d
               /\ dict_find d (py "totalYearsExperience") = Some (PStr s)
               /\ s <> [] /\ float_of_str B s = None)
  \/ (exists d s, jd_data = PDict d
                  /\ dict_find d (py "minExperienceYears") = Some (PStr s)
                  /\ s <> [] /\ float_of_str B s = None) ->
  check_experience_match B resume_data jd_data
  = Ok {| exp_met := true;
          candidateExperience := 0;
          requiredExperience := 0;
          exp_details := NoExperienceRequired 0;
          exp_score := 35;
          exp_percentage := 100 |}.
Proof.
  intros H.
  assert (Hy : experience_years B resume_data jd_data
               = (Finite 0%Q, Finite 0%Q)).
  { unfold experience_years.
    destruct H as [[d [s [-> [Hf [Hs Hn]]]]]|[d [s [-> [Hf [Hs Hn]]]]]].
    - cbn [py_get bind]. unfold dict_get. rewrite Hf.
      unfold py_or. destruct s as [|c0 s0]; [congruence|]. cbn [truthy].
      cbn [py_float]. rewrite Hn. reflexivity.
    - destruct (py_get resume_data (py "totalYearsExperience") (PInt 0))
        as [cv|e]; [|reflexivity].
      cbn [bind].
      destruct (py_float B (py_or cv (PInt 0))) as [cf|e]; [|reflexivity].
      cbn [py_get bind]. unfold dict_get. rewrite Hf.
      unfold py_or. destruct s as [|c0 s0]; [congruence|]. cbn [truthy].
      cbn [py_float]. rewrite Hn. reflexivity. }
  unfold check_experience_match. rewrite Hy. reflexivity.
Qed.

End MoreScoring.

Lemma experience_score_bounds_witness :
  (1 <= 1 <= 35)%Z /\ (-300 <= 100)%Z.
Proof.
  apply (experience_score_bounds example_builtins
           (PDict [(py "totalYearsExperience", PStr (py "-3"))])
           (PDict [(py "minExperienceYears", PInt 1)])
           {| exp_met := false;
              candidateExperience := -3;
              requiredExperience := 1;
              exp_details := ExperiencePartial (-3) 1 (-300);
              exp_score := 1;
              exp_percentage := -300 |}).
  vm_compute. reflexivity.
Defined.

Lemma unreadable_years_give_full_credit_witness :
  check_experience_match example_builtins
    (PDict [(py "totalYearsExperience", PStr (py "ten"))])
    (PDict [(py "minExperienceYears", PInt 8)])
  = Ok {| exp_met := true;
          candidateExperience := 0;
          requiredExperience := 0;
          exp_details := NoExperienceRequired 0;
          exp_score := 35;
          exp_percentage := 100 |}.
Proof.
  apply (unreadable_years_give_full_credit example_builtins).
  left. exists [(py "totalYearsExperience", PStr (py "ten"))], (py "ten").
  split; [reflexivity|]. split; [reflexivity|].
  split; [discriminate | reflexivity].
Defined.


Section MoreEducation.
Import SkillMatch MatchingEngine.
Variable B : builtins.

Lemma required_level_range (jd_data : dict) :
  (0 <= required_level B jd_data <= 4)%Z.
Proof. unfold required_level. apply normalize_education_range. Qed.

(** The education score lies between 1 and 25, and it is 25 exactly when the
    criterion is met, that is when the candidate's highest rank reaches the
    required one. *)
Theorem education_score_range (resume_data jd_data : dict) :
  exists res,
    check_education_match B (PDict resume_data) (PDict jd_data) = Ok res
    /\ (1 <= edu_score res <= 25)%Z
    /\ (edu_met res = true <-> edu_score res = 25%Z)
    /\ (edu_met res = true <->
        (required_level B jd_data <= candidate_level B resume_data)%Z).
Proof.
  destruct (check_education_match_cases B resume_data jd_data)
    as [res [H [H0 [H1 H2]]]].
  exists res. split; [exact H|].
  pose proof (candidate_level_nonneg B resume_data) as Hc.
  pose proof (required_level_range jd_data) as Hr.
  set (cl := candidate_level B resume_data) in *.
  set (rl := required_level B jd_data) in *.
  destruct (Z.eq_dec rl 0) as [E|E].
  - destruct (H0 E) as [Hs Hm]. rewrite Hs, Hm.
    split; [lia|]. split; [tauto|]. split; [lia | reflexivity].
  - destruct (Z_le_gt_dec rl cl) as [L|L].
    + destruct (H1 ltac:(lia)) as [Hs [Hm _]]. rewrite Hs, Hm.
      split; [lia|]. split; [tauto|]. split; [lia | reflexivity].
    + destruct (H2 ltac:(lia)) as [Hs Hm]. rewrite Hs, Hm.
      assert (Hq : (cl * 25 / rl < 25)%Z)
        by (apply Z.div_lt_upper_bound; lia).
      assert (Hq0 : (0 <= cl * 25 / rl)%Z)
        by (apply Z.div_pos; lia).
      split; [lia|]. split; [split; [discriminate | lia]|].
      split; [discriminate | lia].
Qed.

Lemma fold_max_perm (l l' : list Z) :
  Permutation l l' -> forall a, fold_left Z.max l a = fold_left Z.max l' a.
Proof.
  induction 1 as [|x l l' _ IH|x y l|l l' l'' _ IH1 _ IH2]; intros a;
    cbn [fold_left].
  - reflexivity.
  - apply IH.
  - f_equal. lia.
  - rewrite IH1. apply IH2.
Qed.

(** The order of the education entries does not matter to the score: two
    resumes whose entries are the same up to their order get the same
    education score and the same verdict. *)
Theorem education_score_order (resume_data resume_data' jd_data : dict)
    (l l' : list pyval) :
  dict_get resume_data (py "education") (PList []) = PList l ->
  dict_get resume_data' (py "education") (PList []) = PList l' ->
  Permutation l l' ->
  exists res res',
    check_education_match B (PDict resume_data) (PDict jd_data) = Ok res
    /\ check_education_match B (PDict resume_data') (PDict jd_data) = Ok res'
    /\ edu_score res = edu_score res'
    /\ edu_met res = edu_met res'.
Proof.
  intros E E' P.
  assert (Hcl : candidate_level B resume_data = candidate_level B resume_data').
  { unfold candidate_level. rewrite E, E'. unfold highest_education.
    rewrite !highest_fold. cbn [fst].
    apply fold_max_perm. apply Permutation_map. exact P. }
  destruct (check_education_match_cases B resume_data jd_data)
    as [res [H [H0 [H1 H2]]]].
  destruct (check_education_match_cases B resume_data' jd_data)
    as [res' [H' [H0' [H1' H2']]]].
  exists res, res'. split; [exact H|]. split; [exact H'|].
  rewrite <- Hcl in H1', H2'.
  pose proof (candidate_level_nonneg B resume_data) as Hc.
  pose proof (required_level_range jd_data) as Hr.
  set (cl := candidate_level B resume_data) in *.
  set (rl := required_level B jd_data) in *.
  destruct (Z.eq_dec rl 0) as [Z0|Z0].
  - destruct (H0 Z0) as [-> ->]. destruct (H0' Z0) as [-> ->]. auto.
  - destruct (Z_le_gt_dec rl cl) as [L|L].
    + destruct (H1 ltac:(lia)) as [-> [-> _]].
      destruct (H1' ltac:(lia)) as [-> [-> _]]. auto.
    + destruct (H2 ltac:(lia)) as [-> ->].
      destruct (H2' ltac:(lia)) as [-> ->]. auto.
Qed.

End MoreEducation.

Lemma education_score_order_witness :
  exists res res',
    check_education_match example_builtins
      (PDict [(py "education",
               PList [PStr (py "Diploma in Design"); PStr (py "MBA")])])
      (PDict [(py "requiredEducation", PStr (py "Master"))]) = Ok res
    /\ check_education_match example_builtins
         (PDict [(py "education",
                  PList [PStr (py "MBA"); PStr (py "Diploma in Design")])])
         (PDict [(py "requiredEducation", PStr (py "Master"))]) = Ok res'
    /\ edu_score res = edu_score res'
    /\ edu_met res = edu_met res'.
Proof.
  apply (education_score_order example_builtins
           [(py "education",
             PList [PStr (py "Diploma in Design"); PStr (py "MBA")])]
           [(py "education",
             PList [PStr (py "MBA"); PStr (py "Diploma in Design")])]
           [(py "requiredEducation", PStr (py "Master"))]
           [PStr (py "Diploma in Design"); PStr (py "MBA")]
           [PStr (py "MBA"); PStr (py "Diploma in Design")]).
  - reflexivity.
  - reflexivity.
  - apply perm_swap.
Defined.


Section MoreSkills.
Import SkillMatch MatchingEngine.
Variable B : builtins.

(** A match has a confidence of 0.70 or more. *)
Lemma find_skill_match_confidence (c r : str) :
  fst (fst (find_skill_match c r)) = true ->
  (7 # 10 <= snd (find_skill_match c r))%Q.
Proof.
  unfold find_skill_match, find_skill_match_with. cbv zeta.
  destruct (normalize_skill c) as [|x cn] eqn:Ec; [discriminate|].
  destruct (normalize_skill r) as [|y rn] eqn:Er; [discriminate|].
  assert (Hc : c <> []) by (intros ->; discriminate Ec).
  rewrite (get_skill_group_raises _ Hc). cbn [bind]. cbv iota.
  destruct (str_eqb (x :: cn) (y :: rn)); [intros _; cbn; discriminate|].
  destruct (Qle_bool (7 # 10) (Difflib.ratio (x :: cn) (y :: rn))) eqn:Q.
  { intros _. apply Qle_bool_iff in Q. exact Q. }
  destruct (_ && _); [intros _; cbn; discriminate | discriminate].
Qed.

(** The inner loop keeps the first of the candidate's skills with the
    highest confidence. *)
Lemma best_fold_inv (req_skill : str) (l : list str) :
  forall (seen : list str) st,
    best_so_far req_skill seen st ->
    best_so_far req_skill (seen ++ l) (fold_left (best_step req_skill) l st).
Proof.
  induction l as [|c l IH]; intros seen st Hst; cbn [fold_left].
  - rewrite app_nil_r. exact Hst.
  - replace (seen ++ c :: l) with ((seen ++ [c]) ++ l)
      by (rewrite <- app_assoc; reflexivity).
    apply IH. clear IH.
    destruct st as [[[f bm] bt] bc]. unfold best_step.
    pose proof (find_skill_match_confidence c req_skill) as Hconf.
    destruct (find_skill_match c req_skill) as [[is_match kind] conf] eqn:Ef.
    cbn [fst snd] in Hconf.
    destruct is_match.
    + specialize (Hconf eq_refl).
      destruct (Qle_bool conf bc) eqn:Q; cbn [negb].
      * (* not better than the best so far *)
        apply Qle_bool_iff in Q.
        destruct Hst as [[_ [_ [_ [Hb _]]]]|[Hf [c0 [k [I [E1 [E2 [E3 H]]]]]]]].
        { exfalso. subst bc.
          assert (X : (7 # 10 <= 0)%Q) by (eapply Qle_trans; eassumption).
          exact (Qlt_not_le 0 (7 # 10) eq_refl X). }
        right. split; [reflexivity|]. exists c0, k.
        split; [apply in_or_app; left; exact I|].
        split; [exact E1|]. split; [exact E2|]. split; [exact E3|].
        intros c' I' M. apply in_app_or in I' as [I'|[<-|[]]];
          [exact (H c' I' M)|].
        rewrite Ef. exact Q.
      * (* better *)
        assert (L : (bc < conf)%Q).
        { apply Qnot_le_lt. intros H. apply Qle_bool_iff in H. congruence. }
        right. split; [reflexivity|]. exists c, kind.
        split; [apply in_or_app; right; left; reflexivity|].
        split; [reflexivity|]. split; [reflexivity|]. split; [exact Ef|].
        intros c' I' M. apply in_app_or in I' as [I'|[<-|[]]].
        { destruct Hst as [[_ [_ [_ [_ H]]]]|[_ [c0 [k [_ [_ [_ [_ H]]]]]]]].
          - rewrite (H c' I') in M. discriminate M.
          - apply Qle_trans with bc; [exact (H c' I' M)|].
            apply Qlt_le_weak, L. }
        rewrite Ef. apply Qle_refl.
    + destruct Hst as [[Hf [E1 [E2 [Hb H]]]]|[Hf [c0 [k [I [E1 [E2 [E3 H]]]]]]]].
      * left. repeat (split; [assumption|]).
        intros c' I'. apply in_app_or in I' as [I'|[<-|[]]];
          [exact (H c' I')|].
        rewrite Ef. reflexivity.
      * right. split; [exact Hf|]. exists c0, k.
        split; [apply in_or_app; left; exact I|].
        split; [exact E1|]. split; [exact E2|]. split; [exact E3|].
        intros c' I' M. apply in_app_or in I' as [I'|[<-|[]]];
          [exact (H c' I' M)|].
        rewrite Ef in M. discriminate M.
Qed.

Lemma best_match_for_spec (candidate_skills : list str) (req_skill : str) :
  best_so_far req_skill candidate_skills
    (best_match_for candidate_skills req_skill).
Proof.
  unfold best_match_for.
  apply (best_fold_inv req_skill candidate_skills []).
  left. repeat (split; [reflexivity|]). intros c [].
Qed.

(** The outer loop records, for the matched skills in their order, what the
    inner loop found. *)
Lemma required_fold_details (candidate_skills : list str) (l : list str) :
  forall st,
    snd (fold_left (required_step candidate_skills) l st)
    = snd st ++ map (detail_of candidate_skills)
                  (filter (skill_matched candidate_skills) l).
Proof.
  induction l as [|r l IH]; intros [[ms miss] det]; cbn [fold_left filter].
  - cbn [snd map]. rewrite app_nil_r. reflexivity.
  - rewrite IH. unfold required_step, detail_of.
    pose proof (best_match_for_found candidate_skills r) as Hf.
    destruct (best_match_for candidate_skills r) as [[[f bm] bt] bc] eqn:Eb.
    unfold found_flag in Hf; cbn [fst] in Hf. subst f.
    destruct (skill_matched candidate_skills r); cbn [snd map].
    + rewrite Eb, <- app_assoc. reflexivity.
    + reflexivity.
Qed.

(** The result of [check_skills_match] when a skill is required. *)
Lemma check_skills_match_fields (resume_data jd_data : pyval)
    (candidate_skills required_skills : list str) :
  extract_candidate_skills B resume_data = Ok candidate_skills ->
  extract_required_skills B jd_data = Ok required_skills ->
  required_skills <> [] ->
  exists res,
    check_skills_match B resume_data jd_data = Ok res
    /\ matchedSkills res
       = filter (skill_matched candidate_skills) required_skills
    /\ missingSkills res
       = filter (fun r => negb (skill_matched candidate_skills r))
           required_skills
    /\ skillMatchDetails res
       = map (detail_of candidate_skills) (matchedSkills res)
    /\ candidateSkillsCount res = length (matchedSkills res)
    /\ requiredSkillsCount res = length required_skills
    /\ allCandidateSkills res = candidate_skills
    /\ skl_score res
       = (let m := Z.of_nat (length (matchedSkills res)) in
          let n := Z.of_nat (length required_skills) in
          if (m =? 0)%Z then 0 else Z.max 1 (40 * m / n))%Z
    /\ skl_percentage res
       = (100 * Z.of_nat (length (matchedSkills res))
          / Z.of_nat (length required_skills))%Z
    /\ skl_met res = (50 <=? skl_percentage res)%Z.
Proof.
  intros Hc Hr Hne. unfold check_skills_match. rewrite Hc, Hr. cbn [bind].
  destruct required_skills as [|r0 rs]; [congruence|].
  set (reqs := r0 :: rs).
  pose proof (required_fold candidate_skills reqs ([], [], [])) as Hfold.
  pose proof (required_fold_details candidate_skills reqs ([], [], [])) as Hdet.
  cbv zeta in Hfold.
  destruct (fold_left (required_step candidate_skills) reqs ([], [], []))
    as [[ms miss] det].
  cbn [fst snd app] in Hfold, Hdet. destruct Hfold as [Hms Hmiss].
  eexists; split; [reflexivity|].
  cbn [matchedSkills missingSkills skillMatchDetails candidateSkillsCount
       requiredSkillsCount allCandidateSkills skl_score skl_percentage skl_met].
  assert (Hn : length reqs <> 0) by discriminate.
  rewrite !scaled_count_floor by (try exact Hn; lia).
  split; [exact Hms|]. split; [exact Hmiss|].
  split; [rewrite Hdet, Hms; reflexivity|].
  repeat (split; [reflexivity|]).
  split; [|split; reflexivity].
  destruct ms as [|x ms']; [reflexivity|].
  cbv zeta. cbn [length].
  destruct (Z.eqb_spec (Z.of_nat (S (length ms'))) 0); [lia | reflexivity].
Qed.

Lemma filter_partition_perm {A : Type} (f : A -> bool) (l : list A) :
  Permutation (filter f l ++ filter (fun x => negb (f x)) l) l.
Proof.
  induction l as [|x l IH]; [constructor|]. cbn [filter].
  destruct (f x); cbn [negb app].
  - constructor. exact IH.
  - apply Permutation_sym, Permutation_cons_app, Permutation_sym. exact IH.
Qed.

(** The required skills are sorted, in their order, into the matched and the
    missing ones: a required skill is matched exactly when the resolver
    matches it with one of the candidate's skills, every required skill is
    in one list and only one, and there is one detail entry for each matched
    skill.  The field [candidateSkillsCount] is the number of matched
    skills. *)
Theorem skills_partition (resume_data jd_data : pyval)
    (candidate_skills required_skills : list str) :
  extract_candidate_skills B resume_data = Ok candidate_skills ->
  extract_required_skills B jd_data = Ok required_skills ->
  required_skills <> [] ->
  exists res,
    check_skills_match B resume_data jd_data = Ok res
    /\ matchedSkills res
       = filter (skill_matched candidate_skills) required_skills
    /\ missingSkills res
       = filter (fun r => negb (skill_matched candidate_skills r))
           required_skills
    /\ Permutation (matchedSkills res ++ missingSkills res) required_skills
    /\ map required (skillMatchDetails res) = matchedSkills res
    /\ candidateSkillsCount res = length (matchedSkills res)
    /\ requiredSkillsCount res
       = length (matchedSkills res) + length (missingSkills res).
Proof.
  intros Hc Hr Hne.
  destruct (check_skills_match_fields _ _ _ _ Hc Hr Hne)
    as [res [H [H1 [H2 [H3 [H4 [H5 _]]]]]]].
  exists res. split; [exact H|]. split; [exact H1|]. split; [exact H2|].
  assert (P : Permutation (matchedSkills res ++ missingSkills res)
                required_skills)
    by (rewrite H1, H2; apply filter_partition_perm).
  split; [exact P|]. split.
  - rewrite H3, map_map. unfold detail_of.
    rewrite <- (map_id (matchedSkills res)) at 2. apply map_ext.
    intros r. destruct (best_match_for candidate_skills r) as [[[f bm] bt] bc].
    reflexivity.
  - split; [exact H4|]. rewrite H5, <- length_app.
    symmetry. apply Permutation_length. exact P.
Qed.


Lemma skill_matched_incl (c1 c2 : list str) (r : str) :
  incl c1 c2 -> skill_matched c1 r = true -> skill_matched c2 r = true.
Proof.
  intros Hi H. unfold skill_matched in *.
  apply existsb_exists in H as [c [Ic Hc]].
  apply existsb_exists. exists c. split; [apply Hi, Ic | exact Hc].
Qed.

Lemma filter_length_mono {A : Type} (f g : A -> bool) (l : list A) :
  (forall x, f x = true -> g x = true) ->
  length (filter f l) <= length (filter g l).
Proof.
  intros H. induction l as [|x l IH]; [constructor|]. cbn [filter].
  destruct (f x) eqn:E.
  - rewrite (H x E). cbn [length]. lia.
  - destruct (g x); cbn [length]; lia.
Qed.

(** More skills never hurt: when every skill of one candidate is a skill of
    another, the second has at least the skills score of the first, matches
    every required skill the first matches, and meets the criterion when
    the first does. *)
Theorem skills_score_monotone (resume_data resume_data' jd_data : pyval)
    (candidate_skills candidate_skills' required_skills : list str) :
  extract_candidate_skills B resume_data = Ok candidate_skills ->
  extract_candidate_skills B resume_data' = Ok candidate_skills' ->
  extract_required_skills B jd_data = Ok required_skills ->
  incl candidate_skills candidate_skills' ->
  exists res res',
    check_skills_match B resume_data jd_data = Ok res
    /\ check_skills_match B resume_data' jd_data = Ok res'
    /\ (skl_score res <= skl_score res')%Z
    /\ incl (matchedSkills res) (matchedSkills res')
    /\ (skl_met res = true -> skl_met res' = true).
Proof.
  intros Hc Hc' Hr Hi.
  destruct required_skills as [|r0 rs].
  { unfold check_skills_match. rewrite Hc, Hc', Hr. cbn [bind].
    eexists. eexists. split; [reflexivity|]. split; [reflexivity|].
    cbn [skl_score matchedSkills skl_met]. split; [lia|]. split; auto. }
  set (reqs := r0 :: rs) in *.
  assert (Hne : reqs <> []) by discriminate.
  destruct (check_skills_match_fields _ _ _ _ Hc Hr Hne)
    as [res [H [H1 [_ [_ [_ [_ [_ [Hs [Hp Hm]]]]]]]]]].
  destruct (check_skills_match_fields _ _ _ _ Hc' Hr Hne)
    as [res' [H' [H1' [_ [_ [_ [_ [_ [Hs' [Hp' Hm']]]]]]]]]].
  exists res, res'. split; [exact H|]. split; [exact H'|].
  assert (Hlen : length (matchedSkills res) <= length (matchedSkills res')).
  { rewrite H1, H1'. apply filter_length_mono.
    intros r. apply skill_matched_incl, Hi. }
  assert (Hn : (0 < Z.of_nat (length reqs))%Z) by (cbn [length reqs]; lia).
  assert (Hdiv : forall k, (0 <= k)%Z ->
            (k * Z.of_nat (length (matchedSkills res)) / Z.of_nat (length reqs)
             <= k * Z.of_nat (length (matchedSkills res'))
                / Z.of_nat (length reqs))%Z).
  { intros k Hk. apply Z.div_le_mono; [exact Hn | nia]. }
  split; [|split].
  - rewrite Hs, Hs'. cbv zeta.
    pose proof (Hdiv 40%Z ltac:(lia)) as D.
    destruct (Z.eqb_spec (Z.of_nat (length (matchedSkills res))) 0);
      destruct (Z.eqb_spec (Z.of_nat (length (matchedSkills res'))) 0); lia.
  - rewrite H1, H1'. intros r Ir. apply filter_In in Ir as [Ir Mr].
    apply filter_In. split; [exact Ir|].
    exact (skill_matched_incl _ _ _ Hi Mr).
  - rewrite Hm, Hm', Hp, Hp'. intros M. apply Z.leb_le in M. apply Z.leb_le.
    pose proof (Hdiv 100%Z ltac:(lia)). lia.
Qed.

(** The skills score lies between 0 and 40; when a skill is required it is
    40 exactly when no required skill is missing, and 0 exactly when none is
    matched. *)
Theorem skills_score_range (resume_data jd_data : pyval)
    (candidate_skills required_skills : list str) :
  extract_candidate_skills B resume_data = Ok candidate_skills ->
  extract_required_skills B jd_data = Ok required_skills ->
  exists res,
    check_skills_match B resume_data jd_data = Ok res
    /\ (0 <= skl_score res <= 40)%Z
    /\ (0 <= skl_percentage res <= 100)%Z
    /\ (required_skills <> [] ->
        (skl_score res = 40%Z <-> missingSkills res = [])
        /\ (skl_score res = 0%Z <-> matchedSkills res = [])).
Proof.
  intros Hc Hr.
  destruct required_skills as [|r0 rs].
  { unfold check_skills_match. rewrite Hc, Hr. cbn [bind].
    eexists. split; [reflexivity|].
    cbn [skl_score skl_percentage]. split; [lia|]. split; [lia | congruence]. }
  set (reqs := r0 :: rs) in *.
  assert (Hne : reqs <> []) by discriminate.
  destruct (check_skills_match_fields _ _ _ _ Hc Hr Hne)
    as [res [H [H1 [H2 [_ [_ [_ [_ [Hs [Hp _]]]]]]]]]].
  exists res. split; [exact H|].
  pose proof (Permutation_length (filter_partition_perm
                (skill_matched candidate_skills) reqs)) as Hl.
  rewrite length_app, <- H1, <- H2 in Hl.
  set (m := length (matchedSkills res)) in *.
  set (k := length (missingSkills res)) in *.
  assert (Hn : (0 < Z.of_nat (length reqs))%Z) by (cbn [length reqs]; lia).
  assert (D40 : (0 <= 40 * Z.of_nat m / Z.of_nat (length reqs) <= 40)%Z).
  { split; [apply Z.div_pos; lia|].
    apply Z.div_le_upper_bound; [exact Hn | nia]. }
  assert (D100 : (0 <= 100 * Z.of_nat m / Z.of_nat (length reqs) <= 100)%Z).
  { split; [apply Z.div_pos; lia|].
    apply Z.div_le_upper_bound; [exact Hn | nia]. }
  rewrite Hs, Hp. cbv zeta.
  split; [destruct (Z.eqb_spec (Z.of_nat m) 0); lia|].
  split; [exact D100|]. intros _. split.
  - assert (Hk : missingSkills res = [] <-> k = 0)
      by (unfold k; destruct (missingSkills res); cbn [length];
          split; congruence || lia || discriminate).
    rewrite Hk.
    destruct (Z.eqb_spec (Z.of_nat m) 0) as [E|E].
    + split; [lia|]. intros K. cbn [length reqs] in Hl. lia.
    + split.
      * intros E40.
        destruct (Nat.eq_dec k 0) as [K|K]; [exact K | exfalso].
        assert (X : (40 * Z.of_nat m / Z.of_nat (length reqs) < 40)%Z)
          by (apply Z.div_lt_upper_bound; [exact Hn | nia]).
        lia.
      * intros K. assert (Em : m = length reqs) by lia.
        rewrite Em. rewrite Z.div_mul by lia. lia.
  - assert (Hm0 : matchedSkills res = [] <-> m = 0)
      by (unfold m; destruct (matchedSkills res); cbn [length];
          split; congruence || lia || discriminate).
    rewrite Hm0.
    destruct (Z.eqb_spec (Z.of_nat m) 0) as [E|E]; split; lia.
Qed.

End MoreSkills.

Lemma skills_partition_witness :
  let candidate_skills := [py "Python"; py "Docker"] in
  let required_skills := [py "python"; py "java"; py "docker"; py "aws"] in
  exists res,
    check_skills_match example_builtins
      (PDict [(py "skills", PList [PStr (py "Python"); PStr (py "Docker")])])
      (PDict [(py "requiredSkills",
               PList [PStr (py "python"); PStr (py "java");
                      PStr (py "docker"); PStr (py "aws")])])
    = Ok res
    /\ matchedSkills res
       = filter (skill_matched candidate_skills) required_skills
    /\ missingSkills res
       = filter (fun r => negb (skill_matched candidate_skills r))
           required_skills
    /\ Permutation (matchedSkills res ++ missingSkills res) required_skills
    /\ map required (skillMatchDetails res) = matchedSkills res
    /\ candidateSkillsCount res = length (matchedSkills res)
    /\ requiredSkillsCount res
       = length (matchedSkills res) + length (missingSkills res).
Proof.
  intros candidate_skills required_skills.
  apply (skills_partition example_builtins
           (PDict [(py "skills", PList [PStr (py "Python"); PStr (py "Docker")])])
           (PDict [(py "requiredSkills",
                    PList [PStr (py "python"); PStr (py "java");
                           PStr (py "docker"); PStr (py "aws")])])
           candidate_skills required_skills);
    [reflexivity | reflexivity | discriminate].
Defined.


Lemma skills_score_monotone_witness :
  exists res res',
    check_skills_match example_builtins
      (PDict [(py "skills", PList [PStr (py "Python")])])
      (PDict [(py "requiredSkills",
               PList [PStr (py "python"); PStr (py "docker")])]) = Ok res
    /\ check_skills_match example_builtins
         (PDict [(py "skills", PList [PStr (py "Docker"); PStr (py "Python")])])
         (PDict [(py "requiredSkills",
                  PList [PStr (py "python"); PStr (py "docker")])]) = Ok res'
    /\ (skl_score res <= skl_score res')%Z
    /\ incl (matchedSkills res) (matchedSkills res')
    /\ (skl_met res = true -> skl_met res' = true).
Proof.
  apply (skills_score_monotone example_builtins
           (PDict [(py "skills", PList [PStr (py "Python")])])
           (PDict [(py "skills", PList [PStr (py "Docker"); PStr (py "Python")])])
           (PDict [(py "requiredSkills",
                    PList [PStr (py "python"); PStr (py "docker")])])
           [py "Python"] [py "Docker"; py "Python"] [py "python"; py "docker"]);
    [reflexivity | reflexivity | reflexivity |].
  intros x [<-|[]]. right. left. reflexivity.
Defined.

Lemma skills_score_range_witness :
  exists res,
    check_skills_match example_builtins
      (PDict [(py "skills", PList [PStr (py "Python")])])
      (PDict [(py "requiredSkills",
               PList [PStr (py "python"); PStr (py "docker")])]) = Ok res
    /\ (0 <= skl_score res <= 40)%Z
    /\ (0 <= skl_percentage res <= 100)%Z
    /\ ([py "python"; py "docker"] <> [] ->
        (skl_score res = 40%Z <-> missingSkills res = [])
        /\ (skl_score res = 0%Z <-> matchedSkills res = [])).
Proof.
  apply (skills_score_range example_builtins
           (PDict [(py "skills", PList [PStr (py "Python")])])
           (PDict [(py "requiredSkills",
                    PList [PStr (py "python"); PStr (py "docker")])])
           [py "Python"] [py "python"; py "docker"]);
    reflexivity.
Defined.

(** ** The report, further *)

Section MoreReport.
Import SkillMatch MatchingEngine.
Variable B : builtins.

Lemma check_education_match_ok_range (resume_data jd_data : pyval)
    (res : education_result) :
  check_education_match B resume_data jd_data = Ok res ->
  (1 <= edu_score res <= 25)%Z.
Proof.
  intros H.
  destruct resume_data as [| | | | | |rd]; try discriminate H.
  destruct jd_data as [| | | | | |jd];
    try (unfold check_education_match in H; cbn [py_get bind] in H;
         destruct (match dict_get rd (py "education") (PList []) with
                   | PList (e :: l) => highest_education B (e :: l)
                   | _ => (0%Z, PStr (py "not specified"))
                   end); discriminate H).
  destruct (check_education_match_cases B rd jd) as [res' [H' [H0 [H1 H2]]]].
  rewrite H' in H. injection H as <-.
  pose proof (candidate_level_nonneg B rd) as Hc.
  pose proof (normalize_education_range B
                (dict_get jd (py "requiredEducation")
                   (PStr (py "not specified")))) as Hr.
  fold (required_level B jd) in Hr.
  set (cl := candidate_level B rd) in *.
  set (rl := required_level B jd) in *.
  destruct (Z.eq_dec rl 0) as [E|E]; [destruct (H0 E) as [-> _]; lia|].
  destruct (Z_le_gt_dec rl cl) as [L|L];
    [destruct (H1 ltac:(lia)) as [-> _]; lia|].
  destruct (H2 ltac:(lia)) as [-> _].
  assert (cl * 25 / rl < 25)%Z by (apply Z.div_lt_upper_bound; lia).
  lia.
Qed.

Lemma check_skills_match_ok_range (resume_data jd_data : pyval)
    (res : skills_result) :
  check_skills_match B resume_data jd_data = Ok res ->
  (0 <= skl_score res <= 40)%Z.
Proof.
  intros H.
  destruct (extract_candidate_skills B resume_data) as [cs|e] eqn:Ec;
    [|unfold check_skills_match in H; rewrite Ec in H; discriminate H].
  destruct (extract_required_skills B jd_data) as [rs|e] eqn:Er;
    [|unfold check_skills_match in H; rewrite Ec, Er in H; discriminate H].
  destruct rs as [|r0 rs].
  { unfold check_skills_match in H. rewrite Ec, Er in H. cbn [bind] in H.
    injection H as <-. cbn [skl_score]. lia. }
  destruct (check_skills_match_fields B _ _ _ _ Ec Er ltac:(discriminate))
    as [res' [H' [_ [_ [_ [_ [_ [_ [Hs _]]]]]]]]].
  rewrite H' in H. injection H as <-. rewrite Hs. cbv zeta.
  set (m := Z.of_nat (length (matchedSkills res'))).
  assert (Hm : (0 <= m)%Z) by (unfold m; lia).
  assert (Hle : (m <= Z.of_nat (length (r0 :: rs)))%Z).
  { unfold m.
    destruct (check_skills_match_fields B _ _ _ _ Ec Er ltac:(discriminate))
      as [res'' [H'' [H1 _]]].
    rewrite H' in H''. injection H'' as <-. rewrite H1.
    apply inj_le, filter_length_le. }
  assert (Hn : (0 < Z.of_nat (length (r0 :: rs)))%Z) by (cbn [length]; lia).
  assert (0 <= 40 * m / Z.of_nat (length (r0 :: rs)) <= 40)%Z.
  { split; [apply Z.div_pos; lia|].
    apply Z.div_le_upper_bound; [exact Hn | nia]. }
  destruct (m =? 0)%Z; lia.
Qed.

(** A report adds up: the overall score is the plain sum of the three
    section scores, which lie in 1..35, 1..25 and 0..40, so it lies between
    2 and 100 and the clamp to 0..100 never changes it; there is one gap for
    each criterion that is not met; and the kind of the summary agrees with
    the assessment, which is the poor one exactly below 40. *)
Theorem calculate_match_report (resume_data jd_data : pyval)
    (rep : match_report) :
  calculate_match B resume_data jd_data = Ok rep ->
  sectionScores rep
  = (exp_score (experienceMatch rep), edu_score (educationMatch rep),
     skl_score (skillsMatch rep))
  /\ overallScore rep
     = (exp_score (experienceMatch rep) + edu_score (educationMatch rep)
        + skl_score (skillsMatch rep))%Z
  /\ (1 <= exp_score (experienceMatch rep) <= 35)%Z
  /\ (1 <= edu_score (educationMatch rep) <= 25)%Z
  /\ (0 <= skl_score (skillsMatch rep) <= 40)%Z
  /\ (2 <= overallScore rep <= 100)%Z
  /\ length (gaps rep) + fst (summary rep) = 3
  /\ (report_assessment rep = PoorMatchLabel <-> (overallScore rep < 40)%Z)
  /\ (snd (summary rep) = StrongCandidate <->
      report_assessment rep = ExcellentMatchLabel
      \/ report_assessment rep = GreatMatchLabel)
  /\ (snd (summary rep) = GoodCandidate <->
      report_assessment rep = GoodMatchLabel)
  /\ (snd (summary rep) = ModerateCandidate <->
      report_assessment rep = ModerateMatchLabel)
  /\ (snd (summary rep) = ImprovementNeeded <->
      report_assessment rep = PoorMatchLabel).
Proof.
  unfold calculate_match.
  destruct (negb (truthy resume_data) || negb (truthy jd_data));
    [discriminate|].
  destruct (check_experience_match B resume_data jd_data) as [e|x] eqn:He;
    [|discriminate].
  destruct (check_education_match B resume_data jd_data) as [u|x] eqn:Hu;
    [|discriminate].
  destruct (check_skills_match B resume_data jd_data) as [k|x] eqn:Hk;
    [|discriminate].
  cbn [bind]. intros H. injection H as <-.
  cbn [sectionScores overallScore gaps summary report_assessment
       experienceMatch educationMatch skillsMatch fst snd].
  destruct (check_experience_match_ok_range B _ _ _ He) as [Re _].
  pose proof (check_education_match_ok_range _ _ _ Hu) as Ru.
  pose proof (check_skills_match_ok_range _ _ _ Hk) as Rk.
  set (o := Z.min 100 (Z.max 0 (exp_score e + edu_score u + skl_score k))).
  assert (Ho : o = (exp_score e + edu_score u + skl_score k)%Z)
    by (unfold o; lia).
  split; [reflexivity|].
  split; [exact Ho|]. split; [exact Re|]. split; [exact Ru|].
  split; [exact Rk|]. split; [lia|]. split.
  { destruct (exp_met e), (edu_met u), (skl_met k); reflexivity. }
  clearbody o. clear Ho He Hu Hk Re Ru Rk.
  unfold get_assessment, ASSESSMENT_MAP, first_threshold.
  destruct (Z.leb_spec 90 o) as [L90|L90].
  { rewrite (proj2 (Z.leb_le 75 o)) by lia.
    split; [split; [discriminate | lia]|].
    split; [split; [auto | reflexivity]|].
    split; [split; discriminate|]. split; split; discriminate. }
  destruct (Z.leb_spec 75 o) as [L75|L75].
  { split; [split; [discriminate | lia]|].
    split; [split; [auto | reflexivity]|].
    split; [split; discriminate|]. split; split; discriminate. }
  destruct (Z.leb_spec 60 o) as [L60|L60].
  { split; [split; [discriminate | lia]|].
    split; [split; [discriminate | intros [X|X]; discriminate X]|].
    split; [split; reflexivity|]. split; split; discriminate. }
  destruct (Z.leb_spec 40 o) as [L40|L40].
  { split; [split; [discriminate | lia]|].
    split; [split; [discriminate | intros [X|X]; discriminate X]|].
    split; [split; discriminate|].
    split; [split; reflexivity | split; discriminate]. }
  assert (P : (if (0 <=? o)%Z then PoorMatchLabel else PoorMatchLabel)
              = PoorMatchLabel) by (destruct (0 <=? o)%Z; reflexivity).
  rewrite P.
  split; [split; [lia | reflexivity]|].
  split; [split; [discriminate | intros [X|X]; discriminate X]|].
  split; [split; discriminate|].
  split; [split; discriminate | split; reflexivity].
Qed.

End MoreReport.

Lemma calculate_match_report_witness :
  let resume_data :=
    PDict [(py "totalYearsExperience", PInt 3);
           (py "skills", PList [PStr (py "Python")]);
           (py "education",
            PList [PDict [(py "degree", PStr (py "Diploma"))]])] in
  let jd_data :=
    PDict [(py "minExperienceYears", PInt 5);
           (py "requiredEducation", PStr (py "Bachelor"));
           (py "requiredSkills",
            PList [PStr (py "python"); PStr (py "aws")])] in
  exists rep,
    calculate_match example_builtins resume_data jd_data = Ok rep
    /\ overallScore rep
       = (exp_score (experienceMatch rep) + edu_score (educationMatch rep)
          + skl_score (skillsMatch rep))%Z
    /\ (2 <= overallScore rep <= 100)%Z
    /\ length (gaps rep) + fst (summary rep) = 3.
Proof.
  intros resume_data jd_data.
  destruct (calculate_match example_builtins resume_data jd_data)
    as [rep|e] eqn:E; [|vm_compute in E; discriminate E].
  exists rep. split; [reflexivity|].
  destruct (calculate_match_report example_builtins resume_data jd_data rep E)
    as [_ [H1 [_ [_ [_ [H2 [H3 _]]]]]]].
  split; [exact H1|]. split; [exact H2 | exact H3].
Defined.

